(** * Evaluation metrics of the AdaGAN comparison code ([metrics.py])

    A shallow embedding of [Metrics.evaluate], [Metrics._evaluate_vec],
    [Metrics._evaluate_mnist] and [Metrics._evaluate_mnist3], together with
    the numpy / scikit-learn primitives these methods call.

    Conventions of the embedding.
    - A numpy [float64] is read as an exact real number ([R]); rounding is
      not modelled.  The one non-real value that the code can produce on its
      way, the [nan] that [np.median] gives on an empty array, is kept apart
      (see [Np.median] and [NanResult]).
    - A batch of shape [(n, d1, d2, d3)] is the list of its [n] rows, each row
      being the flattened list of the [d1*d2*d3] entries of one point.
    - A Python exception is a value [Raise e]; a normal return is [Ok v].
    - Logging calls are omitted; requests to draw a picture are collected in
      the result of the method that issues them. *)

From Stdlib Require Import String.
From Stdlib Require Import Reals Lra Lia List Bool Arith ZArith.
From Stdlib Require Import Ascii DecimalString DecimalNat.
From Stdlib Require Import Sorting.Permutation Sorting.Sorted.
Import ListNotations.
Open Scope R_scope.

(** ** Outcomes of a Python call *)

Inductive exn : Type :=
| AssertionError (msg : string)
| ValueError
| ZeroDivisionError
| AttributeError
| IndexError.

Inductive outcome (A : Type) : Type :=
| Ok (a : A)
| Raise (e : exn)
| NanResult.

Arguments Ok {A} a.
Arguments Raise {A} e.
Arguments NanResult {A}.

Definition bind {A B : Type} (m : outcome A) (k : A -> outcome B) : outcome B :=
  match m with
  | Ok a => k a
  | Raise e => Raise e
  | NanResult => NanResult
  end.

Notation "x <- m ;; k" := (bind m (fun x => k))
  (at level 61, m at next level, right associativity).

Definition raises {A : Type} (m : outcome A) : Prop := exists e, m = Raise e.

(** ** Comparisons on reals as booleans *)

Definition Rleb (x y : R) : bool := if Rle_dec x y then true else false.
Definition Rltb (x y : R) : bool := if Rlt_dec x y then true else false.
(** Python's [x > y]. *)
Definition Rgtb (x y : R) : bool := Rltb y x.

(** ** numpy primitives *)

Module Np.

Abbreviation point := (list R) (only parsing).
Abbreviation batch := (list (list R)) (only parsing).

Fixpoint sum (l : list R) : R :=
  match l with
  | [] => 0
  | x :: l' => x + sum l'
  end.

(** [np.mean] of a float array.  On an empty array numpy returns [nan]; the
    callers below only reach it with a non-empty array. *)
Definition mean (l : list R) : R := sum l / INR (length l).

Fixpoint count_true (bs : list bool) : nat :=
  match bs with
  | [] => 0
  | b :: bs' => (if b then 1 else 0) + count_true bs'
  end.

(** [np.sum] and [np.mean] of a boolean array. *)
Definition sum_bool (bs : list bool) : nat := count_true bs.
Definition mean_bool (bs : list bool) : R := INR (count_true bs) / INR (length bs).

Fixpoint insert (x : R) (l : list R) : list R :=
  match l with
  | [] => [x]
  | y :: l' => if Rle_dec x y then x :: y :: l' else y :: insert x l'
  end.

Fixpoint sort (l : list R) : list R :=
  match l with
  | [] => []
  | x :: l' => insert x (sort l')
  end.

(** The middle entry of the sorted array [s] of length [n], or the mean of
    its two middle entries. *)
Definition middle (s : list R) (n : nat) : R :=
  if Nat.odd n then nth (n / 2) s 0
  else (nth (n / 2 - 1) s 0 + nth (n / 2) s 0) / 2.

(** [np.median]; [None] stands for the [nan] numpy returns on an empty
    array. *)
Definition median (l : list R) : option R :=
  match l with
  | [] => None
  | _ => Some (middle (sort l) (length l))
  end.

(** [np.percentile(a, q)] for an integer [q], linear interpolation between
    the two closest order statistics: the virtual index is [q/100 * (n-1)].
    Only used on non-empty arrays. *)
Definition percentile (a : list R) (q : nat) : R :=
  let s := sort a in
  let n := length a in
  let pos := (q * (n - 1))%nat in
  let lo := (pos / 100)%nat in
  let hi := Nat.min (lo + 1) (n - 1) in
  let w := INR (pos mod 100) / 100 in
  nth lo s 0 * (1 - w) + nth hi s 0 * w.

(** [a[mask]] for a boolean mask of the same length. *)
Fixpoint select {A : Type} (a : list A) (mask : list bool) : list A :=
  match a, mask with
  | x :: a', b :: mask' => if b then x :: select a' mask' else select a' mask'
  | _, _ => []
  end.

(** [np.bincount(x, minlength=m)] on non-negative integers. *)
Definition bincount (x : list nat) (minlength : nat) : list nat :=
  map (fun i => count_occ Nat.eq_dec x i)
      (seq 0 (match x with
              | [] => minlength
              | _ => Nat.max minlength (S (list_max x))
              end)).

(** [len(np.unique(x))]. *)
Definition unique_count (x : list nat) : nat := length (nodup Nat.eq_dec x).

Fixpoint sum_nat (l : list nat) : nat :=
  match l with
  | [] => 0
  | x :: l' => x + sum_nat l'
  end.

(** [a[i:j]] *)
Definition slice {A : Type} (a : list A) (i j : nat) : list A :=
  firstn (j - i) (skipn i a).

(** [np.reshape(a, [len(a), -1])]: numpy cannot infer the [-1] dimension of
    an array without elements and raises [ValueError]. *)
Definition reshape_rows (a : batch) : outcome batch :=
  match a with
  | [] => Raise ValueError
  | _ => Ok a
  end.

Fixpoint map2 {A B C : Type} (f : A -> B -> C) (l1 : list A) (l2 : list B) : list C :=
  match l1, l2 with
  | x :: l1', y :: l2' => f x y :: map2 f l1' l2'
  | _, _ => []
  end.

End Np.

Import Np.

(** ** scikit-learn's [KernelDensity] with the Gaussian kernel *)

Module KDE.

(** Squared Euclidean distance of two flattened points. *)
Definition sqdist (x y : point) : R :=
  Np.sum (map2 (fun a b => (a - b) * (a - b)) x y).

Definition dim (X : batch) : nat :=
  match X with
  | [] => 0
  | r :: _ => length r
  end.

(** The constructor rejects a bandwidth that is not positive. *)
Definition init (bandwidth : R) : outcome R :=
  if Rle_dec bandwidth 0 then Raise ValueError else Ok bandwidth.

(** Log-density at [x] of the Gaussian kernel density with bandwidth [h]
    fitted on the rows [X]:
    [log (1/N * sum_i (2 pi h^2)^(-d/2) * exp (-|x - x_i|^2 / (2 h^2)))]. *)
Definition log_density (h : R) (X : batch) (x : point) : R :=
  ln (Np.sum (map (fun xi => exp (- sqdist x xi / (2 * h * h))) X)
      / (INR (length X) * (sqrt (2 * PI) * h) ^ dim X)).

Definition score_samples (h : R) (X : batch) (pts : batch) : list R :=
  map (log_density h X) pts.

End KDE.

(** ** The continuous evaluator: [Metrics._evaluate_vec] *)

(** [np.sqrt(np.sum(dist * dist, axis=(1, 2, 3)))] for
    [dist = fake_points[:-1] - fake_points[1:]]. *)
Definition consecutive_dist (fake_points : batch) : list R :=
  map2 (fun a b => sqrt (Np.sum (map (fun d => d * d) (map2 Rminus a b))))
       (removelast fake_points) (tl fake_points).

(** [bandwidth * (2. ** (np.arange(14) - 7.))] *)
Definition b_grid (bandwidth : R) : list R :=
  map (fun i => bandwidth * powerRZ 2 (Z.of_nat i - 7)) (seq 0 14).

(** The body of the loop over [b_grid]; the state is
    [(bandwidth, max_score)]. *)
Fixpoint grid_search (fake_points validation : batch) (grid : list R)
    (st : R * R) : outcome (R * R) :=
  match grid with
  | [] => Ok st
  | _bandwidth :: grid' =>
      h <- KDE.init _bandwidth ;;
      X <- reshape_rows fake_points ;;
      V <- reshape_rows validation ;;
      let score := Np.mean (KDE.score_samples h X V) in
      grid_search fake_points validation grid'
        (if Rltb (snd st) score then (_bandwidth, score) else st)
  end.

(** Lines 111-130: the bandwidth handed to the final [KernelDensity];
    [None] is the [nan] bandwidth obtained from fewer than two fake points.
    The constructor lets [nan] through ([nan <= 0] is false), so with a
    validation batch the first round of the loop still reshapes both
    batches, and every score is [nan], which never exceeds [max_score]. *)
Definition select_bandwidth (fake_points : batch)
    (validation_fake_points : option batch) : outcome (option R) :=
  match Np.median (consecutive_dist fake_points) with
  | Some bandwidth =>
      match validation_fake_points with
      | None => Ok (Some bandwidth)
      | Some validation =>
          st <- grid_search fake_points validation (b_grid bandwidth)
                  (bandwidth, -1000000) ;;
          Ok (Some (fst st))
      end
  | None =>
      match validation_fake_points with
      | None => Ok None
      | Some validation =>
          _ <- reshape_rows fake_points ;;
          _ <- reshape_rows validation ;;
          Ok None
      end
  end.

(** Lines 131-148.  With a [nan] bandwidth the two reshapes still run; what
    the density backend then computes is outside the exact-real model and is
    recorded as [NanResult]. *)
Definition _evaluate_vec_core (real_points fake_points : batch)
    (validation_fake_points : option batch) : outcome (R * R) :=
  b <- select_bandwidth fake_points validation_fake_points ;;
  match b with
  | Some bandwidth =>
      h <- KDE.init bandwidth ;;
      X <- reshape_rows fake_points ;;
      let model_log_density := KDE.score_samples h X X in
      let threshold := Np.percentile model_log_density 5 in
      Rp <- reshape_rows real_points ;;
      let real_points_log_density := KDE.score_samples h X Rp in
      let ratio_not_covered :=
        Np.mean_bool (map (fun v => Rleb v threshold) real_points_log_density) in
      let log_p := Np.mean real_points_log_density in
      let C := 1 - ratio_not_covered in
      Ok (log_p, C)
  | None =>
      _ <- reshape_rows fake_points ;;
      _ <- reshape_rows real_points ;;
      NanResult
  end.

(** ** Options, the [Metrics] object and results *)

Record Opts : Type := {
  dataset : string;
  input_normalize_sym : bool;
  tf_run_batch_size : nat;
  digit_classification_threshold : R;
  mnist3_to_channels : bool
}.

(** The fields of the object that [_make_plots_pics] reads.  [l2s] and [Qz]
    are set to [None] by [Metrics.__init__] and filled by the training loop.
    [Qz_labels] is not set by [__init__]: here [None] stands for the missing
    attribute, whose read raises [AttributeError]. *)
Record Metrics : Type := {
  l2s : option (list R);
  Qz : option batch;
  Qz_labels : option (list nat)
}.

(** A call of [_make_plots_pics]: what it was asked to draw, and the fields
    of [self] that decide the layout of the figure. *)
Record plot_request : Type := {
  plot_prefix : string;
  plot_step : nat;
  plot_points : batch;
  plot_l2s : option (list R);
  plot_Qz : option batch
}.

Inductive metrics_value : Type :=
| VecMetrics (log_p C : R)
| ModeMetrics (JS C C_actual conf : R).

Definition _evaluate_vec (self : Metrics) (opts : Opts) (step : nat)
    (real_points fake_points : batch) (validation_fake_points : option batch)
    (prefix : string) : outcome (R * R) :=
  _evaluate_vec_core real_points fake_points validation_fake_points.

(** ** Jensen-Shannon divergence against the uniform distribution *)

(** Relative frequencies of the labels: [np.bincount(x, minlength=m)]
    divided by its sum. *)
Definition histogram (x : list nat) (minlength : nat) : list R :=
  let phat := bincount x minlength in
  map (fun c => INR c / INR (sum_nat phat)) phat.

(** One summand of the Kullback-Leibler divergence, with [0 * log 0 = 0]. *)
Definition kl_term (p m : R) : R :=
  if Req_dec_T p 0 then 0 else p * ln (p / m).

Definition kl_div (P M : list R) : R := Np.sum (map2 kl_term P M).

Definition js_div (P Q : list R) : R :=
  let M := map2 (fun p q => (p + q) / 2) P Q in
  kl_div P M / 2 + kl_div Q M / 2.

(** Modelled from the spec: [utils.js_div_uniform(p, num_cat)]; the module
    [utils] is not among the sources.  The spec asks for the symmetric
    Jensen-Shannon divergence [JS(P,Q) = KL(P||M)/2 + KL(Q||M)/2] with
    [M = (P+Q)/2] and [0 * log 0 = 0], between the histogram of the labels it
    is given and the uniform distribution over [num_cat] labels. *)
Definition js_div_uniform (p : list nat) (num_cat : nat) : R :=
  let phat := histogram p num_cat in
  js_div phat (map (fun _ => 1 / INR num_cat) phat).

(** ** The discrete evaluators: [_evaluate_mnist] and [_evaluate_mnist3] *)

(** [points / 2. + 0.5] and [2. * (points - 0.5)] *)
Definition rescale_to_unit (points : batch) : batch :=
  map (map (fun x => x / 2 + 5 / 10)) points.
Definition rescale_to_sym (points : batch) : batch :=
  map (map (fun x => 2 * (x - 5 / 10))) points.

(** [int(np.ceil((num_fake + 0.) / batch_size))]; the float division by a
    zero batch size raises. *)
Definition batches_num (num_fake batch_size : nat) : outcome nat :=
  match batch_size with
  | O => Raise ZeroDivisionError
  | _ => Ok ((num_fake + batch_size - 1) / batch_size)%nat
  end.

(** [np.hstack] and [np.vstack] need at least one array. *)
Definition hstack {A : Type} (arrays : list (list A)) : outcome (list A) :=
  match arrays with
  | [] => Raise ValueError
  | _ => Ok (concat arrays)
  end.

Fixpoint map3 {A B C D : Type} (f : A -> B -> C -> D)
    (l1 : list A) (l2 : list B) (l3 : list C) : list D :=
  match l1, l2, l3 with
  | x :: l1', y :: l2', z :: l3' => f x y z :: map3 f l1' l2' l3'
  | _, _, _ => []
  end.

Definition string_in (s : string) (l : list string) : bool :=
  existsb (String.eqb s) l.

(** Python's [min] of a sequence. *)
Definition py_min (l : list R) : outcome R :=
  match l with
  | [] => Raise ValueError
  | x :: l' => Ok (fold_left Rmin l' x)
  end.

(** Lines 557-574 of [_make_plots_pics], the auxiliary plots under the
    picture, as far as they depend on the state of the object: with
    [self.l2s] set, [min(y)] of the recorded losses (line 566) raises on an
    empty list; with [self.Qz] set as well, the scatter plot reads the
    columns [self.Qz[:, 0]] and [self.Qz[:, 1]] and then the attribute
    [self.Qz_labels] (lines 573-574).  What matplotlib does with these arrays
    is not modelled. *)
Definition plot_auxiliary (self : Metrics) : outcome unit :=
  match l2s self with
  | None => Ok tt
  | Some y =>
      _ <- py_min y ;;
      match Qz self with
      | None => Ok tt
      | Some q =>
          if forallb (fun row => (2 <=? length row)%nat) q
          then match Qz_labels self with
               | None => Raise AttributeError
               | Some _ => Ok tt
               end
          else Raise IndexError
      end
  end.

(** The part of [_make_plots_pics] that the evaluators depend on: the
    rescaling, the assertion on the number of pictures, the statements of the
    auxiliary plots that can fail on the state of the object, and the fields
    of [self] that the figure is laid out from.  The layout of the pictures
    is [mosaic] below; the drawing itself is not modelled. *)
Definition _make_plots_pics (self : Metrics) (opts : Opts) (step : nat)
    (fake_points : batch) (prefix : string) : outcome plot_request :=
  let fake_points :=
    if string_in (dataset opts) ["mnist"; "mnist3"; "guitars"; "cifar10"]%string
       && input_normalize_sym opts
    then rescale_to_unit fake_points else fake_points in
  match fake_points with
  | [] => Raise (AssertionError "No points to plot")
  | _ =>
      _ <- plot_auxiliary self ;;
      Ok {| plot_prefix := prefix; plot_step := step;
            plot_points := fake_points;
            plot_l2s := l2s self; plot_Qz := Qz self |}
  end.

(** The loop that collects one fake point per confidently detected mode. *)
Fixpoint gather_modes (digits : list nat) (result_is_confident : list bool)
    (fake_points : batch) (gathered : list nat) (points_to_plot : batch)
    : list nat * batch :=
  match digits, result_is_confident, fake_points with
  | dig :: digits', c :: confident', x :: fake' =>
      if negb (existsb (Nat.eqb dig) gathered) && c
      then gather_modes digits' confident' fake'
             (gathered ++ [dig]) (points_to_plot ++ [x])
      else gather_modes digits' confident' fake' gathered points_to_plot
  | _, _, _ => (gathered, points_to_plot)
  end.

(** The last block of both evaluators, which differ in the number of
    categories only (10, and 1000 as the default of [js_div_uniform]):
    the triple [(JS, C, C_actual)]. *)
Definition mode_statistics (num_cat : nat) (digits : list nat)
    (result_is_confident : list bool) : R * R * R :=
  if (Np.sum_bool result_is_confident =? 0)%nat then (2, 0, 0)
  else
    let C_actual :=
      INR (unique_count (select digits result_is_confident)) / INR num_cat in
    let JS := js_div_uniform digits num_cat in
    let phat := histogram (select digits result_is_confident) num_cat in
    let threshold := Np.percentile phat 5 in
    let ratio_not_covered := Np.mean_bool (map (fun p => Rleb p threshold) phat) in
    let C := 1 - ratio_not_covered in
    (JS, C, C_actual).

(** The images as they are fed to the classifier. *)
Definition classifier_input (opts : Opts) (fake_points : batch) : batch :=
  if input_normalize_sym opts then rescale_to_unit fake_points else fake_points.

Section Classifier.

(** The restored network on one image: the predicted digit and the largest
    soft-max probability.  The section is about a network that was restored
    successfully: the assertions on the collections of the graph passed. *)
Variable classify : point -> nat * R.

(** [np.split(batch_fake, 3, axis=3)] and [np.split(batch_fake, 3, axis=2)]
    on one row: the three stacked digits. *)
Variable split_channels : point -> point * point * point.
Variable split_width : point -> point * point * point.

(** [sess.run([trained_net, prob_max], feed_dict={input_ph: batch})] *)
Definition sess_run (batch_fake : batch) : list nat * list R :=
  (map (fun x => fst (classify x)) batch_fake,
   map (fun x => snd (classify x)) batch_fake).

Definition chunk (fake_points : batch) (batch_size idx : nat) : batch :=
  let end_idx := Nat.min (length fake_points) ((idx + 1) * batch_size) in
  slice fake_points (idx * batch_size) end_idx.

Fixpoint classify_loop (fake_points : batch) (batch_size : nat) (thresh : R)
    (idxs : list nat)
    (acc : list (list nat) * list (list R) * list (list bool))
    : list (list nat) * list (list R) * list (list bool) :=
  match idxs with
  | [] => acc
  | idx :: idxs' =>
      let '(result, result_probs, result_is_confident) := acc in
      let batch_fake := chunk fake_points batch_size idx in
      let '(_res, prob) := sess_run batch_fake in
      classify_loop fake_points batch_size thresh idxs'
        (result ++ [_res], result_probs ++ [prob],
         result_is_confident ++ [map (fun p => Rgtb p thresh) prob])
  end.

(** Lines 192-212: labels, probabilities and confidence flags of the whole
    fake batch. *)
Definition classify_mnist (opts : Opts) (fake_points : batch)
    : outcome (list nat * list R * list bool) :=
  let num_fake := length fake_points in
  nb <- batches_num num_fake (tf_run_batch_size opts) ;;
  let '(r, p, c) :=
    classify_loop fake_points (tf_run_batch_size opts)
      (digit_classification_threshold opts) (seq 0 nb) ([], [], []) in
  result <- hstack r ;;
  result_probs <- hstack p ;;
  result_is_confident <- hstack c ;;
  if negb (length result =? num_fake)%nat then Raise (AssertionError EmptyString)
  else if negb (length result_probs =? num_fake)%nat
       then Raise (AssertionError EmptyString)
  else Ok (result, result_probs, result_is_confident).

Definition _evaluate_mnist (self : Metrics) (opts : Opts) (step : nat)
    (real_points fake_points : batch) (validation_fake_points : option batch)
    (prefix : string) : outcome (R * R * R * R * option plot_request) :=
  if (length fake_points =? 0)%nat
  then Raise (AssertionError "No fake digits to evaluate")
  else
    let fake_points :=
      if input_normalize_sym opts then rescale_to_unit fake_points
      else fake_points in
    cls <- classify_mnist opts fake_points ;;
    let '(result, result_probs, result_is_confident) := cls in
    let fake_points :=
      if input_normalize_sym opts then rescale_to_sym fake_points
      else fake_points in
    let digits := result in
    let '(gathered, points_to_plot) :=
      gather_modes digits result_is_confident fake_points [] [] in
    let conf := Np.mean result_probs in
    plot <- match points_to_plot with
            | [] => Ok None
            | _ => p <- _make_plots_pics self opts step points_to_plot "modes_" ;;
                   Ok (Some p)
            end ;;
    let '(JS, C, C_actual) := mode_statistics 10 digits result_is_confident in
    Ok (JS, C, C_actual, conf, plot).

Definition split3 (opts : Opts) (x : point) : point * point * point :=
  if mnist3_to_channels opts then split_channels x else split_width x.

Fixpoint classify_loop3 (opts : Opts) (fake_points : batch) (idxs : list nat)
    (acc : list (list nat) * list (list (R * R * R)) * list (list bool))
    : list (list nat) * list (list (R * R * R)) * list (list bool) :=
  match idxs with
  | [] => acc
  | idx :: idxs' =>
      let '(result, result_probs, result_is_confident) := acc in
      let thresh := digit_classification_threshold opts in
      let batch_fake := chunk fake_points (tf_run_batch_size opts) idx in
      let input1 := map (fun x => fst (fst (split3 opts x))) batch_fake in
      let input2 := map (fun x => snd (fst (split3 opts x))) batch_fake in
      let input3 := map (fun x => snd (split3 opts x)) batch_fake in
      let '(_res1, prob1) := sess_run input1 in
      let '(_res2, prob2) := sess_run input2 in
      let '(_res3, prob3) := sess_run input3 in
      classify_loop3 opts fake_points idxs'
        (result ++ [map3 (fun a b c => 100 * a + 10 * b + c)%nat _res1 _res2 _res3],
         result_probs ++ [map3 (fun a b c => (a, b, c)) prob1 prob2 prob3],
         result_is_confident ++
           [map3 (fun a b c => Rgtb a thresh && Rgtb b thresh && Rgtb c thresh)
              prob1 prob2 prob3])
  end.

(** Lines 314-348. *)
Definition classify_mnist3 (opts : Opts) (fake_points : batch)
    : outcome (list nat * list (R * R * R) * list bool) :=
  let num_fake := length fake_points in
  nb <- batches_num num_fake (tf_run_batch_size opts) ;;
  let '(r, p, c) := classify_loop3 opts fake_points (seq 0 nb) ([], [], []) in
  result <- hstack r ;;
  result_probs <- hstack p ;;
  result_is_confident <- hstack c ;;
  if negb (length result =? num_fake)%nat then Raise (AssertionError EmptyString)
  else if negb (length result_probs =? num_fake)%nat
       then Raise (AssertionError EmptyString)
  else Ok (result, result_probs, result_is_confident).

(** [np.mean] of the [(num_fake, 3)] array of probabilities. *)
Definition mean3 (result_probs : list (R * R * R)) : R :=
  Np.mean (flat_map (fun t => [fst (fst t); snd (fst t); snd t]) result_probs).

Definition _evaluate_mnist3 (self : Metrics) (opts : Opts) (step : nat)
    (real_points fake_points : batch) (validation_fake_points : option batch)
    (prefix : string) : outcome (R * R * R * R * option plot_request) :=
  if (length fake_points =? 0)%nat
  then Raise (AssertionError "No fake digits to evaluate")
  else
    let fake_points :=
      if input_normalize_sym opts then rescale_to_unit fake_points
      else fake_points in
    cls <- classify_mnist3 opts fake_points ;;
    let '(result, result_probs, result_is_confident) := cls in
    let fake_points :=
      if input_normalize_sym opts then rescale_to_sym fake_points
      else fake_points in
    let digits := result in
    let '(gathered, points_to_plot) :=
      gather_modes digits result_is_confident fake_points [] [] in
    let conf := mean3 result_probs in
    plot <- match points_to_plot with
            | [] => Ok None
            | _ => p <- _make_plots_pics self opts step points_to_plot "modes_" ;;
                   Ok (Some p)
            end ;;
    let '(JS, C, C_actual) := mode_statistics 1000 digits result_is_confident in
    Ok (JS, C, C_actual, conf, plot).

(** ** The dispatcher: [Metrics.evaluate] *)

(** [None] in the first component is Python's [None]. *)
Definition evaluate (self : Metrics) (opts : Opts) (step : nat)
    (real_points fake_points : batch) (validation_fake_points : option batch)
    (prefix : string) : outcome (option metrics_value * option plot_request) :=
  if String.eqb (dataset opts) "gmm" then
    r <- _evaluate_vec self opts step real_points fake_points
           validation_fake_points EmptyString ;;
    Ok (Some (VecMetrics (fst r) (snd r)), None)
  else if String.eqb (dataset opts) "circle_gmm" then
    r <- _evaluate_vec self opts step real_points fake_points
           validation_fake_points EmptyString ;;
    Ok (Some (VecMetrics (fst r) (snd r)), None)
  else if String.eqb (dataset opts) "mnist" then
    r <- _evaluate_mnist self opts step real_points fake_points None
           EmptyString ;;
    let '(JS, C, C_actual, conf, plot) := r in
    Ok (Some (ModeMetrics JS C C_actual conf), plot)
  else if String.eqb (dataset opts) "mnist3" then
    r <- _evaluate_mnist3 self opts step real_points fake_points None
           EmptyString ;;
    let '(JS, C, C_actual, conf, plot) := r in
    Ok (Some (ModeMetrics JS C C_actual conf), plot)
  else Ok (None, None).

(** ** Pointwise descriptions of the classification *)

Definition predicted_digits (opts : Opts) (fake_points : batch) : list nat :=
  map (fun x => fst (classify x)) (classifier_input opts fake_points).

Definition predicted_probs (opts : Opts) (fake_points : batch) : list R :=
  map (fun x => snd (classify x)) (classifier_input opts fake_points).

Definition confident_flags (opts : Opts) (fake_points : batch) : list bool :=
  map (fun x => Rgtb (snd (classify x)) (digit_classification_threshold opts))
      (classifier_input opts fake_points).

(** The three sub-images of a point and what the classifier says on them. *)
Definition sub1 (opts : Opts) (x : list R) : list R :=
  fst (fst (split3 opts x)).
Definition sub2 (opts : Opts) (x : list R) : list R :=
  snd (fst (split3 opts x)).
Definition sub3 (opts : Opts) (x : list R) : list R :=
  snd (split3 opts x).

Definition composite_label (opts : Opts) (x : list R) : nat :=
  100 * fst (classify (sub1 opts x)) + 10 * fst (classify (sub2 opts x))
  + fst (classify (sub3 opts x)).

Definition sub_probs (opts : Opts) (x : list R) : R * R * R :=
  (snd (classify (sub1 opts x)), snd (classify (sub2 opts x)),
   snd (classify (sub3 opts x))).

Definition all_confident (opts : Opts) (x : list R) : bool :=
  Rgtb (snd (classify (sub1 opts x))) (digit_classification_threshold opts)
  && Rgtb (snd (classify (sub2 opts x))) (digit_classification_threshold opts)
  && Rgtb (snd (classify (sub3 opts x))) (digit_classification_threshold opts).

End Classifier.

(** The dataset kinds the dispatcher knows. *)
Definition supported_kinds : list string :=
  ["gmm"; "circle_gmm"; "mnist"; "mnist3"]%string.

(** ** Order statistics *)

(** Every element of the tail is bounded below by the head. *)
Inductive ascending : list R -> Prop :=
| asc_nil : ascending []
| asc_cons x l : (forall y, In y l -> x <= y) -> ascending l -> ascending (x :: l).

(** The smallest entry of a non-empty array. *)
Definition smallest (l : list R) : R := nth 0 (Np.sort l) 0.

(** ** Descriptions used in the statements *)

(** Mean validation log-density of the candidate [g]. *)
Definition validation_score (fake_points validation : batch) (g : R) : R :=
  Np.mean (KDE.score_samples g fake_points validation).

(** The description of the result, in the words of the specification: the
    mean log-density of the real points, and one minus the fraction of real
    points whose log-density is at most the 5th percentile of the fake points'
    own log-densities, all under the density with bandwidth [h] fitted on the
    fake points. *)
Definition spec_log_p (h : R) (fake_points real_points : batch) : R :=
  Np.mean (map (KDE.log_density h fake_points) real_points).

Definition spec_threshold (h : R) (fake_points : batch) : R :=
  Np.percentile (map (KDE.log_density h fake_points) fake_points) 5.

Definition spec_coverage (h : R) (fake_points real_points : batch) : R :=
  1 - INR (length (filter (fun x => Rleb (KDE.log_density h fake_points x)
                                         (spec_threshold h fake_points))
                          real_points))
      / INR (length real_points).

(** The argument of the logarithm in [KDE.log_density] for two training
    points in dimension one, at squared distances [a] and [b] of the query;
    [c] stands for [sqrt (2 * PI)]. *)
Definition two_kernel_density (a b h c : R) : R :=
  (exp (- a / (2 * h * h)) + (exp (- b / (2 * h * h)) + 0))
  / ((1 + 1) * (c * h * 1)).

(** ** Sample inputs *)

Definition no_aux : Metrics :=
  {| l2s := None; Qz := None; Qz_labels := None |}.

Definition gmm_opts : Opts :=
  {| dataset := "gmm"; input_normalize_sym := false;
     tf_run_batch_size := 100; digit_classification_threshold := 999 / 1000;
     mnist3_to_channels := false |}.

(** Two coinciding fake points. *)
Definition twin_fake : batch := [[0]; [0]].

Definition unit_fake : batch := [[0]; [1]].

Definition far_validation : batch := [[200000]].

Definition mnist_opts : Opts :=
  {| dataset := "mnist"; input_normalize_sym := false;
     tf_run_batch_size := 100; digit_classification_threshold := 999 / 1000;
     mnist3_to_channels := false |}.

Definition mnist3_opts : Opts :=
  {| dataset := "mnist3"; input_normalize_sym := false;
     tf_run_batch_size := 100; digit_classification_threshold := 999 / 1000;
     mnist3_to_channels := false |}.

Definition guitars_opts : Opts :=
  {| dataset := "guitars"; input_normalize_sym := false;
     tf_run_batch_size := 100; digit_classification_threshold := 999 / 1000;
     mnist3_to_channels := false |}.

Definition cifar10_opts : Opts :=
  {| dataset := "cifar10"; input_normalize_sym := false;
     tf_run_batch_size := 100; digit_classification_threshold := 999 / 1000;
     mnist3_to_channels := false |}.

(** A toy classifier on two-pixel images: the first pixel, in tenths, is
    read as the digit, the second as the probability of the prediction. *)
Definition digit_of (v : R) : nat :=
  length (filter (fun k => Rleb (INR k / 10) v) (seq 1 9)).

Definition pixel_classify (x : list R) : nat * R :=
  (digit_of (nth 0 x 0), nth 1 x 0).

(** A toy split of a six-pixel row into three two-pixel images. *)
Definition thirds (x : list R) : list R * list R * list R :=
  (firstn 2 x, firstn 2 (skipn 2 x), skipn 4 x).

(** The image of the digit [d] predicted with probability [p]. *)
Definition digit_image (d : nat) (p : R) : list R := [INR d / 10; p].

(** One image of every digit; only the image of 0 is classified with
    confidence. *)
Definition ten_digits : batch :=
  [digit_image 0 1; digit_image 1 (1 / 2); digit_image 2 (1 / 2);
   digit_image 3 (1 / 2); digit_image 4 (1 / 2); digit_image 5 (1 / 2);
   digit_image 6 (1 / 2); digit_image 7 (1 / 2); digit_image 8 (1 / 2);
   digit_image 9 (1 / 2)].

(** Two triple images showing 1, 2, 3 with full confidence. *)
Definition triple_123 : list R := [1 / 10; 1; 2 / 10; 1; 3 / 10; 1].
Definition triples_123 : batch := [triple_123; triple_123].


(** ** Calls on a [Metrics] object: the store *)

(** What a name can refer to: an array, or a fitted [KernelDensity]. *)
Inductive object : Type :=
| Floats2 (rows : batch)
| Floats1 (a : list R)
| Bools (a : list bool)
| Estimator (h : R) (X : batch).

(** The objects that exist, each at its location, and the [Metrics] object
    the method is called on.  The arguments of a call are locations: Python
    passes references, so the callee could write into the caller's arrays. *)
Record Store : Type := {
  heap : list object;
  self_obj : Metrics
}.

(** A statement: it returns or raises, and leaves a store. *)
Definition action (A : Type) : Type := Store -> outcome A * Store.

Definition ret {A : Type} (a : A) : action A := fun s => (Ok a, s).

Definition lift {A : Type} (r : outcome A) : action A := fun s => (r, s).

Definition bind_action {A B : Type} (m : action A) (k : A -> action B)
    : action B :=
  fun s =>
    match m s with
    | (Ok a, s') => k a s'
    | (Raise e, s') => (Raise e, s')
    | (NanResult, s') => (NanResult, s')
    end.

Notation "x <-- m ;;; k" := (bind_action m (fun x => k))
  (at level 61, m at next level, right associativity).

(** The store with one more object. *)
Definition grow (s : Store) (o : object) : Store :=
  {| heap := heap s ++ [o]; self_obj := self_obj s |}.

(** An expression that builds an array or an object: the result is a new
    object, at a location that was not in use. *)
Definition alloc (o : object) : action nat :=
  fun s => (Ok (length (heap s)), grow s o).

(** Reading through a name. *)
Definition batch_at (s : Store) (l : nat) : batch :=
  match nth l (heap s) (Floats1 []) with
  | Floats2 rows => rows
  | _ => []
  end.

Definition floats_at (s : Store) (l : nat) : list R :=
  match nth l (heap s) (Floats1 []) with
  | Floats1 a => a
  | _ => []
  end.

Definition bools_at (s : Store) (l : nat) : list bool :=
  match nth l (heap s) (Floats1 []) with
  | Bools a => a
  | _ => []
  end.

Definition estimator_at (s : Store) (l : nat) : R * batch :=
  match nth l (heap s) (Floats1 []) with
  | Estimator h X => (h, X)
  | _ => (0, [])
  end.

Definition read_batch (l : nat) : action batch := fun s => (Ok (batch_at s l), s).
Definition read_floats (l : nat) : action (list R) :=
  fun s => (Ok (floats_at s l), s).
Definition read_bools (l : nat) : action (list bool) :=
  fun s => (Ok (bools_at s l), s).
Definition read_estimator (l : nat) : action (R * batch) :=
  fun s => (Ok (estimator_at s l), s).

(** The two ways in which a method can change what its caller sees: writing
    into an existing array ([a[...] = v], [a *= v], [out=a]) and assigning
    to a field of the object ([self.x = v]). *)
Definition write (l : nat) (o : object) : action unit :=
  fun s =>
    (Ok tt,
     {| heap := firstn l (heap s) ++ [o] ++ skipn (S l) (heap s);
        self_obj := self_obj s |}).

Definition set_self (m : Metrics) : action unit :=
  fun s => (Ok tt, {| heap := heap s; self_obj := m |}).

(** [np.reshape(a, [len(a), -1])] of the array behind a name: another view of
    the same data. *)
Definition reshape_at (l : nat) : action batch :=
  a <-- read_batch l ;;;
  lift (reshape_rows a).

(** The loop of lines 121-130 on the store: every turn builds an estimator
    and an array of scores. *)
Fixpoint grid_loop (fake_points validation : nat) (grid : list R)
    (st : R * R) : action (R * R) :=
  match grid with
  | [] => ret st
  | _bandwidth :: grid' =>
      h <-- lift (KDE.init _bandwidth) ;;;
      X <-- reshape_at fake_points ;;;
      kde <-- alloc (Estimator h X) ;;;
      V <-- reshape_at validation ;;;
      k <-- read_estimator kde ;;;
      scores <-- alloc (Floats1 (KDE.score_samples (fst k) (snd k) V)) ;;;
      sc <-- read_floats scores ;;;
      let score := Np.mean sc in
      grid_loop fake_points validation grid'
        (if Rltb (snd st) score then (_bandwidth, score) else st)
  end.

(** Lines 114-130 on the store: the bandwidth handed to the final estimator,
    from the array of distances behind [dist]. *)
Definition bandwidth_search (fake_points : nat)
    (validation_fake_points : option nat) (dist : nat) : action (option R) :=
  (* bandwidth = np.median(dist) *)
  d <-- read_floats dist ;;;
  match Np.median d with
  | Some bandwidth =>
      match validation_fake_points with
      | None => ret (Some bandwidth)
      | Some validation =>
          st <-- grid_loop fake_points validation (b_grid bandwidth)
                   (bandwidth, -1000000) ;;;
          ret (Some (fst st))
      end
  | None =>
      match validation_fake_points with
      | None => ret None
      | Some validation =>
          _ <-- reshape_at fake_points ;;;
          _ <-- reshape_at validation ;;;
          ret None
      end
  end.

(** Lines 131-148 on the store. *)
Definition density_statistics (real_points fake_points : nat)
    (b : option R) : action (R * R) :=
  match b with
  | Some bandwidth =>
      (* kde = KernelDensity(...); kde.fit(np.reshape(fake_points, ...)) *)
      h <-- lift (KDE.init bandwidth) ;;;
      X <-- reshape_at fake_points ;;;
      kde <-- alloc (Estimator h X) ;;;
      (* model_log_density = kde.score_samples(np.reshape(fake_points, ...)) *)
      X' <-- reshape_at fake_points ;;;
      k <-- read_estimator kde ;;;
      model_log_density <--
        alloc (Floats1 (KDE.score_samples (fst k) (snd k) X')) ;;;
      (* threshold = np.percentile(model_log_density, 5) *)
      m <-- read_floats model_log_density ;;;
      let threshold := Np.percentile m 5 in
      (* real_points_log_density =
           kde.score_samples(np.reshape(real_points, ...)) *)
      Rp <-- reshape_at real_points ;;;
      k <-- read_estimator kde ;;;
      real_points_log_density <--
        alloc (Floats1 (KDE.score_samples (fst k) (snd k) Rp)) ;;;
      (* ratio_not_covered = np.mean(real_points_log_density <= threshold) *)
      r <-- read_floats real_points_log_density ;;;
      below <-- alloc (Bools (map (fun v => Rleb v threshold) r)) ;;;
      f <-- read_bools below ;;;
      let ratio_not_covered := Np.mean_bool f in
      (* log_p = np.mean(real_points_log_density); C = 1. - ratio_not_covered *)
      r <-- read_floats real_points_log_density ;;;
      let log_p := Np.mean r in
      let C := 1 - ratio_not_covered in
      ret (log_p, C)
  | None =>
      _ <-- reshape_at fake_points ;;;
      _ <-- reshape_at real_points ;;;
      lift NanResult
  end.

(** [self._evaluate_vec(opts, step, real_points, fake_points,
    validation_fake_points, prefix)], lines 111-148, statement by statement
    on the store.  The arguments are the locations of the arrays.  Every
    right-hand side reads the arrays behind the names it mentions and builds
    a new array, to which the name on the left is then bound; numpy's
    [median], [percentile], [mean] and [reshape] and the estimator's [fit] and
    [score_samples] are taken not to write into their arguments.  No statement
    of the method is an assignment into an array or to a field of [self], so
    neither [write] nor [set_self] occurs.  The call of [logging.info] is
    omitted. *)
Definition call_evaluate_vec (opts : Opts) (step : nat) (prefix : string)
    (real_points fake_points : nat) (validation_fake_points : option nat)
    : action (R * R) :=
  (* dist = fake_points[:-1] - fake_points[1:] *)
  fp <-- read_batch fake_points ;;;
  dist <-- alloc (Floats2 (map2 (map2 Rminus) (removelast fp) (tl fp))) ;;;
  (* dist = dist * dist *)
  d <-- read_batch dist ;;;
  dist <-- alloc (Floats2 (map (map (fun v => v * v)) d)) ;;;
  (* dist = np.sqrt(np.sum(dist, axis=(1, 2, 3))) *)
  d <-- read_batch dist ;;;
  dist <-- alloc (Floats1 (map (fun row => sqrt (Np.sum row)) d)) ;;;
  b <-- bandwidth_search fake_points validation_fake_points dist ;;;
  density_statistics real_points fake_points b.

(** The location [l] is in use. *)
Definition allocated (s : Store) (l : nat) : Prop := (l < length (heap s))%nat.

(** Everything that exists in [s] exists unchanged in [s'], and the object is
    in the same state. *)
Definition extends (s s' : Store) : Prop :=
  (exists more, heap s' = heap s ++ more) /\ self_obj s' = self_obj s.

(** A statement that changes nothing of what existed before it. *)
Definition frame {A : Type} (m : action A) : Prop :=
  forall s, extends s (snd (m s)).

(** A store for examples: two arrays of points. *)
Definition two_arrays : Store :=
  {| heap := [Floats2 [[0]; [3]]; Floats2 [[0]; [1]]]; self_obj := no_aux |}.

(** ** Plots: further options, saved files and their names *)

(** The keys of [opts] that only the plotting methods read. *)
Record PlotOpts : Type := {
  toy_dataset_dim : nat;
  gmm_max_val : R;
  work_dir : string;
  plot_every : nat
}.

(** A call of [plt.savefig] / [fig.savefig] on a file of the work
    directory. *)
Record saved_file : Type := {
  file_dir : string;
  file_name : string
}.

Fixpoint zero_pad (k : nat) (s : string) : string :=
  match k with
  | O => s
  | S k' => String "0"%char (zero_pad k' s)
  end.

(** ['{:0wd}'.format(n)] for a non-negative [n]: the decimal digits, padded
    with zeros on the left up to the width [w]. *)
Definition format_d (width n : nat) : string :=
  let s := NilEmpty.string_of_uint (Nat.to_uint n) in
  zero_pad (width - String.length s) s.

(** [prefix + 'stem{:0wd}.png'.format(step)] *)
Definition plot_file_name (prefix stem : string) (width step : nat) : string :=
  (prefix ++ stem ++ format_d width step ++ ".png")%string.

(** [np.reshape(points, [len(points), k])]: every flattened row must have
    [k] entries. *)
Definition reshape_cols (k : nat) (points : batch) : outcome batch :=
  if forallb (fun x => (length x =? k)%nat) points then Ok points
  else Raise ValueError.

(** The routine that [make_plots] hands the points to. *)
Inductive plot_route : Type :=
| Plot1d
| Plot2d
| PlotPics
| NoPlot.

(** [Metrics.make_plots], lines 44-67: the choice of the routine. *)
Definition make_plots_route (opts : Opts) (popts : PlotOpts) : plot_route :=
  if String.eqb (dataset opts) "gmm" then
    if (toy_dataset_dim popts =? 1)%nat then Plot1d
    else if (toy_dataset_dim popts =? 2)%nat then Plot2d
    else NoPlot
  else if String.eqb (dataset opts) "circle_gmm" then
    if (toy_dataset_dim popts =? 2)%nat then Plot2d else NoPlot
  else if string_in (dataset opts) ["mnist"; "mnist3"; "guitars"; "cifar10"]%string
  then PlotPics
  else NoPlot.

(** [Metrics._make_plots_2d]: the reshapes, the assertion on the weights and
    the files that are saved, in the order of the source; the first component
    lists the files saved before the call returned or raised.  The scatter
    plots themselves are not modelled.  [None] is Python's [None]. *)
Definition _make_plots_2d (opts : Opts) (popts : PlotOpts) (step : nat)
    (real_points fake_points : option batch) (weights : option (list R))
    (prefix : string) : list saved_file * outcome unit :=
  match (match real_points with
         | None => Ok []
         | Some r => reshape_cols 2 r
         end) with
  | Raise e => ([], Raise e)
  | NanResult => ([], NanResult)
  | Ok real =>
      match (match fake_points with
             | None => Ok []
             | Some f => reshape_cols 2 f
             end) with
      | Raise e => ([], Raise e)
      | NanResult => ([], NanResult)
      | Ok fake =>
          let mixture :=
            {| file_dir := work_dir popts;
               file_name := plot_file_name prefix "mixture" 2 step |} in
          match weights with
          | None => ([mixture], Ok tt)
          | Some w =>
              if negb (length w =? length real)%nat
              then ([mixture], Raise (AssertionError EmptyString))
              else ([mixture;
                     {| file_dir := work_dir popts;
                        file_name := plot_file_name prefix "weights" 2 step |}],
                    Ok tt)
          end
      end
  end.

(** [np.max] of an array: it has no value on an empty array. *)
Definition np_max (l : list R) : outcome R :=
  match l with
  | [] => Raise ValueError
  | x :: l' => Ok (fold_left Rmax l' x)
  end.

(** Python's order on pairs of floats: by the first component, then by the
    second. *)
Definition pair_leb (p q : R * R) : bool :=
  Rltb (fst p) (fst q)
  || ((if Req_dec_T (fst p) (fst q) then true else false)
      && Rleb (snd p) (snd q)).

Fixpoint insert_pair (p : R * R) (l : list (R * R)) : list (R * R) :=
  match l with
  | [] => [p]
  | q :: l' => if pair_leb p q then p :: q :: l' else q :: insert_pair p l'
  end.

(** [sorted] on a list of pairs. *)
Fixpoint sorted_pairs (l : list (R * R)) : list (R * R) :=
  match l with
  | [] => []
  | p :: l' => insert_pair p (sorted_pairs l')
  end.

Section Histogram.

(** [plt.hist(x, bins=100, range=(-max_val, max_val), normed=True)[0]]: the
    heights of the bars, for the points [x] and the bound [max_val]. *)
Variable hist : list R -> R -> list R.

(** [Metrics._make_plots_1d]: the second component of the result is the
    curve of the weights handed to [plt.plot], as its abscissas and
    ordinates, when weights are given.  The histograms themselves are not
    modelled beyond the heights that [plt.hist] returns. *)
Definition _make_plots_1d (opts : Opts) (popts : PlotOpts) (step : nat)
    (real_points fake_points : option batch) (weights : option (list R))
    (prefix : string)
    : list saved_file * outcome (option (list R * list R)) :=
  let max_val := gmm_max_val popts * (12 / 10) in
  let run :=
    real <- match real_points with
            | None => Ok []
            | Some r => r' <- reshape_cols 1 r ;; Ok (concat r')
            end ;;
    fake <- match fake_points with
            | None => Ok []
            | Some f => f' <- reshape_cols 1 f ;; Ok (concat f')
            end ;;
    let f := hist real max_val in
    let _ := hist fake max_val in
    match weights with
    | None => Ok None
    | Some w =>
        if negb (length real =? length w)%nat
        then Raise (AssertionError EmptyString)
        else
          let weights_srt := map snd (sorted_pairs (combine real w)) in
          let real_points_srt := Np.sort real in
          max_pdf <- np_max f ;;
          top <- np_max weights_srt ;;
          let weights_srt :=
            map (fun y => y / top * max_pdf * (8 / 10)) weights_srt in
          Ok (Some (real_points_srt, weights_srt))
    end in
  match run with
  | Ok curve =>
      ([{| file_dir := work_dir popts;
           file_name := plot_file_name prefix "mixture" 2 step |}],
       Ok curve)
  | Raise e => ([], Raise e)
  | NanResult => ([], NanResult)
  end.

End Histogram.

(** ** Plots: the mosaic of pictures *)

Section Mosaic.

(** The entries of a picture: scalars, or vectors of channels. *)
Variable A : Type.

(** The entry of [np.ones(shape)] that takes the place of a given entry. *)
Variable one : A -> A.

(** [np.ones(pic.shape)] *)
Definition ones_like (pic : list (list A)) : list (list A) :=
  map (map one) pic.

(** [np.split(l, k)] along the first axis: [k] groups of equal size. *)
Definition np_split {B : Type} (l : list B) (k : nat) : outcome (list (list B)) :=
  match k with
  | O => Raise ZeroDivisionError
  | _ =>
      if (length l mod k =? 0)%nat
      then Ok (map (fun c => slice l (c * (length l / k)) ((c + 1) * (length l / k)))
                 (seq 0 k))
      else Raise ValueError
  end.

(** Two pictures side by side: [np.concatenate([p, q], axis=1)]. *)
Definition hcat (p q : list (list A)) : list (list A) := map2 (@app A) p q.

(** [np.concatenate(groups, axis=2)] for groups of pictures: picture by
    picture, side by side. *)
Fixpoint concatenate_axis2 (groups : list (list (list (list A))))
    : outcome (list (list (list A))) :=
  match groups with
  | [] => Raise ValueError
  | [g] => Ok g
  | g :: rest => r <- concatenate_axis2 rest ;; Ok (map2 hcat g r)
  end.

(** Lines 510-521 of [_make_plots_pics]: the layout of the pictures in
    columns of [max_rows] pictures. *)
Definition mosaic (pics : list (list (list A))) (max_rows : nat)
    : outcome (list (list A)) :=
  let num_pics := length pics in
  match max_rows with
  | O => Raise ZeroDivisionError
  | _ =>
      let num_cols := ((num_pics + max_rows - 1) / max_rows)%nat in
      let last_col_num := (num_pics mod max_rows)%nat in
      if (num_cols =? 1)%nat then Ok (concat pics)
      else
        let pics :=
          if (0 <? last_col_num)%nat
          then pics ++ repeat (ones_like (hd [] pics)) (max_rows - last_col_num)
          else pics in
        groups <- np_split pics num_cols ;;
        image <- concatenate_axis2 groups ;;
        Ok (concat image)
  end.

(** Pictures side by side, from left to right. *)
Fixpoint hcat_all (ps : list (list (list A))) : list (list A) :=
  match ps with
  | [] => []
  | [p] => p
  | p :: rest => hcat p (hcat_all rest)
  end.

(** The picture with the number [k], or a blank picture of the shape of the
    first one. *)
Definition tile (pics : list (list (list A))) (k : nat) : list (list A) :=
  nth k pics (ones_like (hd [] pics)).

(** The grid of tiles, column by column: the tile in row [r] and column [c]
    has the number [c * max_rows + r]. *)
Definition mosaic_grid (pics : list (list (list A))) (max_rows num_cols : nat)
    : list (list A) :=
  concat (map (fun r =>
                 hcat_all (map (fun c => tile pics (c * max_rows + r))
                             (seq 0 num_cols)))
            (seq 0 max_rows)).

(** All pictures have [H] rows of [W] entries. *)
Definition uniform (H W : nat) (pics : list (list (list A))) : Prop :=
  forall p, In p pics -> length p = H /\ forall row, In row p -> length row = W.

End Mosaic.

(** The picture of one point of mnist3 with the digits side by side, lines
    499-503: the three slices of 28 columns, put together again, and
    inverted. *)
Definition pic_mnist3_width (x : list (list (list R))) : list (list (list R)) :=
  let dig1 := map (fun row => slice row 0 28) x in
  let dig2 := map (fun row => slice row 28 56) x in
  let dig3 := map (fun row => slice row 56 84) x in
  map (map (map (fun v => 1 - v)))
    (map3 (fun a b c => a ++ b ++ c) dig1 dig2 dig3).

(** Lines 564-568 of [_make_plots_pics]: the abscissas and ordinates of the
    curve of the losses [self.l2s]. *)
Definition loss_curve_shift (m : R) : R := if Rleb 0 m then 0 else Rabs m.

Definition loss_curve (l2s : list R) (popts : PlotOpts)
    : outcome (list R * list R) :=
  let x := map (fun i => INR i * INR (plot_every popts)) (seq 1 (length l2s)) in
  m <- py_min l2s ;;
  let delta := loss_curve_shift m in
  Ok (x, map (fun v => ln (1 / 10000000 + delta + v)) l2s).

(** ** Descriptions used in further statements *)

(** The options with another chunk size for the classifier. *)
Definition with_batch_size (opts : Opts) (batch_size : nat) : Opts :=
  {| dataset := dataset opts;
     input_normalize_sym := input_normalize_sym opts;
     tf_run_batch_size := batch_size;
     digit_classification_threshold := digit_classification_threshold opts;
     mnist3_to_channels := mnist3_to_channels opts |}.

(** Number of entries of an array of frequencies that are zero. *)
Definition zeros (l : list R) : nat := length (filter (fun p => Rleb p 0) l).

(** The batch moved by the vector [t]. *)
Definition translate (t : list R) (X : batch) : batch :=
  map (fun x => map2 Rplus x t) X.

(** All rows of the batch have [d] entries. *)
Definition rows_of_dim (d : nat) (X : batch) : Prop :=
  forall x, In x X -> length x = d.

(** The confident labels of a fake batch. *)
Definition confident_digits (classify : list R -> nat * R) (opts : Opts)
    (fake_points : batch) : list nat :=
  Np.select (predicted_digits classify opts fake_points)
    (confident_flags classify opts fake_points).

Definition confident_composites (classify : list R -> nat * R)
    (split_channels split_width : list R -> list R * list R * list R)
    (opts : Opts) (fake_points : batch) : list nat :=
  Np.select
    (map (composite_label classify split_channels split_width opts)
       (classifier_input opts fake_points))
    (map (all_confident classify split_channels split_width opts)
       (classifier_input opts fake_points)).

(** Reading back the digits written by [format_d]. *)
Definition read_d (s : string) : option nat :=
  option_map Nat.of_uint (NilEmpty.uint_of_string s).

(** Plot options as the driver sets them. *)
Definition toy_plot_opts : PlotOpts :=
  {| toy_dataset_dim := 2; gmm_max_val := 15; work_dir := "results_gmm";
     plot_every := 500 |}.

(** * Properties *)

(** ** Outcomes and boolean comparisons *)

Lemma Rleb_true_iff (x y : R) : Rleb x y = true <-> x <= y.
Proof.
  unfold Rleb. destruct (Rle_dec x y); split; intros; auto; try discriminate;
    try contradiction.
Qed.

Lemma Rltb_true_iff (x y : R) : Rltb x y = true <-> x < y.
Proof.
  unfold Rltb. destruct (Rlt_dec x y); split; intros; auto; try discriminate;
    try contradiction.
Qed.

Lemma Rltb_false_iff (x y : R) : Rltb x y = false <-> y <= x.
Proof.
  unfold Rltb. destruct (Rlt_dec x y); split; intros; auto; try discriminate; lra.
Qed.

Lemma Rgtb_true_iff (x y : R) : Rgtb x y = true <-> x > y.
Proof. unfold Rgtb. rewrite Rltb_true_iff. unfold Rgt. tauto. Qed.

Lemma Rleb_false_iff (x y : R) : Rleb x y = false <-> y < x.
Proof.
  unfold Rleb. destruct (Rle_dec x y); split; intros; auto; try discriminate; lra.
Qed.

(** Decides the comparisons between numerals that occur in the goal. *)
Ltac decide_Rcmp :=
  repeat match goal with
  | |- context [Rltb ?a ?b] =>
      first [ rewrite (proj2 (Rltb_true_iff a b)) by lra
            | rewrite (proj2 (Rltb_false_iff a b)) by lra ]
  | |- context [Rleb ?a ?b] =>
      first [ rewrite (proj2 (Rleb_true_iff a b)) by lra
            | rewrite (proj2 (Rleb_false_iff a b)) by lra ]
  end.

Lemma reshape_rows_ok (a : batch) : a <> [] -> reshape_rows a = Ok a.
Proof. destruct a; [congruence | reflexivity]. Qed.

Lemma KDE_init_pos (h : R) : 0 < h -> KDE.init h = Ok h.
Proof.
  intros H. unfold KDE.init. destruct (Rle_dec h 0); [lra | reflexivity].
Qed.

Lemma KDE_init_nonpos (h : R) : h <= 0 -> KDE.init h = Raise ValueError.
Proof.
  intros H. unfold KDE.init. destruct (Rle_dec h 0); [reflexivity | lra].
Qed.

(** ** Sorting and order statistics *)

Lemma insert_perm (x : R) (l : list R) : Permutation (x :: l) (Np.insert x l).
Proof.
  induction l as [|y l IH]; simpl.
  - apply Permutation_refl.
  - destruct (Rle_dec x y).
    + apply Permutation_refl.
    + apply perm_trans with (y :: x :: l).
      * apply perm_swap.
      * apply perm_skip, IH.
Qed.

Lemma sort_perm (l : list R) : Permutation l (Np.sort l).
Proof.
  induction l as [|x l IH]; simpl.
  - apply perm_nil.
  - apply perm_trans with (x :: Np.sort l).
    + apply perm_skip, IH.
    + apply insert_perm.
Qed.

Lemma sort_length (l : list R) : length (Np.sort l) = length l.
Proof. symmetry. apply Permutation_length, sort_perm. Qed.

Lemma sort_In (l : list R) (x : R) : In x (Np.sort l) <-> In x l.
Proof.
  split; intros H.
  - eapply Permutation_in; [apply Permutation_sym, sort_perm | exact H].
  - eapply Permutation_in; [apply sort_perm | exact H].
Qed.


Lemma insert_ascending (x : R) (l : list R) :
  ascending l -> ascending (Np.insert x l).
Proof.
  induction 1 as [|y l Hy Hl IH]; simpl.
  - constructor; [intros y [] | constructor].
  - destruct (Rle_dec x y) as [Hxy|Hxy].
    + constructor.
      * intros z [<-|Hz]; [exact Hxy|]. specialize (Hy z Hz). lra.
      * constructor; assumption.
    + constructor; [|exact IH].
      intros z Hz.
      apply (Permutation_in z (Permutation_sym (insert_perm x l))) in Hz.
      destruct Hz as [<-|Hz]; [lra | auto].
Qed.

Lemma sort_ascending (l : list R) : ascending (Np.sort l).
Proof.
  induction l; simpl; [constructor | now apply insert_ascending].
Qed.

Lemma ascending_head_le_nth (l : list R) (i : nat) :
  ascending l -> (i < length l)%nat -> nth 0 l 0 <= nth i l 0.
Proof.
  intros Hl Hi. destruct Hl as [|x l Hx Hl]; simpl in *; [lia|].
  destruct i; [lra|]. apply Hx, nth_In. lia.
Qed.


Lemma smallest_In (l : list R) : l <> [] -> In (smallest l) l.
Proof.
  intros Hl. apply sort_In. apply nth_In. rewrite sort_length.
  destruct l; [congruence | simpl; lia].
Qed.

Lemma percentile_index_bound (q n : nat) :
  (q <= 100)%nat -> (0 < n)%nat -> (q * (n - 1) / 100 <= n - 1)%nat.
Proof.
  intros Hq Hn. apply Nat.Div0.div_le_upper_bound; nia.
Qed.

(** The interpolated percentile is never below the smallest entry. *)
Lemma smallest_le_percentile (l : list R) (q : nat) :
  l <> [] -> (q <= 100)%nat -> smallest l <= Np.percentile l q.
Proof.
  intros Hl Hq. unfold Np.percentile, smallest.
  set (s := Np.sort l). set (n := length l).
  assert (Hn : (0 < n)%nat) by (subst n; destruct l; [congruence | simpl; lia]).
  assert (Hs : length s = n) by apply sort_length.
  set (pos := (q * (n - 1))%nat).
  set (lo := (pos / 100)%nat).
  set (w := INR (pos mod 100) / 100).
  assert (Hlo : (lo <= n - 1)%nat) by (apply percentile_index_bound; assumption).
  assert (Hw0 : 0 <= w).
  { unfold w. apply Rmult_le_pos; [apply pos_INR | lra]. }
  assert (Hw1 : w <= 1).
  { unfold w. assert (H : (pos mod 100 < 100)%nat) by (apply Nat.mod_upper_bound; lia).
    apply lt_INR in H. replace (INR 100) with 100 in H by (simpl; lra). lra. }
  assert (H1 : nth 0 s 0 <= nth lo s 0).
  { apply ascending_head_le_nth; [apply sort_ascending | lia]. }
  assert (H2 : nth 0 s 0 <= nth (Nat.min (lo + 1) (n - 1)) s 0).
  { apply ascending_head_le_nth; [apply sort_ascending | lia]. }
  nra.
Qed.

Lemma median_some (l : list R) :
  l <> [] -> Np.median l = Some (Np.middle (Np.sort l) (length l)).
Proof. destruct l; [congruence | reflexivity]. Qed.

Lemma median_none (l : list R) : Np.median l = None -> l = [].
Proof. destruct l; [reflexivity | discriminate]. Qed.

Lemma middle_nonneg (s : list R) (n : nat) :
  (0 < n)%nat -> (forall i, (i < n)%nat -> 0 <= nth i s 0) ->
  0 <= Np.middle s n.
Proof.
  intros Hn Hnth. unfold Np.middle.
  assert (Hhalf : (n / 2 < n)%nat) by (apply Nat.div_lt; lia).
  destruct (Nat.odd n).
  - now apply Hnth.
  - assert (Hprev : (n / 2 - 1 < n)%nat) by lia.
    assert (H1 := Hnth _ Hprev). assert (H2 := Hnth _ Hhalf). lra.
Qed.

Lemma median_nonneg (l : list R) (m : R) :
  (forall x, In x l -> 0 <= x) -> Np.median l = Some m -> 0 <= m.
Proof.
  intros Hpos Hm. destruct l as [|x l]; [discriminate|].
  rewrite median_some in Hm by discriminate. injection Hm as <-.
  apply middle_nonneg.
  - simpl; lia.
  - intros i Hi. apply Hpos, sort_In, nth_In. now rewrite sort_length.
Qed.

(** ** Consecutive distances and the candidate grid *)

Lemma map2_length {A B C : Type} (f : A -> B -> C) (l1 : list A) (l2 : list B) :
  length (map2 f l1 l2) = Nat.min (length l1) (length l2).
Proof.
  revert l2. induction l1 as [|x l1 IH]; intros [|y l2]; simpl; auto.
Qed.

Lemma In_map2 {A B C : Type} (f : A -> B -> C) (l1 : list A) (l2 : list B) (z : C) :
  In z (map2 f l1 l2) -> exists x y, In x l1 /\ In y l2 /\ z = f x y.
Proof.
  revert l2. induction l1 as [|x l1 IH]; intros [|y l2]; simpl; try tauto.
  intros [<-|H].
  - exists x, y. auto.
  - destruct (IH _ H) as (x' & y' & ? & ? & ?). exists x', y'. auto.
Qed.

Lemma removelast_length {A : Type} (l : list A) :
  length (removelast l) = (length l - 1)%nat.
Proof.
  destruct l as [|x l]; [reflexivity|].
  revert x. induction l as [|y l IH]; intros x; [reflexivity|].
  change (removelast (x :: y :: l)) with (x :: removelast (y :: l)).
  change (length (x :: removelast (y :: l)))
    with (S (length (removelast (y :: l)))).
  rewrite IH. simpl. lia.
Qed.

Lemma consecutive_dist_length (fake_points : batch) :
  length (consecutive_dist fake_points) = (length fake_points - 1)%nat.
Proof.
  unfold consecutive_dist. rewrite map2_length, removelast_length.
  destruct fake_points as [|x l]; [reflexivity|]. cbn [tl length]. lia.
Qed.

Lemma consecutive_dist_nonneg (fake_points : batch) (x : R) :
  In x (consecutive_dist fake_points) -> 0 <= x.
Proof.
  intros H. apply In_map2 in H. destruct H as (a & b & _ & _ & ->).
  apply sqrt_pos.
Qed.

Lemma b_grid_In (b g : R) :
  In g (b_grid b) ->
  exists k : Z, (-7 <= k <= 6)%Z /\ g = b * powerRZ 2 k.
Proof.
  unfold b_grid. intros H. apply in_map_iff in H.
  destruct H as (i & <- & Hi). apply in_seq in Hi.
  exists (Z.of_nat i - 7)%Z. split; [lia | reflexivity].
Qed.

Lemma b_grid_pos (b g : R) : 0 < b -> In g (b_grid b) -> 0 < g.
Proof.
  intros Hb H. apply b_grid_In in H. destruct H as (k & _ & ->).
  apply Rmult_lt_0_compat; [exact Hb | apply powerRZ_lt; lra].
Qed.

Lemma b_grid_length (b : R) : length (b_grid b) = 14%nat.
Proof. reflexivity. Qed.

(** ** The grid search *)


(** The loop returns, and keeps the first candidate of the largest score
    among those that score above the initial [max_score]; with no such
    candidate the state is left as it was. *)
Lemma grid_search_spec (fake_points validation : batch) (grid : list R) :
  fake_points <> [] -> validation <> [] ->
  (forall g, In g grid -> 0 < g) ->
  forall st, exists st',
    grid_search fake_points validation grid st = Ok st' /\
    (forall g, In g grid -> validation_score fake_points validation g <= snd st') /\
    ((st' = st /\
      forall g, In g grid -> validation_score fake_points validation g <= snd st)
     \/ (In (fst st') grid /\
         snd st' = validation_score fake_points validation (fst st') /\
         snd st < snd st')).
Proof.
  intros Hf Hv. induction grid as [|g grid IH]; intros Hpos st.
  - exists st. split; [reflexivity|]. split; [intros g []|].
    left. split; [reflexivity | intros g []].
  - simpl grid_search.
    rewrite KDE_init_pos by (apply Hpos; left; reflexivity).
    simpl bind. rewrite (reshape_rows_ok _ Hf), (reshape_rows_ok _ Hv). simpl bind.
    fold (validation_score fake_points validation g).
    assert (Hpos' : forall g', In g' grid -> 0 < g') by (intros; apply Hpos; now right).
    destruct (Rltb (snd st) (validation_score fake_points validation g)) eqn:E.
    + apply Rltb_true_iff in E.
      destruct (IH Hpos' (g, validation_score fake_points validation g))
        as (st' & Hrun & Hmax & Hcase).
      exists st'. split; [exact Hrun|]. simpl in Hcase.
      assert (Hg : validation_score fake_points validation g <= snd st').
      { destruct Hcase as [[-> _]|(_ & _ & Hlt)]; simpl; lra. }
      split.
      * intros g' [<-|Hg']; [exact Hg | now apply Hmax].
      * right. destruct Hcase as [[-> _]|(Hin & Hsc & Hlt)]; simpl.
        -- split; [now left|]. split; [reflexivity | exact E].
        -- split; [now right|]. split; [exact Hsc | lra].
    + apply Rltb_false_iff in E.
      destruct (IH Hpos' st) as (st' & Hrun & Hmax & Hcase).
      exists st'. split; [exact Hrun|].
      assert (Hst : snd st <= snd st').
      { destruct Hcase as [[-> _]|(_ & _ & Hlt)]; lra. }
      split.
      * intros g' [<-|Hg']; [lra | now apply Hmax].
      * destruct Hcase as [[-> Hall]|(Hin & Hsc & Hlt)].
        -- left. split; [reflexivity|]. intros g' [<-|Hg']; [exact E | now apply Hall].
        -- right. split; [now right|]. split; assumption.
Qed.

(** Whenever some candidate scores above the initial [max_score], the
    selected bandwidth is a candidate of the largest score. *)
Lemma select_bandwidth_maximiser (fake_points validation : batch) (b0 : R) :
  Np.median (consecutive_dist fake_points) = Some b0 -> 0 < b0 ->
  fake_points <> [] -> validation <> [] ->
  (exists g, In g (b_grid b0) /\
             -1000000 < validation_score fake_points validation g) ->
  exists h,
    select_bandwidth fake_points (Some validation) = Ok (Some h) /\
    In h (b_grid b0) /\
    forall g, In g (b_grid b0) ->
      validation_score fake_points validation g
      <= validation_score fake_points validation h.
Proof.
  intros Hmed Hb Hf Hv (g & Hg & Hscore). unfold select_bandwidth. rewrite Hmed.
  destruct (grid_search_spec fake_points validation (b_grid b0) Hf Hv
              (fun g => b_grid_pos b0 g Hb) (b0, -1000000))
    as (st' & -> & Hmax & Hcase).
  simpl bind. exists (fst st'). split; [reflexivity|].
  destruct Hcase as [[_ Hall]|(Hin & Hsc & _)].
  - specialize (Hall g Hg). simpl in Hall. lra.
  - split; [exact Hin|]. intros g' Hg'. rewrite <- Hsc. now apply Hmax.
Qed.

(** A candidate that is not positive makes the constructor raise in the
    first round. *)
Lemma grid_search_nonpos (fake_points validation : batch) (g : R) (grid : list R)
    (st : R * R) :
  g <= 0 -> grid_search fake_points validation (g :: grid) st = Raise ValueError.
Proof.
  intros Hg. simpl. now rewrite KDE_init_nonpos.
Qed.

(** ** The selected bandwidth *)

Lemma initial_bandwidth_nonneg (fake_points : batch) :
  (2 <= length fake_points)%nat ->
  exists b0, Np.median (consecutive_dist fake_points) = Some b0 /\ 0 <= b0.
Proof.
  intros Hlen.
  assert (Hne : consecutive_dist fake_points <> []).
  { intros E. apply (f_equal (@length R)) in E.
    rewrite consecutive_dist_length in E. simpl in E. lia. }
  eexists. split; [apply median_some, Hne|].
  eapply median_nonneg; [|apply median_some, Hne].
  apply consecutive_dist_nonneg.
Qed.

Lemma select_bandwidth_validation (fake_points validation : batch) (b0 : R) :
  Np.median (consecutive_dist fake_points) = Some b0 -> 0 < b0 ->
  fake_points <> [] -> validation <> [] ->
  exists k : Z, (-7 <= k <= 6)%Z /\
    select_bandwidth fake_points (Some validation) = Ok (Some (b0 * powerRZ 2 k)).
Proof.
  intros Hmed Hb Hf Hv. unfold select_bandwidth. rewrite Hmed.
  destruct (grid_search_spec fake_points validation (b_grid b0) Hf Hv
              (fun g => b_grid_pos b0 g Hb) (b0, -1000000))
    as (st' & -> & _ & Hcase).
  simpl bind. destruct Hcase as [[-> _]|(Hin & _ & _)].
  - exists 0%Z. split; [lia|]. simpl. now rewrite Rmult_1_r.
  - apply b_grid_In in Hin. destruct Hin as (k & Hk & ->). now exists k.
Qed.

Lemma nonempty_of_length {A : Type} (l : list A) (n : nat) :
  (S n <= length l)%nat -> l <> [].
Proof. destruct l; simpl; [lia | discriminate]. Qed.

Lemma count_true_filter {A : Type} (f : A -> bool) (l : list A) :
  Np.count_true (map f l) = length (filter f l).
Proof.
  induction l as [|x l IH]; simpl; [reflexivity|].
  destruct (f x); simpl; now rewrite IH.
Qed.

(** ** The continuous evaluator against its description *)


Lemma evaluate_vec_core_pos (real_points fake_points : batch)
    (validation_fake_points : option batch) (h : R) :
  select_bandwidth fake_points validation_fake_points = Ok (Some h) ->
  0 < h -> fake_points <> [] -> real_points <> [] ->
  _evaluate_vec_core real_points fake_points validation_fake_points
  = Ok (spec_log_p h fake_points real_points,
        spec_coverage h fake_points real_points).
Proof.
  intros Hsel Hh Hf Hr. unfold _evaluate_vec_core. rewrite Hsel. simpl bind.
  rewrite (KDE_init_pos h Hh). simpl bind.
  rewrite (reshape_rows_ok _ Hf). simpl bind.
  rewrite (reshape_rows_ok _ Hr). simpl bind.
  unfold spec_log_p, spec_coverage, spec_threshold, Np.mean_bool, KDE.score_samples.
  rewrite map_map, count_true_filter, !length_map. reflexivity.
Qed.

(** C3, as amended.  With at least two fake points the initial bandwidth is a
    non-negative real, the median of the consecutive distances; it is used
    unchanged without a validation batch; with a non-empty validation batch
    and a positive median the selected bandwidth is the median times [2^k]
    for some [-7 <= k <= 6], hence strictly positive; with a median of zero
    the first candidate is rejected by the density constructor. *)
Theorem selected_bandwidth_scaled_median (fake_points : batch) :
  (2 <= length fake_points)%nat ->
  exists b0,
    Np.median (consecutive_dist fake_points) = Some b0 /\ 0 <= b0 /\
    select_bandwidth fake_points None = Ok (Some b0) /\
    (0 < b0 -> forall validation, validation <> [] ->
       exists k : Z, (-7 <= k <= 6)%Z /\
         select_bandwidth fake_points (Some validation)
         = Ok (Some (b0 * powerRZ 2 k)) /\
         0 < b0 * powerRZ 2 k) /\
    (b0 = 0 -> forall validation,
       select_bandwidth fake_points (Some validation) = Raise ValueError).
Proof.
  intros Hlen.
  destruct (initial_bandwidth_nonneg fake_points Hlen) as (b0 & Hmed & Hb0).
  exists b0. split; [exact Hmed|]. split; [exact Hb0|]. split; [|split].
  - unfold select_bandwidth. now rewrite Hmed.
  - intros Hpos validation Hv.
    destruct (select_bandwidth_validation fake_points validation b0 Hmed Hpos
                (nonempty_of_length _ 1 Hlen) Hv) as (k & Hk & Hsel).
    exists k. split; [exact Hk|]. split; [exact Hsel|].
    apply Rmult_lt_0_compat; [exact Hpos | apply powerRZ_lt; lra].
  - intros -> validation. unfold select_bandwidth. rewrite Hmed.
    unfold b_grid. simpl map. rewrite grid_search_nonpos; [reflexivity | lra].
Qed.


Lemma twin_fake_dist : consecutive_dist twin_fake = [0].
Proof.
  unfold consecutive_dist, twin_fake. simpl.
  replace ((0 - 0) * (0 - 0) + 0) with 0 by lra. now rewrite sqrt_0.
Qed.

Lemma twin_fake_bandwidth : select_bandwidth twin_fake None = Ok (Some 0).
Proof.
  unfold select_bandwidth. rewrite twin_fake_dist. reflexivity.
Qed.

Lemma unit_fake_dist : consecutive_dist unit_fake = [1].
Proof.
  unfold consecutive_dist, unit_fake. simpl.
  replace ((0 - 1) * (0 - 1) + 0) with 1 by lra. now rewrite sqrt_1.
Qed.

Lemma unit_fake_median : Np.median (consecutive_dist unit_fake) = Some 1.
Proof. rewrite unit_fake_dist. reflexivity. Qed.

(** C3 fails as stated: two coinciding fake points give the bandwidth 0. *)
Lemma selected_bandwidth_zero_on_twins :
  (2 <= length twin_fake)%nat /\
  select_bandwidth twin_fake None = Ok (Some 0) /\
  ~ (forall b, select_bandwidth twin_fake None = Ok (Some b) -> 0 < b).
Proof.
  split; [simpl; lia|]. split; [exact twin_fake_bandwidth|].
  intros H. specialize (H 0 twin_fake_bandwidth). lra.
Qed.


Lemma evaluate_continuous_dispatch
    (classify : list R -> nat * R)
    (split_channels split_width : list R -> list R * list R * list R)
    (self : Metrics) (opts : Opts) (step : nat)
    (real_points fake_points : batch) (validation_fake_points : option batch)
    (prefix : string) :
  dataset opts = "gmm"%string \/ dataset opts = "circle_gmm"%string ->
  evaluate classify split_channels split_width self opts step real_points
    fake_points validation_fake_points prefix
  = (r <- _evaluate_vec self opts step real_points fake_points
            validation_fake_points EmptyString ;;
     Ok (Some (VecMetrics (fst r) (snd r)), None)).
Proof.
  intros [E|E]; unfold evaluate; rewrite E; reflexivity.
Qed.

(** C1, as amended.  With at least two fake points whose median consecutive
    distance is positive, a non-empty real batch and a validation batch that
    is absent or non-empty, the evaluator returns the pair [(log_p, coverage)]
    of the description, for the positive bandwidth it selected; for the
    dataset kinds gmm and circle_gmm this pair is what [evaluate] returns. *)
Theorem evaluate_vec_returns_logp_coverage
    (classify : list R -> nat * R)
    (split_channels split_width : list R -> list R * list R * list R)
    (self : Metrics) (opts : Opts)
    (step : nat) (real_points fake_points : batch)
    (validation_fake_points : option batch) (prefix : string) (b0 : R) :
  (2 <= length fake_points)%nat ->
  Np.median (consecutive_dist fake_points) = Some b0 -> 0 < b0 ->
  real_points <> [] ->
  (forall v, validation_fake_points = Some v -> v <> []) ->
  exists h,
    select_bandwidth fake_points validation_fake_points = Ok (Some h) /\
    0 < h /\
    _evaluate_vec self opts step real_points fake_points
      validation_fake_points prefix
    = Ok (spec_log_p h fake_points real_points,
          spec_coverage h fake_points real_points) /\
    (dataset opts = "gmm"%string \/ dataset opts = "circle_gmm"%string ->
     evaluate classify split_channels split_width self opts step real_points
       fake_points validation_fake_points prefix
     = Ok (Some (VecMetrics (spec_log_p h fake_points real_points)
                   (spec_coverage h fake_points real_points)), None)).
Proof.
  intros Hlen Hmed Hb Hr Hv.
  assert (Hf : fake_points <> []) by exact (nonempty_of_length _ 1 Hlen).
  assert (Hsel : exists h,
    select_bandwidth fake_points validation_fake_points = Ok (Some h) /\ 0 < h).
  { destruct validation_fake_points as [v|].
    - destruct (select_bandwidth_validation fake_points v b0 Hmed Hb Hf
                  (Hv v eq_refl)) as (k & _ & Hsel).
      eexists. split; [exact Hsel|].
      apply Rmult_lt_0_compat; [exact Hb | apply powerRZ_lt; lra].
    - exists b0. split; [|exact Hb]. unfold select_bandwidth. now rewrite Hmed. }
  destruct Hsel as (h & Hsel & Hh). exists h.
  split; [exact Hsel|]. split; [exact Hh|].
  assert (Hrun : forall prefix',
    _evaluate_vec self opts step real_points fake_points
      validation_fake_points prefix'
    = Ok (spec_log_p h fake_points real_points,
          spec_coverage h fake_points real_points)).
  { intros prefix'. unfold _evaluate_vec. now apply evaluate_vec_core_pos. }
  split; [apply Hrun|].
  intros Hkind. rewrite evaluate_continuous_dispatch by exact Hkind.
  rewrite Hrun. reflexivity.
Qed.

(** C1 fails as stated: on two coinciding fake points the bandwidth is 0,
    the density constructor raises and no pair is returned. *)
Lemma evaluate_vec_raises_on_twins :
  (2 <= length twin_fake)%nat /\
  _evaluate_vec no_aux gmm_opts 0 [[0]] twin_fake None EmptyString
  = Raise ValueError /\
  evaluate pixel_classify thirds thirds no_aux gmm_opts 0 [[0]] twin_fake None
    EmptyString
  = Raise ValueError.
Proof.
  assert (E : _evaluate_vec no_aux gmm_opts 0 [[0]] twin_fake None EmptyString
              = Raise ValueError).
  { unfold _evaluate_vec, _evaluate_vec_core. rewrite twin_fake_bandwidth.
    simpl bind. rewrite KDE_init_nonpos by lra. reflexivity. }
  split; [simpl; lia|]. split; [exact E|].
  rewrite evaluate_continuous_dispatch by (left; reflexivity).
  rewrite E. reflexivity.
Qed.

(** The other two ways to leave the domain of the amended C1: an empty real
    batch and an empty validation batch cannot be reshaped. *)
Lemma evaluate_vec_raises_on_empty_real :
  _evaluate_vec no_aux gmm_opts 0 [] unit_fake None EmptyString
  = Raise ValueError.
Proof.
  unfold _evaluate_vec, _evaluate_vec_core, select_bandwidth.
  rewrite unit_fake_median. simpl bind.
  rewrite KDE_init_pos by lra. reflexivity.
Qed.

Lemma evaluate_vec_raises_on_empty_validation :
  _evaluate_vec no_aux gmm_opts 0 [[0]] unit_fake (Some []) EmptyString
  = Raise ValueError.
Proof.
  unfold _evaluate_vec, _evaluate_vec_core, select_bandwidth.
  rewrite unit_fake_median. unfold b_grid. cbn [seq map grid_search].
  rewrite KDE_init_pos; [reflexivity|].
  apply Rmult_lt_0_compat; [lra | apply powerRZ_lt; lra].
Qed.


Lemma selected_bandwidth_scaled_median_witness :
  (2 <= length unit_fake)%nat /\
  select_bandwidth unit_fake None = Ok (Some 1) /\
  exists k : Z, (-7 <= k <= 6)%Z /\
    select_bandwidth unit_fake (Some [[0]]) = Ok (Some (1 * powerRZ 2 k)) /\
    0 < 1 * powerRZ 2 k.
Proof.
  split; [simpl; lia|].
  destruct (selected_bandwidth_scaled_median unit_fake)
    as (b0 & Hmed & _ & Hnone & Hpos & _).
  - simpl; lia.
  - rewrite unit_fake_median in Hmed. injection Hmed as <-.
    split; [exact Hnone|]. apply Hpos; [lra | discriminate].
Defined.

Lemma evaluate_vec_returns_logp_coverage_witness :
  (2 <= length unit_fake)%nat /\
  Np.median (consecutive_dist unit_fake) = Some 1 /\ 0 < 1 /\
  exists h,
    select_bandwidth unit_fake None = Ok (Some h) /\ 0 < h /\
    _evaluate_vec no_aux gmm_opts 0 [[0]] unit_fake None EmptyString
    = Ok (spec_log_p h unit_fake [[0]], spec_coverage h unit_fake [[0]]) /\
    evaluate pixel_classify thirds thirds no_aux gmm_opts 0 [[0]] unit_fake
      None EmptyString
    = Ok (Some (VecMetrics (spec_log_p h unit_fake [[0]])
                  (spec_coverage h unit_fake [[0]])), None).
Proof.
  split; [simpl; lia|]. split; [exact unit_fake_median|]. split; [lra|].
  destruct (evaluate_vec_returns_logp_coverage pixel_classify thirds thirds
              no_aux gmm_opts 0 [[0]] unit_fake None EmptyString 1)
    as (h & Hsel & Hh & Hrun & Hdispatch).
  - simpl; lia.
  - exact unit_fake_median.
  - lra.
  - discriminate.
  - discriminate.
  - exists h. split; [exact Hsel|]. split; [exact Hh|]. split; [exact Hrun|].
    apply Hdispatch. left. reflexivity.
Defined.

(** ** Bounds on the log-density of two kernels *)

Lemma exp_le_mono (x y : R) : x <= y -> exp x <= exp y.
Proof.
  intros [H| ->]; [left; now apply exp_increasing | right; reflexivity].
Qed.

Lemma ln_le_of_le_exp (x t : R) : 0 < x -> x <= exp t -> ln x <= t.
Proof.
  intros Hx [H|H].
  - left. rewrite <- (ln_exp t). now apply ln_increasing.
  - right. rewrite H. apply ln_exp.
Qed.

Lemma le_ln_of_exp_le (x t : R) : exp t <= x -> t <= ln x.
Proof.
  intros [H|H].
  - left. rewrite <- (ln_exp t) at 1. apply ln_increasing; [apply exp_pos | exact H].
  - right. rewrite <- H. symmetry. apply ln_exp.
Qed.

Lemma sqrt_2PI_bounds : 1 <= sqrt (2 * PI) <= 3.
Proof.
  assert (H1 := PI2_1). assert (H4 := PI_4). split.
  - rewrite <- sqrt_1. apply sqrt_le_1_alt. lra.
  - rewrite <- (sqrt_square 3) by lra. apply sqrt_le_1_alt. lra.
Qed.

Lemma pow2_bounds (k : Z) : (-7 <= k <= 6)%Z -> / 128 <= powerRZ 2 k <= 64.
Proof.
  intros Hk.
  assert (H : (k = -7 \/ k = -6 \/ k = -5 \/ k = -4 \/ k = -3 \/ k = -2 \/
               k = -1 \/ k = 0 \/ k = 1 \/ k = 2 \/ k = 3 \/ k = 4 \/
               k = 5 \/ k = 6)%Z) by lia.
  repeat (destruct H as [->|H]); try subst k; unfold powerRZ;
    match goal with
    | |- context [Pos.to_nat ?p] =>
        let n := eval compute in (Pos.to_nat p) in
        change (Pos.to_nat p) with n
    | _ => idtac
    end; unfold pow; lra.
Qed.


Section TwoKernels.

Variables a b h c : R.
Hypothesis Hh : 0 < h.
Hypothesis Hc : 0 < c.
Hypothesis Hba : b <= a.

Lemma two_kernels_split :
  two_kernel_density a b h c
  = (exp (- a / (2 * h * h)) + exp (- b / (2 * h * h))) / 2 * / (c * h).
Proof. unfold two_kernel_density. field. split; lra. Qed.

Lemma two_kernels_order : exp (- a / (2 * h * h)) <= exp (- b / (2 * h * h)).
Proof.
  apply exp_le_mono. unfold Rdiv.
  assert (Hi : 0 < / (2 * h * h)) by (apply Rinv_0_lt_compat; nra).
  nra.
Qed.

Lemma two_kernels_ln_upper (K : R) :
  / (c * h) <= exp K -> ln (two_kernel_density a b h c) <= K - b / (2 * h * h).
Proof.
  intros HK. assert (Ho := two_kernels_order).
  assert (H1 := exp_pos (- a / (2 * h * h))).
  assert (H2 := exp_pos (- b / (2 * h * h))).
  assert (Hi : 0 < / (c * h)) by (apply Rinv_0_lt_compat; nra).
  apply ln_le_of_le_exp.
  - rewrite two_kernels_split. apply Rmult_lt_0_compat; lra.
  - rewrite two_kernels_split.
    replace (K - b / (2 * h * h)) with (- b / (2 * h * h) + K) by (unfold Rdiv; ring).
    rewrite exp_plus. apply Rmult_le_compat; lra.
Qed.

Lemma two_kernels_ln_lower (K : R) :
  exp (- K) <= / (c * h) -> - K - a / (2 * h * h) <= ln (two_kernel_density a b h c).
Proof.
  intros HK. assert (Ho := two_kernels_order).
  assert (H1 := exp_pos (- a / (2 * h * h))).
  assert (H2 := exp_pos (- b / (2 * h * h))).
  assert (H3 := exp_pos (- K)).
  apply le_ln_of_exp_le. rewrite two_kernels_split.
  replace (- K - a / (2 * h * h)) with (- a / (2 * h * h) + - K) by (unfold Rdiv; ring).
  rewrite exp_plus. apply Rmult_le_compat; lra.
Qed.

End TwoKernels.

(** ** The grid search on a far validation point *)


Lemma far_score_density (h : R) :
  validation_score unit_fake far_validation h
  = ln (two_kernel_density ((200000 - 0) * (200000 - 0) + 0)
          ((200000 - 1) * (200000 - 1) + 0) h (sqrt (2 * PI))).
Proof.
  unfold validation_score, KDE.score_samples, KDE.log_density, Np.mean,
    KDE.sqdist, two_kernel_density, unit_fake, far_validation.
  simpl. rewrite Rplus_0_r. unfold Rdiv at 1. now rewrite Rinv_1, Rmult_1_r.
Qed.

Lemma inv_two_sq_bounds (h : R) :
  / 128 <= h <= 64 -> / 8192 <= / (2 * h * h).
Proof.
  intros [Hlo Hhi]. apply Rinv_le_contravar; nra.
Qed.

(** Every candidate between [2^-7] and [2^6] scores below the initial
    [max_score]. *)
Lemma far_score_upper (h : R) :
  / 128 <= h <= 64 ->
  validation_score unit_fake far_validation h <= -1000000.
Proof.
  intros Hh. rewrite far_score_density.
  destruct sqrt_2PI_bounds as [Hc1 Hc3].
  assert (Hi := inv_two_sq_bounds h Hh). destruct Hh as [Hlo Hhi].
  eapply Rle_trans.
  - apply (two_kernels_ln_upper _ _ h (sqrt (2 * PI))) with (K := 128); try lra.
    apply Rle_trans with 128; [|pose proof (exp_ineq1_le 128); lra].
    rewrite <- (Rinv_inv 128). apply Rinv_le_contravar; nra.
  - unfold Rdiv. lra.
Qed.

Lemma far_score_at_1 :
  validation_score unit_fake far_validation 1 <= -19999000000.
Proof.
  rewrite far_score_density. destruct sqrt_2PI_bounds as [Hc1 Hc3].
  eapply Rle_trans.
  - apply (two_kernels_ln_upper _ _ 1 (sqrt (2 * PI))) with (K := 1); try lra.
    apply Rle_trans with 1; [|pose proof (exp_ineq1_le 1); lra].
    rewrite <- Rinv_1 at 2. apply Rinv_le_contravar; lra.
  - lra.
Qed.

Lemma far_score_at_64 :
  -4883005 <= validation_score unit_fake far_validation 64.
Proof.
  rewrite far_score_density. destruct sqrt_2PI_bounds as [Hc1 Hc3].
  eapply Rle_trans.
  2: { apply (two_kernels_ln_lower _ _ 64 (sqrt (2 * PI))) with (K := 192); try lra.
       apply Rle_trans with (/ 192).
       - rewrite exp_Ropp. apply Rinv_le_contravar; [lra|].
         pose proof (exp_ineq1_le 192); lra.
       - apply Rinv_le_contravar; lra. }
  lra.
Qed.

Lemma b_grid_one_bounds (g : R) : In g (b_grid 1) -> / 128 <= g <= 64.
Proof.
  intros H. apply b_grid_In in H. destruct H as (k & Hk & ->).
  rewrite Rmult_1_l. now apply pow2_bounds.
Qed.

Lemma b_grid_one_64 : In 64 (b_grid 1).
Proof.
  unfold b_grid. apply in_map_iff. exists 13%nat. split.
  - change (Z.of_nat 13 - 7)%Z with 6%Z. unfold powerRZ.
    change (Pos.to_nat 6) with 6%nat. unfold pow. lra.
  - apply in_seq. lia.
Qed.

(** C5, on the code: with the fake points 0 and 1 and the validation point
    200000 the initial bandwidth is 1; each of the 14 candidates scores below
    the initial [max_score = -1000000], so the search keeps the bandwidth 1,
    although the candidate 64 scores strictly higher than the candidate 1. *)
Theorem grid_search_misses_maximum_below_sentinel :
  Np.median (consecutive_dist unit_fake) = Some 1 /\
  select_bandwidth unit_fake (Some far_validation) = Ok (Some 1) /\
  In 64 (b_grid 1) /\
  validation_score unit_fake far_validation 1
  < validation_score unit_fake far_validation 64.
Proof.
  split; [exact unit_fake_median|]. split; [|split].
  - unfold select_bandwidth. rewrite unit_fake_median.
    destruct (grid_search_spec unit_fake far_validation (b_grid 1)
                ltac:(discriminate) ltac:(discriminate)
                (fun g => b_grid_pos 1 g Rlt_0_1) (1, -1000000))
      as (st' & -> & _ & Hcase).
    simpl bind. destruct Hcase as [[-> _]|(Hin & Hsc & Hlt)]; [reflexivity|].
    exfalso. apply b_grid_one_bounds in Hin.
    apply far_score_upper in Hin. simpl in Hlt. lra.
  - exact b_grid_one_64.
  - pose proof far_score_at_1. pose proof far_score_at_64. lra.
Qed.

(** ** Classification in chunks *)

Lemma firstn_skipn_add {A : Type} (l : list A) (a b : nat) :
  firstn a l ++ firstn b (skipn a l) = firstn (a + b) l.
Proof.
  revert l. induction a as [|a IH]; intros l; [reflexivity|].
  destruct l as [|x l]; simpl.
  - now rewrite firstn_nil.
  - now rewrite IH.
Qed.

Lemma ceil_div_covers (n bs : nat) :
  (0 < bs)%nat -> (n <= (n + bs - 1) / bs * bs)%nat.
Proof.
  intros Hbs.
  assert (H := Nat.div_mod_eq (n + bs - 1) bs).
  assert (H' := Nat.mod_upper_bound (n + bs - 1) bs ltac:(lia)).
  nia.
Qed.

Lemma ceil_div_pos (n bs : nat) :
  (0 < bs)%nat -> (0 < n)%nat -> (0 < (n + bs - 1) / bs)%nat.
Proof.
  intros Hbs Hn. apply Nat.div_str_pos. lia.
Qed.

Section ClassifierFacts.

Variable classify : list R -> nat * R.
Variable split_channels : list R -> list R * list R * list R.
Variable split_width : list R -> list R * list R * list R.

Lemma chunks_concat (fake_points : batch) (batch_size k : nat) :
  concat (map (chunk fake_points batch_size) (seq 0 k))
  = firstn (k * batch_size) fake_points.
Proof.
  induction k as [|k IH]; [reflexivity|].
  rewrite seq_S, map_app, concat_app, IH. simpl.
  rewrite app_nil_r. unfold chunk, slice. rewrite firstn_skipn_add.
  set (n := length fake_points).
  destruct (Nat.le_gt_cases ((k + 1) * batch_size) n) as [Hle|Hgt].
  - f_equal. lia.
  - rewrite !firstn_all2; [reflexivity | fold n; lia | fold n; lia].
Qed.

Lemma chunks_cover (fake_points : batch) (batch_size : nat) :
  (0 < batch_size)%nat ->
  concat (map (chunk fake_points batch_size)
            (seq 0 ((length fake_points + batch_size - 1) / batch_size)))
  = fake_points.
Proof.
  intros Hbs. rewrite chunks_concat. apply firstn_all2.
  now apply ceil_div_covers.
Qed.

Lemma classify_loop_spec (fake_points : batch) (batch_size : nat) (thresh : R)
    (idxs : list nat) (r : list (list nat)) (p : list (list R))
    (c : list (list bool)) :
  classify_loop classify fake_points batch_size thresh idxs (r, p, c)
  = (r ++ map (fun idx => map (fun x => fst (classify x))
                            (chunk fake_points batch_size idx)) idxs,
     p ++ map (fun idx => map (fun x => snd (classify x))
                            (chunk fake_points batch_size idx)) idxs,
     c ++ map (fun idx => map (fun x => Rgtb (snd (classify x)) thresh)
                            (chunk fake_points batch_size idx)) idxs).
Proof.
  revert r p c. induction idxs as [|idx idxs IH]; intros r p c; simpl.
  - now rewrite !app_nil_r.
  - rewrite IH, <- !app_assoc. simpl. now rewrite map_map.
Qed.

Lemma hstack_chunks {A : Type} (f : list R -> A) (fake_points : batch)
    (batch_size : nat) :
  (0 < batch_size)%nat -> fake_points <> [] ->
  hstack (map (fun idx => map f (chunk fake_points batch_size idx))
            (seq 0 ((length fake_points + batch_size - 1) / batch_size)))
  = Ok (map f fake_points).
Proof.
  intros Hbs Hf.
  assert (Hn : (0 < length fake_points)%nat)
    by (destruct fake_points; [congruence | simpl; lia]).
  assert (Hnb := ceil_div_pos _ _ Hbs Hn).
  set (nb := ((length fake_points + batch_size - 1) / batch_size)%nat) in *.
  unfold hstack.
  destruct (map _ (seq 0 nb)) as [|y ys] eqn:E.
  - apply (f_equal (@length _)) in E. rewrite length_map, length_seq in E.
    simpl in E. lia.
  - rewrite <- E. f_equal.
    rewrite <- (map_map (chunk fake_points batch_size) (map f)).
    rewrite <- concat_map. f_equal. now apply chunks_cover.
Qed.

(** The chunked classification labels the fake points one by one, in input
    order. *)
Lemma classify_mnist_pointwise (opts : Opts) (fake_points : batch) :
  (0 < tf_run_batch_size opts)%nat -> fake_points <> [] ->
  classify_mnist classify opts fake_points
  = Ok (map (fun x => fst (classify x)) fake_points,
        map (fun x => snd (classify x)) fake_points,
        map (fun x => Rgtb (snd (classify x))
                        (digit_classification_threshold opts)) fake_points).
Proof.
  intros Hbs Hf. unfold classify_mnist, batches_num.
  destruct (tf_run_batch_size opts) as [|bs'] eqn:Ebs; [lia|].
  simpl bind. rewrite classify_loop_spec. simpl app.
  rewrite !hstack_chunks by (assumption || lia). simpl bind.
  rewrite !length_map, Nat.eqb_refl. reflexivity.
Qed.

End ClassifierFacts.

(** ** The shape of the discrete results *)

Lemma map3_map {X A B C D : Type} (f : A -> B -> C -> D)
    (g1 : X -> A) (g2 : X -> B) (g3 : X -> C) (l : list X) :
  map3 f (map g1 l) (map g2 l) (map g3 l)
  = map (fun x => f (g1 x) (g2 x) (g3 x)) l.
Proof. induction l as [|x l IH]; simpl; [reflexivity | now rewrite IH]. Qed.

Lemma gather_modes_none (digits : list nat) (flags : list bool)
    (fake_points : batch) (gathered : list nat) (points_to_plot : batch) :
  (forall c, In c flags -> c = false) ->
  gather_modes digits flags fake_points gathered points_to_plot
  = (gathered, points_to_plot).
Proof.
  revert flags fake_points.
  induction digits as [|d digits IH]; intros [|c flags] [|x fake] H;
    try reflexivity.
  simpl. rewrite (H c (or_introl eq_refl)), andb_false_r.
  apply IH. intros c' Hc'. apply H. now right.
Qed.


Lemma count_true_pos (flags : list bool) :
  In true flags -> (0 < Np.count_true flags)%nat.
Proof.
  induction flags as [|c flags IH]; intros H; [destruct H|].
  destruct H as [->|H]; simpl; [lia|]. specialize (IH H). lia.
Qed.


(** Without recorded losses the auxiliary plots are skipped. *)
Lemma plot_auxiliary_none (self : Metrics) :
  l2s self = None -> plot_auxiliary self = Ok tt.
Proof. intros H. unfold plot_auxiliary. now rewrite H. Qed.

(** The request for the gallery of modes is only issued for a non-empty list
    of points; on an object without recorded losses it does not fail. *)
Lemma modes_plot_ok (self : Metrics) (opts : Opts) (step : nat)
    (points_to_plot : batch) :
  l2s self = None \/ points_to_plot = [] ->
  exists plot,
    match points_to_plot with
    | [] => Ok None
    | _ => p <- _make_plots_pics self opts step points_to_plot "modes_" ;;
           Ok (Some p)
    end = Ok plot /\
    (points_to_plot = [] -> plot = None).
Proof.
  intros Hgal. destruct points_to_plot as [|x pts].
  - exists None. split; [reflexivity | reflexivity].
  - destruct Hgal as [Hl|E]; [|discriminate]. unfold _make_plots_pics.
    rewrite (plot_auxiliary_none self Hl).
    destruct (string_in (dataset opts) _ && input_normalize_sym opts);
      simpl; eexists; (split; [reflexivity | discriminate]).
Qed.

Section EvaluatorFacts.

Variable classify : list R -> nat * R.
Variable split_channels : list R -> list R * list R * list R.
Variable split_width : list R -> list R * list R * list R.


Lemma classifier_input_nonempty (opts : Opts) (fake_points : batch) :
  fake_points <> [] -> classifier_input opts fake_points <> [].
Proof.
  unfold classifier_input, rescale_to_unit.
  destruct fake_points; [congruence|].
  destruct (input_normalize_sym opts); discriminate.
Qed.


(** What the single-label evaluator returns, when it returns, on a non-empty
    fake batch and a positive batch size: the statistics of the pointwise
    predictions. *)
Lemma evaluate_mnist_result (self : Metrics) (opts : Opts) (step : nat)
    (real_points fake_points : batch) (validation_fake_points : option batch)
    (prefix : string) (JS C C_actual conf : R) (plot : option plot_request) :
  fake_points <> [] -> (0 < tf_run_batch_size opts)%nat ->
  _evaluate_mnist classify self opts step real_points fake_points
    validation_fake_points prefix
  = Ok (JS, C, C_actual, conf, plot) ->
  (JS, C, C_actual)
  = mode_statistics 10 (predicted_digits classify opts fake_points)
      (confident_flags classify opts fake_points) /\
  conf = Np.mean (predicted_probs classify opts fake_points).
Proof.
  intros Hf Hbs. unfold _evaluate_mnist.
  destruct fake_points as [|x0 fake'] eqn:Efake; [congruence|].
  rewrite <- Efake in *. replace (length fake_points =? 0)%nat with false
    by (subst fake_points; reflexivity).
  fold (classifier_input opts fake_points).
  rewrite classify_mnist_pointwise
    by (assumption || now apply classifier_input_nonempty).
  simpl bind.
  fold (predicted_digits classify opts fake_points)
       (confident_flags classify opts fake_points)
       (predicted_probs classify opts fake_points).
  destruct (gather_modes (predicted_digits classify opts fake_points)
              (confident_flags classify opts fake_points) _ [] [])
    as [gathered points_to_plot].
  destruct (match points_to_plot with
            | [] => Ok None
            | _ => _
            end) as [plot'| |]; simpl bind; try discriminate.
  destruct (mode_statistics 10 _ _) as [[JS' C'] C_actual'].
  intros E. injection E as <- <- <- <- _. split; reflexivity.
Qed.

(** On a non-empty fake batch and a positive batch size the single-label
    evaluator returns, provided the gallery of modes is not asked for or the
    object holds no recorded losses; its statistics are those of the
    pointwise predictions. *)
Lemma evaluate_mnist_returns (self : Metrics) (opts : Opts) (step : nat)
    (real_points fake_points : batch) (validation_fake_points : option batch)
    (prefix : string) :
  fake_points <> [] -> (0 < tf_run_batch_size opts)%nat ->
  l2s self = None \/
  (forall c, In c (confident_flags classify opts fake_points) -> c = false) ->
  exists plot,
    _evaluate_mnist classify self opts step real_points fake_points
      validation_fake_points prefix
    = Ok (mode_statistics 10 (predicted_digits classify opts fake_points)
            (confident_flags classify opts fake_points),
          Np.mean (predicted_probs classify opts fake_points), plot) /\
    ((forall c, In c (confident_flags classify opts fake_points) -> c = false) ->
     plot = None).
Proof.
  intros Hf Hbs Hgal. unfold _evaluate_mnist.
  destruct fake_points as [|x0 fake'] eqn:Efake; [congruence|].
  rewrite <- Efake in *. replace (length fake_points =? 0)%nat with false
    by (subst fake_points; reflexivity).
  fold (classifier_input opts fake_points).
  rewrite classify_mnist_pointwise
    by (assumption || now apply classifier_input_nonempty).
  simpl bind.
  fold (predicted_digits classify opts fake_points)
       (confident_flags classify opts fake_points)
       (predicted_probs classify opts fake_points).
  destruct (gather_modes (predicted_digits classify opts fake_points)
              (confident_flags classify opts fake_points) _ [] [])
    as [gathered points_to_plot] eqn:Eg.
  assert (Hgal' : l2s self = None \/ points_to_plot = []).
  { destruct Hgal as [Hl|Hall]; [now left | right].
    rewrite gather_modes_none in Eg by exact Hall. now injection Eg as _ <-. }
  destruct (modes_plot_ok self opts step points_to_plot Hgal')
    as (plot & -> & Hnone).
  simpl bind.
  destruct (mode_statistics 10 _ _) as [[JS C] C_actual].
  exists plot. split; [reflexivity|].
  intros Hall. apply Hnone. rewrite gather_modes_none in Eg by exact Hall.
  now injection Eg as _ <-.
Qed.


Lemma classify_loop3_spec (opts : Opts) (fake_points : batch)
    (idxs : list nat) (r : list (list nat)) (p : list (list (R * R * R)))
    (c : list (list bool)) :
  classify_loop3 classify split_channels split_width opts fake_points idxs
    (r, p, c)
  = (r ++ map (fun idx => map (composite_label classify split_channels split_width opts)
                            (chunk fake_points (tf_run_batch_size opts) idx)) idxs,
     p ++ map (fun idx => map (sub_probs classify split_channels split_width opts)
                            (chunk fake_points (tf_run_batch_size opts) idx)) idxs,
     c ++ map (fun idx => map (all_confident classify split_channels split_width opts)
                            (chunk fake_points (tf_run_batch_size opts) idx)) idxs).
Proof.
  revert r p c. induction idxs as [|idx idxs IH]; intros r p c; simpl.
  - now rewrite !app_nil_r.
  - rewrite !map_map, !map3_map, IH, <- !app_assoc. reflexivity.
Qed.

Lemma classify_mnist3_pointwise (opts : Opts) (fake_points : batch) :
  (0 < tf_run_batch_size opts)%nat -> fake_points <> [] ->
  classify_mnist3 classify split_channels split_width opts fake_points
  = Ok (map (composite_label classify split_channels split_width opts) fake_points,
        map (sub_probs classify split_channels split_width opts) fake_points,
        map (all_confident classify split_channels split_width opts) fake_points).
Proof.
  intros Hbs Hf. unfold classify_mnist3, batches_num.
  destruct (tf_run_batch_size opts) as [|bs'] eqn:Ebs; [lia|].
  simpl bind. rewrite classify_loop3_spec. simpl app. rewrite Ebs.
  rewrite !hstack_chunks by (assumption || lia). simpl bind.
  rewrite !length_map, Nat.eqb_refl. reflexivity.
Qed.

Lemma evaluate_mnist3_returns (self : Metrics) (opts : Opts) (step : nat)
    (real_points fake_points : batch) (validation_fake_points : option batch)
    (prefix : string) :
  fake_points <> [] -> (0 < tf_run_batch_size opts)%nat ->
  l2s self = None \/
  (forall c, In c (map (all_confident classify split_channels split_width opts)
                     (classifier_input opts fake_points)) -> c = false) ->
  exists plot,
    _evaluate_mnist3 classify split_channels split_width self opts step
      real_points fake_points validation_fake_points prefix
    = Ok (mode_statistics 1000
            (map (composite_label classify split_channels split_width opts)
               (classifier_input opts fake_points))
            (map (all_confident classify split_channels split_width opts)
               (classifier_input opts fake_points)),
          mean3 (map (sub_probs classify split_channels split_width opts)
                   (classifier_input opts fake_points)),
          plot) /\
    ((forall c, In c (map (all_confident classify split_channels split_width opts)
                        (classifier_input opts fake_points)) -> c = false) ->
     plot = None).
Proof.
  intros Hf Hbs Hgal. unfold _evaluate_mnist3.
  destruct fake_points as [|x0 fake'] eqn:Efake; [congruence|].
  rewrite <- Efake in *. replace (length fake_points =? 0)%nat with false
    by (subst fake_points; reflexivity).
  fold (classifier_input opts fake_points).
  rewrite classify_mnist3_pointwise
    by (assumption || now apply classifier_input_nonempty).
  simpl bind.
  destruct (gather_modes _ _ _ [] []) as [gathered points_to_plot] eqn:Eg.
  assert (Hgal' : l2s self = None \/ points_to_plot = []).
  { destruct Hgal as [Hl|Hall]; [now left | right].
    rewrite gather_modes_none in Eg by exact Hall. now injection Eg as _ <-. }
  destruct (modes_plot_ok self opts step points_to_plot Hgal')
    as (plot & -> & Hnone).
  simpl bind.
  destruct (mode_statistics 1000 _ _) as [[JS C] C_actual].
  exists plot. split; [reflexivity|].
  intros Hall. apply Hnone. rewrite gather_modes_none in Eg by exact Hall.
  now injection Eg as _ <-.
Qed.

End EvaluatorFacts.

(** ** The dispatcher *)

Lemma string_in_false (s : string) (l : list string) :
  ~ In s l -> forall t, In t l -> String.eqb s t = false.
Proof.
  intros H t Ht. apply String.eqb_neq. intros ->. contradiction.
Qed.

(** C8.  For a dataset kind outside gmm, circle_gmm, mnist and mnist3 the
    dispatcher returns [None]: no error, no metric, no picture, whatever the
    batches are. *)
Theorem evaluate_unsupported_kind_returns_none
    (classify : list R -> nat * R)
    (split_channels split_width : list R -> list R * list R * list R)
    (self : Metrics) (opts : Opts) (step : nat)
    (real_points fake_points : batch) (validation_fake_points : option batch)
    (prefix : string) :
  ~ In (dataset opts) supported_kinds ->
  evaluate classify split_channels split_width self opts step real_points
    fake_points validation_fake_points prefix
  = Ok (None, None).
Proof.
  intros H. unfold evaluate.
  rewrite !(string_in_false _ _ H) by (unfold supported_kinds; simpl; tauto).
  reflexivity.
Qed.

Lemma evaluate_unsupported_kind_returns_none_witness :
  ~ In (dataset cifar10_opts) supported_kinds /\
  evaluate pixel_classify thirds thirds no_aux cifar10_opts 0 [[0]] unit_fake
    None EmptyString
  = Ok (None, None).
Proof.
  assert (H : ~ In (dataset cifar10_opts) supported_kinds).
  { unfold supported_kinds. simpl. intros [E|[E|[E|[E|[]]]]]; discriminate. }
  split; [exact H|].
  apply (evaluate_unsupported_kind_returns_none pixel_classify thirds thirds
           no_aux cifar10_opts 0 [[0]] unit_fake None EmptyString H).
Defined.

Lemma select_bandwidth_empty (validation_fake_points : option batch) :
  select_bandwidth [] validation_fake_points = Ok None
  \/ select_bandwidth [] validation_fake_points = Raise ValueError.
Proof.
  destruct validation_fake_points; [right | left]; reflexivity.
Qed.

Lemma evaluate_vec_core_empty (real_points : batch)
    (validation_fake_points : option batch) :
  _evaluate_vec_core real_points [] validation_fake_points = Raise ValueError.
Proof.
  unfold _evaluate_vec_core.
  destruct (select_bandwidth_empty validation_fake_points) as [-> | ->];
    reflexivity.
Qed.

(** C7, as amended.  For the four supported dataset kinds an empty fake batch
    makes the call raise, and no metric is returned: the discrete evaluators
    fail at once on their leading assertion; the continuous evaluator has no
    such check and fails when the empty batch is reshaped for the density
    fit. *)
Theorem evaluate_empty_fake_supported_kind_raises
    (classify : list R -> nat * R)
    (split_channels split_width : list R -> list R * list R * list R)
    (self : Metrics) (opts : Opts) (step : nat) (real_points : batch)
    (validation_fake_points : option batch) (prefix : string) :
  In (dataset opts) supported_kinds ->
  evaluate classify split_channels split_width self opts step real_points
    [] validation_fake_points prefix
  = Raise (if string_in (dataset opts) ["gmm"; "circle_gmm"]%string
           then ValueError
           else AssertionError "No fake digits to evaluate").
Proof.
  unfold supported_kinds. simpl.
  intros [E|[E|[E|[E|[]]]]]; unfold evaluate, string_in; rewrite <- E; simpl;
    unfold _evaluate_vec; rewrite ?evaluate_vec_core_empty; reflexivity.
Qed.

Lemma evaluate_empty_fake_supported_kind_raises_witness :
  In (dataset mnist_opts) supported_kinds /\
  evaluate pixel_classify thirds thirds no_aux mnist_opts 0 [[0]] [] None
    EmptyString
  = Raise (if string_in (dataset mnist_opts) ["gmm"; "circle_gmm"]%string
           then ValueError
           else AssertionError "No fake digits to evaluate").
Proof.
  assert (H : In (dataset mnist_opts) supported_kinds).
  { unfold supported_kinds. simpl. tauto. }
  split; [exact H|].
  apply (evaluate_empty_fake_supported_kind_raises pixel_classify thirds thirds
           no_aux mnist_opts 0 [[0]] None EmptyString H).
Defined.

(** C7 fails as stated: for a dataset kind the dispatcher does not know, an
    empty fake batch is answered with [None], not with an error. *)
Lemma evaluate_empty_fake_unsupported_kind_returns :
  evaluate pixel_classify thirds thirds no_aux guitars_opts 0 [[0]] [] None
    EmptyString
  = Ok (None, None) /\
  ~ raises (evaluate pixel_classify thirds thirds no_aux guitars_opts 0 [[0]]
              [] None EmptyString).
Proof.
  assert (E : evaluate pixel_classify thirds thirds no_aux guitars_opts 0
                [[0]] [] None EmptyString = Ok (None, None)) by reflexivity.
  split; [exact E|]. rewrite E. intros [e He]. discriminate.
Qed.

(** ** What the discrete evaluators read from the object *)

Lemma gather_modes_grows (digits : list nat) (flags : list bool)
    (fake_points : batch) (gathered : list nat) (points_to_plot : batch) :
  length gathered = length points_to_plot ->
  let r := gather_modes digits flags fake_points gathered points_to_plot in
  length (fst r) = length (snd r) /\
  (length points_to_plot <= length (snd r))%nat.
Proof.
  revert flags fake_points gathered points_to_plot.
  induction digits as [|d digits IH]; intros [|c flags] [|x fake] g pts Hlen;
    simpl; try (split; [exact Hlen | lia]).
  destruct (negb (existsb (Nat.eqb d) g) && c).
  - destruct (IH flags fake (g ++ [d]) (pts ++ [x])) as [H1 H2].
    + rewrite !length_app. simpl. lia.
    + split; [exact H1|]. rewrite length_app in H2. simpl in H2. lia.
  - now apply IH.
Qed.

Lemma gather_modes_finds (digits : list nat) (flags : list bool)
    (fake_points : batch) (gathered : list nat) (points_to_plot : batch) :
  length digits = length flags -> length digits = length fake_points ->
  length gathered = length points_to_plot ->
  In true flags ->
  snd (gather_modes digits flags fake_points gathered points_to_plot) <> [].
Proof.
  revert flags fake_points gathered points_to_plot.
  induction digits as [|d digits IH]; intros [|c flags] [|x fake] g pts Hf Hp Hlen Hin;
    simpl in *; try discriminate; try contradiction.
  destruct (existsb (Nat.eqb d) g) eqn:Eex; simpl.
  - destruct Hin as [->|Hin].
    + destruct (gather_modes_grows digits flags fake g pts Hlen) as [_ Hge].
      apply existsb_exists in Eex. destruct Eex as (d' & Hd' & _).
      assert (Hg : (0 < length g)%nat) by (destruct g; [destruct Hd' | simpl; lia]).
      intros E. rewrite E in Hge. simpl in Hge. lia.
    + apply IH; auto.
  - destruct c.
    + destruct (gather_modes_grows digits flags fake (g ++ [d]) (pts ++ [x]))
        as [_ Hge].
      * rewrite !length_app. simpl. lia.
      * rewrite length_app in Hge. simpl in Hge.
        intros E. rewrite E in Hge. simpl in Hge. lia.
    + destruct Hin as [Hin|Hin]; [discriminate|]. apply IH; auto.
Qed.

(** Unlike the continuous evaluator, the single-label evaluator depends on
    the state of the object: with a confident prediction it asks for the
    gallery of modes, whose auxiliary plot takes the minimum of the recorded
    losses; on an object with an empty list of losses the call raises before
    any statistic is computed. *)
Lemma evaluate_mnist_raises_on_empty_losses (classify : list R -> nat * R)
    (self : Metrics) (opts : Opts) (step : nat)
    (real_points fake_points : batch) (validation_fake_points : option batch)
    (prefix : string) :
  fake_points <> [] -> (0 < tf_run_batch_size opts)%nat ->
  In true (confident_flags classify opts fake_points) ->
  l2s self = Some [] ->
  _evaluate_mnist classify self opts step real_points fake_points
    validation_fake_points prefix
  = Raise ValueError.
Proof.
  intros Hf Hbs Hconf Hl. unfold _evaluate_mnist.
  destruct fake_points as [|x0 fake'] eqn:Efake; [congruence|].
  rewrite <- Efake in *. replace (length fake_points =? 0)%nat with false
    by (subst fake_points; reflexivity).
  fold (classifier_input opts fake_points).
  rewrite classify_mnist_pointwise
    by (assumption || now apply classifier_input_nonempty).
  simpl bind.
  fold (predicted_digits classify opts fake_points)
       (confident_flags classify opts fake_points)
       (predicted_probs classify opts fake_points).
  set (shown := if input_normalize_sym opts
                then rescale_to_sym (classifier_input opts fake_points)
                else classifier_input opts fake_points).
  assert (Hshown : length shown = length (classifier_input opts fake_points)).
  { unfold shown, rescale_to_sym. destruct (input_normalize_sym opts);
      [apply length_map | reflexivity]. }
  assert (Hne := gather_modes_finds
            (predicted_digits classify opts fake_points)
            (confident_flags classify opts fake_points) shown [] []).
  destruct (gather_modes _ _ shown [] []) as [gathered points_to_plot].
  simpl in Hne.
  assert (Hpts : points_to_plot <> []).
  { apply Hne; auto; unfold predicted_digits, confident_flags;
      rewrite ?length_map; auto. }
  destruct points_to_plot as [|y pts]; [congruence|].
  unfold _make_plots_pics, plot_auxiliary. rewrite Hl.
  destruct (string_in (dataset opts) _ && input_normalize_sym opts);
    reflexivity.
Qed.

(** ** Purity of the continuous evaluator *)

Lemma extends_refl (s : Store) : extends s s.
Proof. split; [exists []; now rewrite app_nil_r | reflexivity]. Qed.

Lemma extends_trans (s1 s2 s3 : Store) :
  extends s1 s2 -> extends s2 s3 -> extends s1 s3.
Proof.
  intros [[m1 H1] E1] [[m2 H2] E2]. split.
  - exists (m1 ++ m2). rewrite H2, H1. now rewrite app_assoc.
  - congruence.
Qed.

Lemma extends_grow (s : Store) (o : object) : extends s (grow s o).
Proof. split; [now exists [o] | reflexivity]. Qed.

Lemma extends_allocated (s s' : Store) (l : nat) :
  extends s s' -> allocated s l -> allocated s' l.
Proof.
  intros [[m H] _] Hl. unfold allocated in *. rewrite H, length_app. lia.
Qed.

Lemma extends_nth (s s' : Store) (l : nat) :
  extends s s' -> allocated s l ->
  nth l (heap s') (Floats1 []) = nth l (heap s) (Floats1 []).
Proof.
  intros [[m H] _] Hl. rewrite H. now apply app_nth1.
Qed.

Lemma extends_batch_at (s s' : Store) (l : nat) :
  extends s s' -> allocated s l -> batch_at s' l = batch_at s l.
Proof. intros H Hl. unfold batch_at. now rewrite (extends_nth s s' l). Qed.

(** What existed before is still there, unchanged. *)
Lemma extends_firstn (s s' : Store) :
  extends s s' -> firstn (length (heap s)) (heap s') = heap s.
Proof.
  intros [[m H] _]. rewrite H, firstn_app, Nat.sub_diag, firstn_all.
  simpl. now rewrite app_nil_r.
Qed.

Lemma allocated_grow (s : Store) (o : object) (l : nat) :
  allocated s l -> allocated (grow s o) l.
Proof. apply extends_allocated, extends_grow. Qed.

Lemma allocated_fresh (s : Store) (o : object) :
  allocated (grow s o) (length (heap s)).
Proof. unfold allocated, grow. simpl. rewrite length_app. simpl. lia. Qed.

Lemma nth_fresh (s : Store) (o : object) :
  nth (length (heap s)) (heap (grow s o)) (Floats1 []) = o.
Proof. unfold grow. simpl. apply nth_middle. Qed.

Lemma batch_at_grow (s : Store) (o : object) (l : nat) :
  allocated s l -> batch_at (grow s o) l = batch_at s l.
Proof. apply extends_batch_at, extends_grow. Qed.

Lemma batch_at_fresh (s : Store) (b : batch) :
  batch_at (grow s (Floats2 b)) (length (heap s)) = b.
Proof. unfold batch_at. now rewrite nth_fresh. Qed.

Lemma floats_at_grow (s : Store) (o : object) (l : nat) :
  allocated s l -> floats_at (grow s o) l = floats_at s l.
Proof.
  intros Hl. unfold floats_at.
  now rewrite (extends_nth s (grow s o) l (extends_grow s o) Hl).
Qed.

Lemma floats_at_fresh (s : Store) (a : list R) :
  floats_at (grow s (Floats1 a)) (length (heap s)) = a.
Proof. unfold floats_at. now rewrite nth_fresh. Qed.

Lemma bools_at_fresh (s : Store) (a : list bool) :
  bools_at (grow s (Bools a)) (length (heap s)) = a.
Proof. unfold bools_at. now rewrite nth_fresh. Qed.

Lemma estimator_at_grow (s : Store) (o : object) (l : nat) :
  allocated s l -> estimator_at (grow s o) l = estimator_at s l.
Proof.
  intros Hl. unfold estimator_at.
  now rewrite (extends_nth s (grow s o) l (extends_grow s o) Hl).
Qed.

Lemma estimator_at_fresh (s : Store) (h : R) (X : batch) :
  estimator_at (grow s (Estimator h X)) (length (heap s)) = (h, X).
Proof. unfold estimator_at. now rewrite nth_fresh. Qed.

(** *** Statements that change nothing of what existed *)

Lemma frame_ret {A : Type} (a : A) : frame (ret a).
Proof. intros s. apply extends_refl. Qed.

Lemma frame_lift {A : Type} (r : outcome A) : frame (lift r).
Proof. intros s. apply extends_refl. Qed.

Lemma frame_alloc (o : object) : frame (alloc o).
Proof. intros s. apply extends_grow. Qed.

Lemma frame_read_batch (l : nat) : frame (read_batch l).
Proof. intros s. apply extends_refl. Qed.

Lemma frame_read_floats (l : nat) : frame (read_floats l).
Proof. intros s. apply extends_refl. Qed.

Lemma frame_read_bools (l : nat) : frame (read_bools l).
Proof. intros s. apply extends_refl. Qed.

Lemma frame_read_estimator (l : nat) : frame (read_estimator l).
Proof. intros s. apply extends_refl. Qed.

Lemma frame_bind {A B : Type} (m : action A) (k : A -> action B) :
  frame m -> (forall a, frame (k a)) -> frame (bind_action m k).
Proof.
  intros Hm Hk s. unfold bind_action.
  specialize (Hm s). destruct (m s) as [[a|e|] s1]; simpl in *.
  - eapply extends_trans; [exact Hm | apply Hk].
  - exact Hm.
  - exact Hm.
Qed.

(** Writing into an array that exists is what a frame excludes. *)
Lemma write_is_no_frame (l : nat) (o : object) (s : Store) :
  allocated s l -> nth l (heap s) (Floats1 []) <> o ->
  ~ extends s (snd (write l o s)).
Proof.
  intros Hl Hne Hext. apply Hne.
  rewrite <- (extends_nth s _ l Hext Hl). unfold write. simpl.
  unfold allocated in Hl.
  rewrite app_nth2 by (rewrite length_firstn; lia).
  rewrite length_firstn, Nat.min_l by lia. now rewrite Nat.sub_diag.
Qed.

Ltac frame_step :=
  first
    [ apply frame_ret | apply frame_lift | apply frame_alloc
    | apply frame_read_batch | apply frame_read_floats
    | apply frame_read_bools | apply frame_read_estimator
    | apply frame_bind; [|intros ?] ].

Lemma frame_reshape_at (l : nat) : frame (reshape_at l).
Proof. unfold reshape_at. repeat frame_step. Qed.

Lemma frame_grid_loop (fake_points validation : nat) (grid : list R)
    (st : R * R) :
  frame (grid_loop fake_points validation grid st).
Proof.
  revert st. induction grid as [|g grid IH]; intros st; simpl.
  - apply frame_ret.
  - repeat first [apply frame_reshape_at | apply IH | frame_step].
Qed.

Lemma frame_bandwidth_search (fake_points : nat)
    (validation_fake_points : option nat) (dist : nat) :
  frame (bandwidth_search fake_points validation_fake_points dist).
Proof.
  unfold bandwidth_search. apply frame_bind; [apply frame_read_floats|].
  intros d. destruct (Np.median d), validation_fake_points;
    repeat first [apply frame_reshape_at | apply frame_grid_loop | frame_step].
Qed.

Lemma frame_density_statistics (real_points fake_points : nat)
    (b : option R) :
  frame (density_statistics real_points fake_points b).
Proof.
  unfold density_statistics. destruct b;
    repeat first [apply frame_reshape_at | frame_step].
Qed.

(** The statements of the continuous evaluator only read and build: they
    change nothing of what existed before the call. *)
Lemma frame_call_evaluate_vec (opts : Opts) (step : nat) (prefix : string)
    (real_points fake_points : nat) (validation_fake_points : option nat) :
  frame (call_evaluate_vec opts step prefix real_points fake_points
           validation_fake_points).
Proof.
  unfold call_evaluate_vec.
  repeat first
    [ apply frame_bandwidth_search | apply frame_density_statistics
    | frame_step ].
Qed.

(** *** The result of the statements *)

Lemma run_bind {A B : Type} (m : action A) (k : A -> action B) (s s' : Store)
    (r : outcome A) :
  m s = (r, s') ->
  bind_action m k s
  = match r with
    | Ok a => k a s'
    | Raise e => (Raise e, s')
    | NanResult => (NanResult, s')
    end.
Proof. intros E. unfold bind_action. rewrite E. now destruct r. Qed.

Lemma run_read_batch {B : Type} (l : nat) (k : batch -> action B) (s : Store) :
  bind_action (read_batch l) k s = k (batch_at s l) s.
Proof. reflexivity. Qed.

Lemma run_read_floats {B : Type} (l : nat) (k : list R -> action B)
    (s : Store) :
  bind_action (read_floats l) k s = k (floats_at s l) s.
Proof. reflexivity. Qed.

Lemma run_read_bools {B : Type} (l : nat) (k : list bool -> action B)
    (s : Store) :
  bind_action (read_bools l) k s = k (bools_at s l) s.
Proof. reflexivity. Qed.

Lemma run_read_estimator {B : Type} (l : nat) (k : R * batch -> action B)
    (s : Store) :
  bind_action (read_estimator l) k s = k (estimator_at s l) s.
Proof. reflexivity. Qed.

Lemma run_alloc {B : Type} (o : object) (k : nat -> action B) (s : Store) :
  bind_action (alloc o) k s = k (length (heap s)) (grow s o).
Proof. reflexivity. Qed.

Lemma run_lift {A B : Type} (r : outcome A) (k : A -> action B) (s : Store) :
  bind_action (lift r) k s
  = match r with
    | Ok a => k a s
    | Raise e => (Raise e, s)
    | NanResult => (NanResult, s)
    end.
Proof. unfold bind_action, lift. now destruct r. Qed.

Lemma run_reshape_at {B : Type} (l : nat) (k : batch -> action B) (s : Store) :
  bind_action (reshape_at l) k s
  = match reshape_rows (batch_at s l) with
    | Ok a => k a s
    | Raise e => (Raise e, s)
    | NanResult => (NanResult, s)
    end.
Proof.
  unfold reshape_at, bind_action, read_batch, lift.
  now destruct (reshape_rows (batch_at s l)).
Qed.

Lemma map_map2 {A B C D : Type} (f : C -> D) (g : A -> B -> C)
    (l1 : list A) (l2 : list B) :
  map f (map2 g l1 l2) = map2 (fun a b => f (g a b)) l1 l2.
Proof.
  revert l2. induction l1 as [|x l1 IH]; intros [|y l2]; simpl; auto.
  now rewrite IH.
Qed.

(** The three statements of lines 111-113 compute the distances between
    consecutive fake points. *)
Lemma consecutive_dist_steps (fp : batch) :
  map (fun row => sqrt (Np.sum row))
    (map (map (fun v => v * v)) (map2 (map2 Rminus) (removelast fp) (tl fp)))
  = consecutive_dist fp.
Proof.
  unfold consecutive_dist. rewrite map_map, map_map2. reflexivity.
Qed.

Lemma grid_loop_result (fake_points validation : nat) (grid : list R)
    (st : R * R) (s : Store) :
  allocated s fake_points -> allocated s validation ->
  fst (grid_loop fake_points validation grid st s)
  = grid_search (batch_at s fake_points) (batch_at s validation) grid st.
Proof.
  revert st s. induction grid as [|g grid IH]; intros st s Hf Hv.
  - reflexivity.
  - cbn [grid_loop grid_search].
    rewrite run_lift. destruct (KDE.init g) as [h| |]; cbn [bind]; try reflexivity.
    rewrite run_reshape_at.
    destruct (reshape_rows (batch_at s fake_points)) as [X| |];
      cbn [bind]; try reflexivity.
    rewrite run_alloc, run_reshape_at.
    rewrite (batch_at_grow s _ validation Hv).
    destruct (reshape_rows (batch_at s validation)) as [V| |];
      cbn [bind]; try reflexivity.
    rewrite run_read_estimator, estimator_at_fresh. cbn [fst snd].
    rewrite run_alloc, run_read_floats.
    rewrite floats_at_fresh.
    rewrite IH by (repeat apply allocated_grow; assumption).
    rewrite !batch_at_grow by (repeat apply allocated_grow; assumption).
    reflexivity.
Qed.

Lemma bandwidth_search_result (fake_points : nat)
    (validation_fake_points : option nat) (dist : nat) (s : Store) :
  allocated s fake_points ->
  (forall v, validation_fake_points = Some v -> allocated s v) ->
  floats_at s dist = consecutive_dist (batch_at s fake_points) ->
  fst (bandwidth_search fake_points validation_fake_points dist s)
  = select_bandwidth (batch_at s fake_points)
      (option_map (batch_at s) validation_fake_points).
Proof.
  intros Hf Hv Hd. unfold bandwidth_search, select_bandwidth.
  rewrite run_read_floats, Hd.
  destruct (Np.median (consecutive_dist (batch_at s fake_points)))
    as [bandwidth|];
    destruct validation_fake_points as [v|]; cbn [option_map];
    try reflexivity.
  - assert (Hav : allocated s v) by now apply Hv.
    pose proof (grid_loop_result fake_points v (b_grid bandwidth)
                  (bandwidth, -1000000) s Hf Hav) as E.
    destruct (grid_loop fake_points v (b_grid bandwidth)
                (bandwidth, -1000000) s) as [r s'] eqn:Er.
    rewrite (run_bind _ _ s s' r Er). cbn [fst] in E. rewrite <- E.
    now destruct r.
  - rewrite run_reshape_at.
    destruct (reshape_rows (batch_at s fake_points)); cbn [bind];
      try reflexivity.
    rewrite run_reshape_at.
    now destruct (reshape_rows (batch_at s v)).
Qed.

Lemma density_statistics_result (real_points fake_points : nat)
    (b : option R) (s : Store) :
  allocated s real_points -> allocated s fake_points ->
  fst (density_statistics real_points fake_points b s)
  = match b with
    | Some bandwidth =>
        h <- KDE.init bandwidth ;;
        X <- reshape_rows (batch_at s fake_points) ;;
        let model_log_density := KDE.score_samples h X X in
        let threshold := Np.percentile model_log_density 5 in
        Rp <- reshape_rows (batch_at s real_points) ;;
        let real_points_log_density := KDE.score_samples h X Rp in
        let ratio_not_covered :=
          Np.mean_bool (map (fun v => Rleb v threshold) real_points_log_density) in
        let log_p := Np.mean real_points_log_density in
        let C := 1 - ratio_not_covered in
        Ok (log_p, C)
    | None =>
        _ <- reshape_rows (batch_at s fake_points) ;;
        _ <- reshape_rows (batch_at s real_points) ;;
        NanResult
    end.
Proof.
  intros Hr Hf. unfold density_statistics. destruct b as [bandwidth|].
  - rewrite run_lift. destruct (KDE.init bandwidth) as [h| |]; cbn [bind];
      try reflexivity.
    rewrite run_reshape_at.
    destruct (reshape_rows (batch_at s fake_points)) as [X| |] eqn:EX;
      cbn [bind]; try reflexivity.
    rewrite run_alloc, run_reshape_at.
    rewrite (batch_at_grow s _ fake_points Hf), EX.
    rewrite run_read_estimator, estimator_at_fresh. cbn [fst snd].
    rewrite run_alloc, run_read_floats, floats_at_fresh.
    rewrite run_reshape_at.
    rewrite !batch_at_grow by (repeat apply allocated_grow; assumption).
    destruct (reshape_rows (batch_at s real_points)) as [Rp| |];
      cbn [bind]; try reflexivity.
    rewrite run_read_estimator.
    rewrite estimator_at_grow by apply allocated_fresh.
    rewrite estimator_at_fresh. cbn [fst snd].
    rewrite run_alloc, run_read_floats, floats_at_fresh.
    rewrite run_alloc, run_read_bools, bools_at_fresh.
    rewrite run_read_floats.
    rewrite floats_at_grow by apply allocated_fresh.
    rewrite floats_at_fresh. reflexivity.
  - rewrite run_reshape_at.
    destruct (reshape_rows (batch_at s fake_points)); cbn [bind];
      try reflexivity.
    rewrite run_reshape_at.
    now destruct (reshape_rows (batch_at s real_points)).
Qed.

(** The statements compute what the evaluator returns on the arrays behind
    its arguments. *)
Lemma call_evaluate_vec_result (opts : Opts) (step : nat) (prefix : string)
    (real_points fake_points : nat) (validation_fake_points : option nat)
    (s : Store) :
  allocated s real_points -> allocated s fake_points ->
  (forall v, validation_fake_points = Some v -> allocated s v) ->
  fst (call_evaluate_vec opts step prefix real_points fake_points
         validation_fake_points s)
  = _evaluate_vec (self_obj s) opts step (batch_at s real_points)
      (batch_at s fake_points)
      (option_map (batch_at s) validation_fake_points) prefix.
Proof.
  intros Hr Hf Hv. unfold call_evaluate_vec, _evaluate_vec, _evaluate_vec_core.
  rewrite run_read_batch, run_alloc, run_read_batch, batch_at_fresh.
  rewrite run_alloc, run_read_batch, batch_at_fresh, run_alloc.
  set (s3 := grow (grow (grow s _) _) _).
  assert (Hext : extends s s3).
  { unfold s3. repeat (eapply extends_trans; [|apply extends_grow]).
    apply extends_refl. }
  assert (Hd : floats_at s3 (length (heap (grow (grow s
                 (Floats2 (map2 (map2 Rminus) (removelast (batch_at s fake_points))
                             (tl (batch_at s fake_points)))))
                 (Floats2 (map (map (fun v => v * v))
                             (map2 (map2 Rminus) (removelast (batch_at s fake_points))
                                (tl (batch_at s fake_points))))))))
              = consecutive_dist (batch_at s3 fake_points)).
  { unfold s3. rewrite floats_at_fresh, consecutive_dist_steps.
    now rewrite !batch_at_grow by (repeat apply allocated_grow; assumption). }
  pose proof (bandwidth_search_result fake_points validation_fake_points _ s3
                (extends_allocated _ _ _ Hext Hf)
                (fun v E => extends_allocated _ _ _ Hext (Hv v E)) Hd) as Eb.
  pose proof (frame_bandwidth_search fake_points validation_fake_points
                (length (heap (grow (grow s
                 (Floats2 (map2 (map2 Rminus) (removelast (batch_at s fake_points))
                             (tl (batch_at s fake_points)))))
                 (Floats2 (map (map (fun v => v * v))
                             (map2 (map2 Rminus) (removelast (batch_at s fake_points))
                                (tl (batch_at s fake_points)))))))) s3) as Hext4.
  destruct (bandwidth_search fake_points validation_fake_points _ s3)
    as [rb s4] eqn:Erb.
  rewrite (run_bind _ _ s3 s4 rb Erb).
  cbn [fst snd] in Eb, Hext4.
  assert (Hext' : extends s s4) by (eapply extends_trans; eassumption).
  assert (Eval : option_map (batch_at s3) validation_fake_points
                 = option_map (batch_at s) validation_fake_points).
  { destruct validation_fake_points as [v|]; [|reflexivity]. cbn [option_map].
    f_equal. apply extends_batch_at; [exact Hext | now apply Hv]. }
  rewrite (extends_batch_at s s3 fake_points Hext Hf), Eval in Eb.
  rewrite <- Eb. destruct rb as [b| |]; cbn [bind fst]; try reflexivity.
  rewrite density_statistics_result
    by (eapply extends_allocated; eassumption).
  rewrite (extends_batch_at s s4 fake_points Hext' Hf).
  rewrite (extends_batch_at s s4 real_points Hext' Hr).
  reflexivity.
Qed.

(** C9.  A call of the continuous evaluator, run statement by statement on a
    store that holds the argument arrays and the object: its result is the
    value of the evaluator on the arrays behind its arguments, whatever the
    state of the object; everything that existed before the call, the
    argument arrays among it, is unchanged after it and the object is in the
    same state; a call with equal arrays in any other store gives an equal
    result; and a call gives the same result after an earlier call as
    without it (nothing, in particular no bandwidth, is carried over). *)
Theorem evaluate_vec_is_pure (opts : Opts) (step : nat) (prefix : string)
    (real_points fake_points : nat) (validation_fake_points : option nat)
    (s : Store) :
  allocated s real_points -> allocated s fake_points ->
  (forall v, validation_fake_points = Some v -> allocated s v) ->
  let call :=
    call_evaluate_vec opts step prefix real_points fake_points
      validation_fake_points in
  fst (call s)
  = _evaluate_vec (self_obj s) opts step (batch_at s real_points)
      (batch_at s fake_points)
      (option_map (batch_at s) validation_fake_points) prefix /\
  firstn (length (heap s)) (heap (snd (call s))) = heap s /\
  self_obj (snd (call s)) = self_obj s /\
  (forall s2 real2 fake2 validation2,
     allocated s2 real2 -> allocated s2 fake2 ->
     (forall v, validation2 = Some v -> allocated s2 v) ->
     batch_at s2 real2 = batch_at s real_points ->
     batch_at s2 fake2 = batch_at s fake_points ->
     option_map (batch_at s2) validation2
     = option_map (batch_at s) validation_fake_points ->
     fst (call_evaluate_vec opts step prefix real2 fake2 validation2 s2)
     = fst (call s)) /\
  (forall opts1 step1 prefix1 real1 fake1 validation1,
     allocated s real1 -> allocated s fake1 ->
     (forall v, validation1 = Some v -> allocated s v) ->
     fst (call (snd (call_evaluate_vec opts1 step1 prefix1 real1 fake1
                       validation1 s)))
     = fst (call s)).
Proof.
  intros Hr Hf Hv call.
  assert (Hres := call_evaluate_vec_result opts step prefix real_points
                    fake_points validation_fake_points s Hr Hf Hv).
  assert (Hframe := frame_call_evaluate_vec opts step prefix real_points
                      fake_points validation_fake_points s).
  fold call in Hres, Hframe.
  split; [exact Hres|].
  split; [now apply extends_firstn|].
  split; [exact (proj2 Hframe)|].
  split.
  - intros s2 real2 fake2 validation2 Hr2 Hf2 Hv2 Er Ef Ev.
    rewrite Hres.
    rewrite (call_evaluate_vec_result opts step prefix real2 fake2 validation2
               s2 Hr2 Hf2 Hv2).
    rewrite Er, Ef, Ev. reflexivity.
  - intros opts1 step1 prefix1 real1 fake1 validation1 Hr1 Hf1 Hv1.
    pose proof (frame_call_evaluate_vec opts1 step1 prefix1 real1 fake1
                  validation1 s) as Hext.
    set (s1 := snd (call_evaluate_vec opts1 step1 prefix1 real1 fake1
                      validation1 s)) in *.
    unfold call.
    rewrite (call_evaluate_vec_result opts step prefix real_points fake_points
               validation_fake_points s1)
      by (try (intros v E); eapply extends_allocated; eauto).
    fold call. rewrite Hres.
    rewrite (extends_batch_at s s1 real_points Hext Hr).
    rewrite (extends_batch_at s s1 fake_points Hext Hf).
    replace (option_map (batch_at s1) validation_fake_points)
      with (option_map (batch_at s) validation_fake_points).
    + reflexivity.
    + destruct validation_fake_points as [v|]; [|reflexivity].
      cbn [option_map]. f_equal. symmetry.
      apply extends_batch_at; [exact Hext | now apply Hv].
Qed.

Lemma evaluate_vec_is_pure_witness :
  let call := call_evaluate_vec gmm_opts 0 EmptyString 0 1 (Some 0%nat) in
  fst (call two_arrays)
  = _evaluate_vec (self_obj two_arrays) gmm_opts 0 (batch_at two_arrays 0)
      (batch_at two_arrays 1) (option_map (batch_at two_arrays) (Some 0%nat))
      EmptyString /\
  firstn (length (heap two_arrays)) (heap (snd (call two_arrays)))
  = heap two_arrays /\
  self_obj (snd (call two_arrays)) = self_obj two_arrays /\
  (forall s2 real2 fake2 validation2,
     allocated s2 real2 -> allocated s2 fake2 ->
     (forall v, validation2 = Some v -> allocated s2 v) ->
     batch_at s2 real2 = batch_at two_arrays 0 ->
     batch_at s2 fake2 = batch_at two_arrays 1 ->
     option_map (batch_at s2) validation2
     = option_map (batch_at two_arrays) (Some 0%nat) ->
     fst (call_evaluate_vec gmm_opts 0 EmptyString real2 fake2 validation2 s2)
     = fst (call two_arrays)) /\
  (forall opts1 step1 prefix1 real1 fake1 validation1,
     allocated two_arrays real1 -> allocated two_arrays fake1 ->
     (forall v, validation1 = Some v -> allocated two_arrays v) ->
     fst (call (snd (call_evaluate_vec opts1 step1 prefix1 real1 fake1
                       validation1 two_arrays)))
     = fst (call two_arrays)).
Proof.
  apply (evaluate_vec_is_pure gmm_opts 0 EmptyString 0 1 (Some 0%nat)
           two_arrays).
  - unfold allocated. simpl. lia.
  - unfold allocated. simpl. lia.
  - intros v E. injection E as <-. unfold allocated. simpl. lia.
Defined.

(** ** The sentinel for zero confident predictions *)





(** ** Composite labels *)

(** C6.  The composite evaluator labels each point with
    [100 * label1 + 10 * label2 + label3] of its three sub-images, classified
    one by one, and flags it confident exactly when all three confidences
    exceed the threshold; if every point shows (1, 2, 3), every composite
    label is 123. *)
Theorem composite_label_and_confidence
    (classify : list R -> nat * R)
    (split_channels split_width : list R -> list R * list R * list R)
    (opts : Opts) (fake_points : batch) :
  fake_points <> [] -> (0 < tf_run_batch_size opts)%nat ->
  exists digits probs flags,
    classify_mnist3 classify split_channels split_width opts fake_points
    = Ok (digits, probs, flags) /\
    length digits = length fake_points /\
    length flags = length fake_points /\
    (forall i x, nth_error fake_points i = Some x ->
       nth_error digits i
       = Some (100 * fst (classify (sub1 split_channels split_width opts x))
               + 10 * fst (classify (sub2 split_channels split_width opts x))
               + fst (classify (sub3 split_channels split_width opts x)))%nat /\
       exists c, nth_error flags i = Some c /\
         (c = true <->
          snd (classify (sub1 split_channels split_width opts x))
            > digit_classification_threshold opts /\
          snd (classify (sub2 split_channels split_width opts x))
            > digit_classification_threshold opts /\
          snd (classify (sub3 split_channels split_width opts x))
            > digit_classification_threshold opts)) /\
    ((forall x, In x fake_points ->
        fst (classify (sub1 split_channels split_width opts x)) = 1%nat /\
        fst (classify (sub2 split_channels split_width opts x)) = 2%nat /\
        fst (classify (sub3 split_channels split_width opts x)) = 3%nat) ->
     forall d, In d digits -> d = 123%nat).
Proof.
  intros Hf Hbs.
  exists (map (composite_label classify split_channels split_width opts) fake_points),
         (map (sub_probs classify split_channels split_width opts) fake_points),
         (map (all_confident classify split_channels split_width opts) fake_points).
  split; [now apply classify_mnist3_pointwise|].
  split; [apply length_map|]. split; [apply length_map|]. split.
  - intros i x Hi. split.
    + rewrite nth_error_map, Hi. reflexivity.
    + exists (all_confident classify split_channels split_width opts x). split.
      * rewrite nth_error_map, Hi. reflexivity.
      * unfold all_confident. rewrite !andb_true_iff, !Rgtb_true_iff. tauto.
  - intros H123 d Hd. apply in_map_iff in Hd. destruct Hd as (x & <- & Hx).
    unfold composite_label. destruct (H123 x Hx) as (-> & -> & ->). reflexivity.
Qed.

Lemma digit_of_tenths :
  digit_of (1 / 10) = 1%nat /\ digit_of (2 / 10) = 2%nat /\
  digit_of (3 / 10) = 3%nat.
Proof.
  unfold digit_of. simpl. decide_Rcmp. auto.
Qed.

Lemma composite_label_and_confidence_witness :
  exists digits,
    (exists probs flags,
       classify_mnist3 pixel_classify thirds thirds mnist3_opts triples_123
       = Ok (digits, probs, flags)) /\
    length digits = length triples_123 /\
    forall d, In d digits -> d = 123%nat.
Proof.
  destruct (composite_label_and_confidence pixel_classify thirds thirds
              mnist3_opts triples_123)
    as (digits & probs & flags & Hrun & Hlen & _ & _ & H123).
  - discriminate.
  - simpl; lia.
  - exists digits. split; [now exists probs, flags|]. split; [exact Hlen|].
    apply H123. destruct digit_of_tenths as (E1 & E2 & E3).
    intros x [<-|[<-|[]]]; unfold sub1, sub2, sub3, split3; simpl; auto.
Defined.

(** ** Histograms and coverage of the single-label evaluator *)

Lemma select_In {A : Type} (a : list A) (mask : list bool) (x : A) :
  In x (Np.select a mask) -> In x a.
Proof.
  revert mask. induction a as [|y a IH]; intros [|b mask]; simpl; try tauto.
  destruct b; simpl; intros H.
  - destruct H as [->|H]; [now left | right; eauto].
  - right; eauto.
Qed.

Lemma bincount_length (x : list nat) (m : nat) :
  (forall d, In d x -> (d < m)%nat) -> length (Np.bincount x m) = m.
Proof.
  intros H. unfold Np.bincount. rewrite length_map, length_seq.
  destruct x as [|d x]; [reflexivity|].
  assert (Hmax : (list_max (d :: x) < m)%nat).
  { apply list_max_lt; [discriminate|]. apply Forall_forall. exact H. }
  lia.
Qed.

Lemma histogram_length (x : list nat) (m : nat) :
  (forall d, In d x -> (d < m)%nat) -> length (histogram x m) = m.
Proof.
  intros H. unfold histogram. rewrite length_map. now apply bincount_length.
Qed.

Lemma mean_bool_lower (bs : list bool) :
  In true bs -> / INR (length bs) <= Np.mean_bool bs.
Proof.
  intros H. unfold Np.mean_bool.
  assert (Hc := count_true_pos bs H).
  assert (Hlen : (0 < length bs)%nat) by (destruct bs; [destruct H | simpl; lia]).
  apply lt_0_INR in Hlen. apply (le_INR 1) in Hc. simpl in Hc.
  unfold Rdiv. rewrite <- (Rmult_1_l (/ INR (length bs))) at 1.
  apply Rmult_le_compat_r; [left; now apply Rinv_0_lt_compat | exact Hc].
Qed.

(** At least one bin is not above the threshold: the smallest one. *)
Lemma percentile_covers_smallest (phat : list R) :
  phat <> [] ->
  In true (map (fun p => Rleb p (Np.percentile phat 5)) phat).
Proof.
  intros Hne. apply in_map_iff. exists (smallest phat). split.
  - apply Rleb_true_iff. apply smallest_le_percentile; [exact Hne | lia].
  - now apply smallest_In.
Qed.

Lemma mode_statistics_some (num_cat : nat) (digits : list nat)
    (flags : list bool) :
  In true flags ->
  mode_statistics num_cat digits flags
  = (js_div_uniform digits num_cat,
     1 - Np.mean_bool
           (map (fun p => Rleb p
                   (Np.percentile (histogram (Np.select digits flags) num_cat) 5))
              (histogram (Np.select digits flags) num_cat)),
     INR (Np.unique_count (Np.select digits flags)) / INR num_cat).
Proof.
  intros H. unfold mode_statistics, Np.sum_bool.
  assert (Hc := count_true_pos flags H).
  destruct (Np.count_true flags) as [|n]; [lia | reflexivity].
Qed.

(** C10.  In the single-label evaluator, with labels among the ten digits and
    at least one confident prediction, the histogram has 10 bins and its
    smallest bin is at most the 5th percentile taken as threshold; whatever
    the state of the object, every result that the evaluator returns has the
    coverage [1 - mean (phat <= threshold)], which is at most 0.9 and never
    1; and on an object without recorded losses the evaluator does
    return. *)
Theorem single_label_coverage_at_most_nine_tenths
    (classify : list R -> nat * R) (self : Metrics) (opts : Opts) (step : nat)
    (real_points fake_points : batch) (validation_fake_points : option batch)
    (prefix : string) :
  fake_points <> [] -> (0 < tf_run_batch_size opts)%nat ->
  (forall x, In x (classifier_input opts fake_points) ->
     (fst (classify x) < 10)%nat) ->
  In true (confident_flags classify opts fake_points) ->
  let phat :=
    histogram (Np.select (predicted_digits classify opts fake_points)
                 (confident_flags classify opts fake_points)) 10 in
  let threshold := Np.percentile phat 5 in
  length phat = 10%nat /\
  smallest phat <= threshold /\
  (forall JS C C_actual conf plot,
     _evaluate_mnist classify self opts step real_points fake_points
       validation_fake_points prefix
     = Ok (JS, C, C_actual, conf, plot) ->
     C = 1 - Np.mean_bool (map (fun p => Rleb p threshold) phat) /\
     C <= 9 / 10 /\ C <> 1) /\
  (l2s self = None ->
   exists JS C C_actual conf plot,
     _evaluate_mnist classify self opts step real_points fake_points
       validation_fake_points prefix
     = Ok (JS, C, C_actual, conf, plot)).
Proof.
  intros Hf Hbs Hlab Hconf phat threshold.
  assert (Hlen : length phat = 10%nat).
  { apply histogram_length. intros d Hd. apply select_In in Hd.
    unfold predicted_digits in Hd. apply in_map_iff in Hd.
    destruct Hd as (x & <- & Hx). now apply Hlab. }
  assert (Hne : phat <> []) by (intros E; rewrite E in Hlen; discriminate).
  assert (Hlow := mean_bool_lower _ (percentile_covers_smallest phat Hne)).
  rewrite length_map, Hlen in Hlow.
  replace (INR 10) with 10 in Hlow by (simpl; lra).
  split; [exact Hlen|].
  split; [apply smallest_le_percentile; [exact Hne | lia]|].
  split.
  - intros JS C C_actual conf plot Hrun.
    destruct (evaluate_mnist_result classify self opts step real_points
                fake_points validation_fake_points prefix JS C C_actual conf
                plot Hf Hbs Hrun) as [Hstat _].
    rewrite (mode_statistics_some _ _ _ Hconf) in Hstat.
    injection Hstat as _ HC _. fold phat threshold in HC.
    split; [exact HC|]. fold threshold in Hlow. rewrite HC. split; lra.
  - intros Hl.
    destruct (evaluate_mnist_returns classify self opts step real_points
                fake_points validation_fake_points prefix Hf Hbs
                (or_introl Hl))
      as (plot & Hrun & _).
    rewrite (mode_statistics_some _ _ _ Hconf) in Hrun.
    do 5 eexists. exact Hrun.
Qed.

Lemma digit_of_lt_10 (v : R) : (digit_of v < 10)%nat.
Proof.
  unfold digit_of.
  assert (H := filter_length_le (fun k => Rleb (INR k / 10) v) (seq 1 9)).
  rewrite length_seq in H. lia.
Qed.

Lemma ten_digits_confident :
  In true (confident_flags pixel_classify mnist_opts ten_digits).
Proof.
  left. unfold Rgtb. simpl. decide_Rcmp. reflexivity.
Qed.

Lemma single_label_coverage_at_most_nine_tenths_witness :
  exists JS C C_actual conf plot,
    _evaluate_mnist pixel_classify no_aux mnist_opts 0 [] ten_digits None
      EmptyString
    = Ok (JS, C, C_actual, conf, plot) /\
    C <= 9 / 10 /\ C <> 1.
Proof.
  destruct (single_label_coverage_at_most_nine_tenths pixel_classify no_aux
              mnist_opts 0 [] ten_digits None EmptyString)
    as (_ & _ & Hall & Hret).
  - discriminate.
  - simpl; lia.
  - intros x _. apply digit_of_lt_10.
  - exact ten_digits_confident.
  - destruct (Hret eq_refl) as (JS & C & C_actual & conf & plot & Hrun).
    exists JS, C, C_actual, conf, plot. split; [exact Hrun|].
    now apply (Hall JS C C_actual conf plot Hrun).
Defined.

(** ** The divergence reported by the single-label evaluator *)

Lemma kl_term_zero (p m : R) : p = 0 -> kl_term p m = 0.
Proof.
  intros Hp. unfold kl_term. destruct (Req_dec_T p 0); [reflexivity | contradiction].
Qed.

Lemma kl_term_nonzero (p m : R) : p <> 0 -> kl_term p m = p * ln (p / m).
Proof.
  intros Hp. unfold kl_term. destruct (Req_dec_T p 0); [contradiction | reflexivity].
Qed.

Lemma kl_term_self (p : R) : kl_term p p = 0.
Proof.
  unfold kl_term. destruct (Req_dec_T p 0) as [|Hp]; [reflexivity|].
  unfold Rdiv. rewrite Rinv_r by exact Hp. rewrite ln_1. ring.
Qed.

Lemma map2_diag {A C : Type} (f : A -> A -> C) (l : list A) :
  map2 f l l = map (fun x => f x x) l.
Proof. induction l as [|x l IH]; simpl; [reflexivity | now rewrite IH]. Qed.

Lemma kl_div_self (P : list R) : kl_div P P = 0.
Proof.
  unfold kl_div. rewrite map2_diag.
  induction P as [|p P IH]; simpl; [reflexivity|].
  rewrite kl_term_self, IH. ring.
Qed.

(** The divergence of a distribution from itself vanishes. *)
Lemma js_div_self (P : list R) : js_div P P = 0.
Proof.
  unfold js_div. rewrite map2_diag.
  rewrite (map_ext (fun p => (p + p) / 2) (fun p => p)) by (intros; lra).
  rewrite map_id, kl_div_self. lra.
Qed.

Lemma evaluate_mnist_js_over_all_predictions
    (classify : list R -> nat * R) (self : Metrics) (opts : Opts) (step : nat)
    (real_points fake_points : batch) (validation_fake_points : option batch)
    (prefix : string) :
  fake_points <> [] -> (0 < tf_run_batch_size opts)%nat ->
  In true (confident_flags classify opts fake_points) ->
  l2s self = None ->
  exists C C_actual conf plot,
    _evaluate_mnist classify self opts step real_points fake_points
      validation_fake_points prefix
    = Ok (js_div_uniform (predicted_digits classify opts fake_points) 10,
          C, C_actual, conf, plot).
Proof.
  intros Hf Hbs Hconf Hl.
  destruct (evaluate_mnist_returns classify self opts step real_points
              fake_points validation_fake_points prefix Hf Hbs (or_introl Hl))
    as (plot & Hrun & _).
  rewrite (mode_statistics_some _ _ _ Hconf) in Hrun.
  do 4 eexists. exact Hrun.
Qed.

Lemma ten_digits_predicted :
  predicted_digits pixel_classify mnist_opts ten_digits
  = [0; 1; 2; 3; 4; 5; 6; 7; 8; 9]%nat.
Proof.
  unfold predicted_digits. simpl. unfold digit_of. simpl. decide_Rcmp.
  reflexivity.
Qed.

Lemma ten_digits_flags :
  confident_flags pixel_classify mnist_opts ten_digits
  = [true; false; false; false; false; false; false; false; false; false].
Proof.
  unfold confident_flags, Rgtb. simpl. decide_Rcmp. reflexivity.
Qed.

Lemma js_all_ten_digits :
  js_div_uniform [0; 1; 2; 3; 4; 5; 6; 7; 8; 9]%nat 10 = 0.
Proof.
  unfold js_div_uniform.
  replace (map (fun _ : R => 1 / INR 10)
             (histogram [0; 1; 2; 3; 4; 5; 6; 7; 8; 9]%nat 10))
    with (histogram [0; 1; 2; 3; 4; 5; 6; 7; 8; 9]%nat 10) by reflexivity.
  apply js_div_self.
Qed.

Lemma ln_bounds_for_js :
  0 < ln (20 / 11) /\ 0 < ln 2 /\ - (3 * ln 2) < ln (2 / 11).
Proof.
  assert (H2 : 0 < ln 2) by (rewrite <- ln_1; apply ln_increasing; lra).
  split; [rewrite <- ln_1; apply ln_increasing; lra|]. split; [exact H2|].
  assert (H8 : ln 8 = 3 * ln 2).
  { replace 8 with (2 * (2 * 2)) by lra. rewrite !ln_mult by lra. ring. }
  assert (H : 0 < ln (2 / 11) + ln 8).
  { rewrite <- ln_mult by lra. rewrite <- ln_1. apply ln_increasing; lra. }
  lra.
Qed.

Lemma js_only_zero_positive : 0 < js_div_uniform [0%nat] 10.
Proof.
  unfold js_div_uniform, histogram, js_div, kl_div.
  change (Np.bincount [0%nat] 10) with [1; 0; 0; 0; 0; 0; 0; 0; 0; 0]%nat.
  cbn [map map2 Np.sum Np.sum_nat Nat.add INR].
  rewrite !(kl_term_zero (0 / 1)) by lra.
  rewrite !kl_term_nonzero by lra.
  replace (1 / 1 / ((1 / 1 + 1 / (1 + 1 + 1 + 1 + 1 + 1 + 1 + 1 + 1 + 1)) / 2))
    with (20 / 11) by lra.
  replace (1 / (1 + 1 + 1 + 1 + 1 + 1 + 1 + 1 + 1 + 1)
           / ((1 / 1 + 1 / (1 + 1 + 1 + 1 + 1 + 1 + 1 + 1 + 1 + 1)) / 2))
    with (2 / 11) by lra.
  replace (1 / (1 + 1 + 1 + 1 + 1 + 1 + 1 + 1 + 1 + 1)
           / ((0 / 1 + 1 / (1 + 1 + 1 + 1 + 1 + 1 + 1 + 1 + 1 + 1)) / 2))
    with 2 by lra.
  destruct ln_bounds_for_js as (H1 & H2 & H3). lra.
Qed.

(** C2, on the code: of ten images showing the digits 0 to 9, only the first
    is classified with confidence.  The evaluator reports the divergence of
    the histogram of all ten predictions, which is 0, whereas the histogram
    of the confident predictions alone (all mass on the digit 0) has a
    positive divergence from the uniform distribution. *)
Theorem js_divergence_counts_unconfident_predictions :
  In true (confident_flags pixel_classify mnist_opts ten_digits) /\
  Np.select (predicted_digits pixel_classify mnist_opts ten_digits)
    (confident_flags pixel_classify mnist_opts ten_digits) = [0%nat] /\
  (exists C C_actual conf plot,
     _evaluate_mnist pixel_classify no_aux mnist_opts 0 [] ten_digits None
       EmptyString
     = Ok (0, C, C_actual, conf, plot)) /\
  0 < js_div_uniform [0%nat] 10.
Proof.
  split; [exact ten_digits_confident|]. split; [|split].
  - rewrite ten_digits_predicted, ten_digits_flags. reflexivity.
  - destruct (evaluate_mnist_js_over_all_predictions pixel_classify no_aux
                mnist_opts 0 [] ten_digits None EmptyString)
      as (C & C_actual & conf & plot & Hrun).
    + discriminate.
    + simpl; lia.
    + exact ten_digits_confident.
    + reflexivity.
    + rewrite ten_digits_predicted, js_all_ten_digits in Hrun.
      now exists C, C_actual, conf, plot.
  - exact js_only_zero_positive.
Qed.

(** * Further properties of the evaluators *)

(** ** The range of the continuous coverage *)

Lemma select_bandwidth_positive (fake_points : batch)
    (validation_fake_points : option batch) (b0 : R) :
  Np.median (consecutive_dist fake_points) = Some b0 -> 0 < b0 ->
  fake_points <> [] ->
  (forall v, validation_fake_points = Some v -> v <> []) ->
  exists h,
    select_bandwidth fake_points validation_fake_points = Ok (Some h) /\ 0 < h.
Proof.
  intros Hmed Hb Hf Hv. destruct validation_fake_points as [v|].
  - destruct (select_bandwidth_validation fake_points v b0 Hmed Hb Hf
                (Hv v eq_refl)) as (k & _ & Hsel).
    eexists. split; [exact Hsel|].
    apply Rmult_lt_0_compat; [exact Hb | apply powerRZ_lt; lra].
  - exists b0. split; [|exact Hb]. unfold select_bandwidth. now rewrite Hmed.
Qed.

Lemma spec_coverage_range (h : R) (fake_points real_points : batch) :
  real_points <> [] -> 0 <= spec_coverage h fake_points real_points <= 1.
Proof.
  intros Hr. unfold spec_coverage.
  set (f := fun x => Rleb (KDE.log_density h fake_points x)
                          (spec_threshold h fake_points)).
  assert (Hle := filter_length_le f real_points).
  assert (Hn : (0 < length real_points)%nat)
    by (destruct real_points; [congruence | simpl; lia]).
  apply le_INR in Hle. apply lt_0_INR in Hn.
  assert (H0 := pos_INR (length (filter f real_points))).
  assert (Hq : 0 <= INR (length (filter f real_points)) / INR (length real_points) <= 1).
  { split.
    - apply Rmult_le_pos; [exact H0 | left; now apply Rinv_0_lt_compat].
    - apply Rmult_le_reg_r with (INR (length real_points)); [exact Hn|].
      unfold Rdiv. rewrite Rmult_assoc, Rinv_l by lra. lra. }
  lra.
Qed.

(** X1.  The coverage returned by the continuous evaluator is a fraction: under
    the conditions in which the evaluator returns (a positive median distance
    of at least two fake points, a non-empty real batch, no or a non-empty
    validation batch), it lies between 0 and 1. *)
Theorem evaluate_vec_coverage_in_unit_interval (self : Metrics) (opts : Opts)
    (step : nat) (real_points fake_points : batch)
    (validation_fake_points : option batch) (prefix : string) (b0 : R) :
  Np.median (consecutive_dist fake_points) = Some b0 -> 0 < b0 ->
  real_points <> [] ->
  (forall v, validation_fake_points = Some v -> v <> []) ->
  exists log_p C,
    _evaluate_vec self opts step real_points fake_points
      validation_fake_points prefix = Ok (log_p, C) /\
    0 <= C <= 1.
Proof.
  intros Hmed Hb Hr Hv.
  assert (Hf : fake_points <> []).
  { intros ->. discriminate Hmed. }
  destruct (select_bandwidth_positive _ _ _ Hmed Hb Hf Hv) as (h & Hsel & Hh).
  exists (spec_log_p h fake_points real_points),
         (spec_coverage h fake_points real_points).
  split; [|now apply spec_coverage_range].
  unfold _evaluate_vec. now apply evaluate_vec_core_pos.
Qed.

Lemma evaluate_vec_coverage_in_unit_interval_witness :
  exists log_p C,
    _evaluate_vec no_aux gmm_opts 0 [[0]; [3]] unit_fake (Some [[2]])
      EmptyString = Ok (log_p, C) /\
    0 <= C <= 1.
Proof.
  apply (evaluate_vec_coverage_in_unit_interval no_aux gmm_opts 0 [[0]; [3]]
           unit_fake (Some [[2]]) EmptyString 1).
  - exact unit_fake_median.
  - lra.
  - discriminate.
  - intros v E. injection E as <-. discriminate.
Defined.

(** ** The chunk size of the classifier *)

Lemma classifier_input_with_batch_size (opts : Opts) (bs : nat)
    (fake_points : batch) :
  classifier_input (with_batch_size opts bs) fake_points
  = classifier_input opts fake_points.
Proof. reflexivity. Qed.

Lemma evaluate_mnist_unfold (classify : list R -> nat * R) (self : Metrics)
    (opts : Opts) (step : nat) (real_points fake_points : batch)
    (validation_fake_points : option batch) (prefix : string) :
  fake_points <> [] -> (0 < tf_run_batch_size opts)%nat ->
  _evaluate_mnist classify self opts step real_points fake_points
    validation_fake_points prefix
  = (let shown := if input_normalize_sym opts
                  then rescale_to_sym (classifier_input opts fake_points)
                  else classifier_input opts fake_points in
     let '(gathered, points_to_plot) :=
       gather_modes (predicted_digits classify opts fake_points)
         (confident_flags classify opts fake_points) shown [] [] in
     plot <- match points_to_plot with
             | [] => Ok None
             | _ => p <- _make_plots_pics self opts step points_to_plot "modes_" ;;
                    Ok (Some p)
             end ;;
     let '(JS, C, C_actual) :=
       mode_statistics 10 (predicted_digits classify opts fake_points)
         (confident_flags classify opts fake_points) in
     Ok (JS, C, C_actual, Np.mean (predicted_probs classify opts fake_points),
         plot)).
Proof.
  intros Hf Hbs. unfold _evaluate_mnist.
  destruct fake_points as [|x0 fake'] eqn:Efake; [congruence|].
  rewrite <- Efake in *. replace (length fake_points =? 0)%nat with false
    by (subst fake_points; reflexivity).
  fold (classifier_input opts fake_points).
  rewrite classify_mnist_pointwise
    by (assumption || now apply classifier_input_nonempty).
  reflexivity.
Qed.

Lemma evaluate_mnist3_unfold (classify : list R -> nat * R)
    (split_channels split_width : list R -> list R * list R * list R)
    (self : Metrics) (opts : Opts) (step : nat)
    (real_points fake_points : batch) (validation_fake_points : option batch)
    (prefix : string) :
  fake_points <> [] -> (0 < tf_run_batch_size opts)%nat ->
  _evaluate_mnist3 classify split_channels split_width self opts step
    real_points fake_points validation_fake_points prefix
  = (let shown := if input_normalize_sym opts
                  then rescale_to_sym (classifier_input opts fake_points)
                  else classifier_input opts fake_points in
     let digits := map (composite_label classify split_channels split_width opts)
                     (classifier_input opts fake_points) in
     let flags := map (all_confident classify split_channels split_width opts)
                    (classifier_input opts fake_points) in
     let '(gathered, points_to_plot) := gather_modes digits flags shown [] [] in
     plot <- match points_to_plot with
             | [] => Ok None
             | _ => p <- _make_plots_pics self opts step points_to_plot "modes_" ;;
                    Ok (Some p)
             end ;;
     let '(JS, C, C_actual) := mode_statistics 1000 digits flags in
     Ok (JS, C, C_actual,
         mean3 (map (sub_probs classify split_channels split_width opts)
                  (classifier_input opts fake_points)),
         plot)).
Proof.
  intros Hf Hbs. unfold _evaluate_mnist3.
  destruct fake_points as [|x0 fake'] eqn:Efake; [congruence|].
  rewrite <- Efake in *. replace (length fake_points =? 0)%nat with false
    by (subst fake_points; reflexivity).
  fold (classifier_input opts fake_points).
  rewrite classify_mnist3_pointwise
    by (assumption || now apply classifier_input_nonempty).
  reflexivity.
Qed.

(** X2.  The results of the discrete evaluators do not depend on the size of the
    chunks in which the fake batch is passed to the classifier, as long as
    that size is positive. *)
Theorem discrete_evaluators_ignore_chunk_size
    (classify : list R -> nat * R)
    (split_channels split_width : list R -> list R * list R * list R)
    (self : Metrics) (opts : Opts) (step : nat)
    (real_points fake_points : batch) (validation_fake_points : option batch)
    (prefix : string) (bs1 bs2 : nat) :
  (0 < bs1)%nat -> (0 < bs2)%nat ->
  _evaluate_mnist classify self (with_batch_size opts bs1) step real_points
    fake_points validation_fake_points prefix
  = _evaluate_mnist classify self (with_batch_size opts bs2) step real_points
      fake_points validation_fake_points prefix
  /\
  _evaluate_mnist3 classify split_channels split_width self
    (with_batch_size opts bs1) step real_points fake_points
    validation_fake_points prefix
  = _evaluate_mnist3 classify split_channels split_width self
      (with_batch_size opts bs2) step real_points fake_points
      validation_fake_points prefix.
Proof.
  intros H1 H2. destruct fake_points as [|x0 fake'] eqn:Efake.
  - split; reflexivity.
  - rewrite <- Efake.
    assert (Hf : fake_points <> []) by (subst; discriminate).
    split.
    + rewrite !evaluate_mnist_unfold by assumption. reflexivity.
    + rewrite !evaluate_mnist3_unfold by assumption. reflexivity.
Qed.

Lemma discrete_evaluators_ignore_chunk_size_witness :
  _evaluate_mnist pixel_classify no_aux (with_batch_size mnist_opts 1) 0 []
    ten_digits None EmptyString
  = _evaluate_mnist pixel_classify no_aux (with_batch_size mnist_opts 3) 0 []
      ten_digits None EmptyString
  /\
  _evaluate_mnist3 pixel_classify thirds thirds no_aux
    (with_batch_size mnist3_opts 1) 0 [] triples_123 None EmptyString
  = _evaluate_mnist3 pixel_classify thirds thirds no_aux
      (with_batch_size mnist3_opts 3) 0 [] triples_123 None EmptyString.
Proof.
  split.
  - apply (discrete_evaluators_ignore_chunk_size pixel_classify thirds thirds
             no_aux mnist_opts 0 [] ten_digits None EmptyString 1 3); lia.
  - apply (discrete_evaluators_ignore_chunk_size pixel_classify thirds thirds
             no_aux mnist3_opts 0 [] triples_123 None EmptyString 1 3); lia.
Defined.

(** X3.  A chunk size of zero makes both discrete evaluators fail in the division
    that counts the chunks, once the assertion on the fake batch has
    passed. *)
Theorem discrete_evaluators_zero_chunk_size
    (classify : list R -> nat * R)
    (split_channels split_width : list R -> list R * list R * list R)
    (self : Metrics) (opts : Opts) (step : nat)
    (real_points fake_points : batch) (validation_fake_points : option batch)
    (prefix : string) :
  fake_points <> [] -> tf_run_batch_size opts = 0%nat ->
  _evaluate_mnist classify self opts step real_points fake_points
    validation_fake_points prefix = Raise ZeroDivisionError
  /\
  _evaluate_mnist3 classify split_channels split_width self opts step
    real_points fake_points validation_fake_points prefix
  = Raise ZeroDivisionError.
Proof.
  intros Hf Hbs.
  unfold _evaluate_mnist, _evaluate_mnist3, classify_mnist, classify_mnist3,
    batches_num.
  rewrite Hbs. destruct fake_points; [congruence | split; reflexivity].
Qed.

Lemma discrete_evaluators_zero_chunk_size_witness :
  _evaluate_mnist pixel_classify no_aux (with_batch_size mnist_opts 0) 0 []
    ten_digits None EmptyString = Raise ZeroDivisionError
  /\
  _evaluate_mnist3 pixel_classify thirds thirds no_aux
    (with_batch_size mnist_opts 0) 0 [] ten_digits None EmptyString
  = Raise ZeroDivisionError.
Proof.
  apply (discrete_evaluators_zero_chunk_size pixel_classify thirds thirds
           no_aux (with_batch_size mnist_opts 0) 0 [] ten_digits None
           EmptyString).
  - discriminate.
  - reflexivity.
Defined.

(** ** Rescaling between [-1, 1] and [0, 1] *)

(** The two rescalings of the discrete evaluators undo each other, in both
    orders: after the classification the fake points are as they were. *)
Lemma rescale_round_trip (points : batch) :
  rescale_to_sym (rescale_to_unit points) = points /\
  rescale_to_unit (rescale_to_sym points) = points.
Proof.
  unfold rescale_to_sym, rescale_to_unit. split; rewrite map_map;
    rewrite <- (map_id points) at 2; apply map_ext; intros x;
    rewrite map_map; rewrite <- (map_id x) at 2; apply map_ext; intros v; lra.
Qed.

(** ** The candidate bandwidths *)

Lemma b_grid_nth (b : R) (i : nat) :
  (i < 14)%nat -> nth i (b_grid b) 0 = b * powerRZ 2 (Z.of_nat i - 7).
Proof.
  intros Hi. unfold b_grid.
  do 14 (destruct i as [|i]; [reflexivity|]). lia.
Qed.

(** X4.  The grid of the bandwidth search has 14 candidates, each twice the one
    before; the eighth is the initial bandwidth itself, the first is a 128th
    of it and the last 64 times it. *)
Theorem b_grid_doubles (b : R) :
  length (b_grid b) = 14%nat /\
  (forall i, (i < 13)%nat ->
     nth (S i) (b_grid b) 0 = 2 * nth i (b_grid b) 0) /\
  nth 7 (b_grid b) 0 = b /\
  nth 0 (b_grid b) 0 = b / 128 /\
  nth 13 (b_grid b) 0 = 64 * b.
Proof.
  split; [reflexivity|]. split; [|split; [|split]].
  - intros i Hi. rewrite !b_grid_nth by lia.
    replace (Z.of_nat (S i) - 7)%Z with (1 + (Z.of_nat i - 7))%Z by lia.
    rewrite powerRZ_add by lra. rewrite powerRZ_1. ring.
  - rewrite b_grid_nth by lia. simpl. ring.
  - rewrite b_grid_nth by lia. change (Z.of_nat 0 - 7)%Z with (-7)%Z.
    unfold powerRZ. change (Pos.to_nat 7) with 7%nat. unfold pow. field.
  - rewrite b_grid_nth by lia. change (Z.of_nat 13 - 7)%Z with 6%Z.
    unfold powerRZ. change (Pos.to_nat 6) with 6%nat. unfold pow. ring.
Qed.

(** ** Bins without confident predictions *)

Lemma zeros_cons (x : R) (l : list R) :
  zeros (x :: l) = ((if Rleb x 0 then 1 else 0) + zeros l)%nat.
Proof. unfold zeros. simpl. destruct (Rleb x 0); reflexivity. Qed.

Lemma zeros_perm (l l' : list R) : Permutation l l' -> zeros l = zeros l'.
Proof.
  induction 1 as [|x l l' _ IH|x y l|l l' l'' _ IH1 _ IH2].
  - reflexivity.
  - rewrite !zeros_cons. lia.
  - rewrite !zeros_cons. lia.
  - congruence.
Qed.

Lemma zeros_none (l : list R) : (forall x, In x l -> 0 < x) -> zeros l = 0%nat.
Proof.
  induction l as [|x l IH]; intros H; [reflexivity|].
  rewrite zeros_cons, IH by (intros; apply H; now right).
  assert (Hx := H x (or_introl eq_refl)).
  rewrite (proj2 (Rleb_false_iff x 0)) by exact Hx. reflexivity.
Qed.

(** A sorted array of non-negative entries starts with its zeros. *)
Lemma ascending_zeros_split (s : list R) :
  ascending s -> (forall x, In x s -> 0 <= x) ->
  exists rest,
    s = repeat 0 (zeros s) ++ rest /\ ascending rest /\
    forall x, In x rest -> 0 < x.
Proof.
  induction 1 as [|x l Hx Hl IH]; intros Hpos.
  - exists []. repeat split; [constructor | intros x []].
  - assert (Hx0 := Hpos x (or_introl eq_refl)).
    destruct (Rle_lt_dec x 0) as [Hle|Hlt].
    + assert (E : x = 0) by lra. subst x.
      destruct IH as (rest & Hs & Hasc & Hrest); [intros; apply Hpos; now right|].
      exists rest. rewrite zeros_cons, (proj2 (Rleb_true_iff 0 0)) by lra.
      simpl. split; [now rewrite <- Hs | auto].
    + exists (x :: l).
      assert (Hall : forall y, In y (x :: l) -> 0 < y).
      { intros y [<-|Hy]; [exact Hlt | specialize (Hx y Hy); lra]. }
      rewrite (zeros_none _ Hall). simpl.
      split; [reflexivity|]. split; [now constructor | exact Hall].
Qed.

Lemma percentile_weight_range (pos : nat) :
  0 <= INR (pos mod 100) / 100 < 1.
Proof.
  assert (H : (pos mod 100 < 100)%nat) by (apply Nat.mod_upper_bound; lia).
  apply lt_INR in H. replace (INR 100) with 100 in H by (simpl; lra).
  assert (H0 := pos_INR (pos mod 100)). lra.
Qed.

(** When more bins are zero than the index of the percentile, the bins at or
    below the threshold are exactly the zero bins. *)
Lemma percentile_separates_zeros (l : list R) (q : nat) (p : R) :
  (forall x, In x l -> 0 <= x) ->
  (q * (length l - 1) / 100 < zeros l)%nat ->
  In p l ->
  Rleb p (Np.percentile l q) = Rleb p 0.
Proof.
  intros Hpos Hz Hp. unfold Np.percentile.
  set (n := length l) in *. set (pos := (q * (n - 1))%nat) in *.
  set (lo := (pos / 100)%nat) in *.
  set (hi := Nat.min (lo + 1) (n - 1)).
  set (w := INR (pos mod 100) / 100).
  assert (Hw : 0 <= w < 1) by apply percentile_weight_range.
  destruct (ascending_zeros_split (Np.sort l) (sort_ascending l))
    as (rest & Hs & Hasc & Hrest).
  { intros x Hx. apply Hpos. now apply sort_In. }
  rewrite <- (zeros_perm _ _ (sort_perm l)) in Hs.
  set (z := zeros l) in *.
  assert (Hlo : nth lo (Np.sort l) 0 = 0).
  { rewrite Hs, app_nth1 by (rewrite repeat_length; exact Hz).
    apply nth_repeat. }
  assert (Hhi : nth hi (Np.sort l) 0 = 0 \/
                (nth hi (Np.sort l) 0 = nth 0 rest 0 /\ rest <> [])).
  { assert (Hle : (hi <= z)%nat) by (unfold hi; lia).
    destruct (Nat.eq_dec hi z) as [E|E].
    - destruct rest as [|r rest'].
      + left. rewrite Hs, app_nil_r. apply nth_repeat.
      + right. split; [|discriminate].
        rewrite Hs, app_nth2 by (rewrite repeat_length; lia).
        rewrite repeat_length. replace (hi - z)%nat with 0%nat by lia.
        reflexivity.
    - left. rewrite Hs, app_nth1 by (rewrite repeat_length; lia).
      apply nth_repeat. }
  rewrite Hlo. assert (Hp0 := Hpos p Hp).
  destruct (Rle_lt_dec p 0) as [Hle|Hlt].
  - assert (E : p = 0) by lra. subst p.
    rewrite (proj2 (Rleb_true_iff 0 0)) by lra. apply Rleb_true_iff.
    destruct Hhi as [-> | [-> Hne]]; [lra|].
    destruct rest as [|r rest']; [congruence|].
    assert (Hr := Hrest r (or_introl eq_refl)). simpl. nra.
  - rewrite (proj2 (Rleb_false_iff p 0)) by exact Hlt. apply Rleb_false_iff.
    destruct Hhi as [-> | [-> Hne]]; [lra|].
    destruct rest as [|r rest']; [congruence|]. simpl.
    assert (Hr := Hrest r (or_introl eq_refl)).
    assert (Hpr : r <= p).
    { assert (Hin : In p (repeat 0 z ++ r :: rest')).
      { rewrite <- Hs. now apply sort_In. }
      apply in_app_or in Hin. destruct Hin as [Hin|[<-|Hin]].
      - apply repeat_spec in Hin. lra.
      - lra.
      - inversion Hasc as [|? ? Hhead _]; subst. now apply Hhead. }
    nra.
Qed.

Lemma count_below_threshold (l : list R) (q : nat) :
  (forall x, In x l -> 0 <= x) ->
  (q * (length l - 1) / 100 < zeros l)%nat ->
  Np.count_true (map (fun p => Rleb p (Np.percentile l q)) l) = zeros l.
Proof.
  intros Hpos Hz. unfold zeros. rewrite <- count_true_filter. f_equal.
  apply map_ext_in. intros p Hp. now apply percentile_separates_zeros.
Qed.

(** ** Histograms over the labels *)

Lemma bincount_exact (x : list nat) (m : nat) :
  (forall d, In d x -> (d < m)%nat) ->
  Np.bincount x m = map (count_occ Nat.eq_dec x) (seq 0 m).
Proof.
  intros H. unfold Np.bincount. destruct x as [|d x]; [reflexivity|].
  assert (Hmax : (list_max (d :: x) < m)%nat).
  { apply list_max_lt; [discriminate|]. apply Forall_forall. exact H. }
  replace (Nat.max m (S (list_max (d :: x)))) with m by lia. reflexivity.
Qed.

Lemma sum_nat_ge_In (c : nat) (l : list nat) : In c l -> (c <= Np.sum_nat l)%nat.
Proof.
  induction l as [|y l IH]; intros H; [destruct H|].
  simpl. destruct H as [->|H]; [lia | specialize (IH H); lia].
Qed.

Lemma bincount_total_pos (x : list nat) (m : nat) :
  x <> [] -> (forall d, In d x -> (d < m)%nat) ->
  (0 < Np.sum_nat (Np.bincount x m))%nat.
Proof.
  intros Hne H. rewrite bincount_exact by exact H.
  destruct x as [|d x]; [congruence|].
  assert (Hd : In d (d :: x)) by now left.
  assert (Hc : (0 < count_occ Nat.eq_dec (d :: x) d)%nat)
    by now apply count_occ_In.
  assert (Hin : In (count_occ Nat.eq_dec (d :: x) d)
                   (map (count_occ Nat.eq_dec (d :: x)) (seq 0 m))).
  { apply in_map, in_seq. specialize (H d Hd). lia. }
  apply sum_nat_ge_In in Hin. lia.
Qed.

Lemma filter_complement_length {A : Type} (f : A -> bool) (l : list A) :
  (length (filter f l) + length (filter (fun x => negb (f x)) l))%nat = length l.
Proof.
  induction l as [|x l IH]; [reflexivity|]. simpl.
  destruct (f x); simpl; lia.
Qed.

(** The bins that are not empty are as many as the distinct labels. *)
Lemma occupied_bins_unique (x : list nat) (m : nat) :
  (forall d, In d x -> (d < m)%nat) ->
  length (filter (fun i => negb (count_occ Nat.eq_dec x i =? 0)%nat) (seq 0 m))
  = Np.unique_count x.
Proof.
  intros H. unfold Np.unique_count. apply Permutation_length.
  apply NoDup_Permutation.
  - apply NoDup_filter, seq_NoDup.
  - apply NoDup_nodup.
  - intros i. rewrite filter_In, nodup_In, negb_true_iff, Nat.eqb_neq, in_seq.
    split.
    + intros [_ Hc]. apply (count_occ_In Nat.eq_dec). lia.
    + intros Hi. split; [specialize (H i Hi); lia|].
      apply (count_occ_In Nat.eq_dec) in Hi. lia.
Qed.

Lemma histogram_nonneg (x : list nat) (m : nat) (p : R) :
  In p (histogram x m) -> 0 <= p.
Proof.
  unfold histogram. intros H. apply in_map_iff in H.
  destruct H as (c & <- & _).
  assert (H0 := pos_INR c). assert (H1 := pos_INR (Np.sum_nat (Np.bincount x m))).
  destruct (Req_dec_T (INR (Np.sum_nat (Np.bincount x m))) 0) as [E|E].
  - rewrite E. unfold Rdiv. rewrite Rinv_0. lra.
  - apply Rmult_le_pos; [exact H0|]. left. apply Rinv_0_lt_compat. lra.
Qed.

Lemma histogram_zeros (x : list nat) (m : nat) :
  x <> [] -> (forall d, In d x -> (d < m)%nat) ->
  (zeros (histogram x m) + Np.unique_count x)%nat = m.
Proof.
  intros Hne H.
  assert (HT := bincount_total_pos x m Hne H). apply lt_0_INR in HT.
  rewrite <- (occupied_bins_unique x m H).
  assert (Hz : zeros (histogram x m)
               = length (filter (fun i => (count_occ Nat.eq_dec x i =? 0)%nat)
                           (seq 0 m))).
  { unfold zeros, histogram.
    set (T := INR (Np.sum_nat (Np.bincount x m))) in *.
    rewrite (bincount_exact x m H). rewrite map_map.
    induction (seq 0 m) as [|i l IH]; [reflexivity|]. simpl.
    assert (E : Rleb (INR (count_occ Nat.eq_dec x i) / T) 0
                = (count_occ Nat.eq_dec x i =? 0)%nat).
    { destruct (count_occ Nat.eq_dec x i) as [|c] eqn:Ec.
      - simpl. apply Rleb_true_iff. unfold Rdiv. lra.
      - replace (S c =? 0)%nat with false by reflexivity. apply Rleb_false_iff.
        assert (Hc' : 0 < INR (S c)) by (apply lt_0_INR; lia).
        apply Rmult_lt_0_compat; [exact Hc' | now apply Rinv_0_lt_compat]. }
    rewrite E. destruct (count_occ Nat.eq_dec x i =? 0)%nat; simpl;
      now rewrite IH. }
  assert (Hc := filter_complement_length
                  (fun i => (count_occ Nat.eq_dec x i =? 0)%nat) (seq 0 m)).
  rewrite length_seq in Hc. lia.
Qed.

Lemma select_nonempty {A : Type} (a : list A) (mask : list bool) :
  length a = length mask -> In true mask -> Np.select a mask <> [].
Proof.
  revert mask. induction a as [|x a IH]; intros [|b mask] Hlen Hin;
    simpl in *; try discriminate; try contradiction.
  destruct b; [discriminate|].
  destruct Hin as [Hin|Hin]; [discriminate|]. apply IH; [lia | exact Hin].
Qed.

Lemma unique_count_pos (x : list nat) : x <> [] -> (0 < Np.unique_count x)%nat.
Proof.
  intros Hne. unfold Np.unique_count. destruct x as [|d x]; [congruence|].
  assert (H : In d (nodup Nat.eq_dec (d :: x))) by (apply nodup_In; now left).
  destruct (nodup Nat.eq_dec (d :: x)); [destruct H | simpl; lia].
Qed.

Lemma unique_count_le_bins (x : list nat) (m : nat) :
  (forall d, In d x -> (d < m)%nat) -> (Np.unique_count x <= m)%nat.
Proof.
  intros H. unfold Np.unique_count. rewrite <- (length_seq m 0).
  apply NoDup_incl_length; [apply NoDup_nodup|].
  intros d Hd. apply nodup_In in Hd. apply in_seq. specialize (H d Hd). lia.
Qed.

Lemma unique_count_le_length (x : list nat) :
  (Np.unique_count x <= length x)%nat.
Proof.
  unfold Np.unique_count. apply NoDup_incl_length; [apply NoDup_nodup|].
  intros d Hd. now apply nodup_In in Hd.
Qed.

Lemma select_length_le {A : Type} (a : list A) (mask : list bool) :
  (length (Np.select a mask) <= length a)%nat.
Proof.
  revert mask. induction a as [|x a IH]; intros [|b mask]; simpl; try lia.
  destruct b; simpl; specialize (IH mask); lia.
Qed.

(** The statistics of the last block when some bins are empty: with more
    empty bins than the index of the 5th percentile, the threshold separates
    the empty bins from the others and the coverage [C] is the fraction of
    occupied bins, which is [C_actual]. *)
Lemma mode_statistics_coverage_is_actual (num_cat : nat) (digits : list nat)
    (flags : list bool) :
  length digits = length flags -> In true flags ->
  (forall d, In d (Np.select digits flags) -> (d < num_cat)%nat) ->
  (5 * (num_cat - 1) / 100
   < num_cat - Np.unique_count (Np.select digits flags))%nat ->
  mode_statistics num_cat digits flags
  = (js_div_uniform digits num_cat,
     INR (Np.unique_count (Np.select digits flags)) / INR num_cat,
     INR (Np.unique_count (Np.select digits flags)) / INR num_cat).
Proof.
  intros Hlen Hconf Hlab Hfree.
  rewrite (mode_statistics_some _ _ _ Hconf). f_equal. f_equal.
  set (x := Np.select digits flags) in *.
  assert (Hne : x <> []) by now apply select_nonempty.
  assert (Hz := histogram_zeros x num_cat Hne Hlab).
  assert (Hl := histogram_length x num_cat Hlab).
  unfold Np.mean_bool. rewrite length_map, Hl.
  rewrite count_below_threshold.
  - assert (Hn : (0 < num_cat)%nat) by lia. apply lt_0_INR in Hn.
    replace (zeros (histogram x num_cat))
      with (num_cat - Np.unique_count x)%nat by lia.
    rewrite minus_INR by lia. field. lra.
  - intros p. apply histogram_nonneg.
  - rewrite Hl. lia.
Qed.

(** ** Coverage and actual coverage of the discrete evaluators *)

Lemma predicted_lengths (classify : list R -> nat * R) (opts : Opts)
    (fake_points : batch) :
  length (predicted_digits classify opts fake_points)
  = length (confident_flags classify opts fake_points).
Proof. unfold predicted_digits, confident_flags. now rewrite !length_map. Qed.

Lemma confident_digits_bound (classify : list R -> nat * R) (opts : Opts)
    (fake_points : batch) :
  (forall x, In x (classifier_input opts fake_points) ->
     (fst (classify x) < 10)%nat) ->
  forall d, In d (confident_digits classify opts fake_points) -> (d < 10)%nat.
Proof.
  intros Hlab d Hd. unfold confident_digits in Hd. apply select_In in Hd.
  unfold predicted_digits in Hd. apply in_map_iff in Hd.
  destruct Hd as (x & <- & Hx). now apply Hlab.
Qed.

(** The occupied and the empty bins make up all the bins. *)
Lemma occupied_fraction (k n : nat) :
  (k <= n)%nat -> (0 < n)%nat -> 1 - INR (n - k) / INR n = INR k / INR n.
Proof.
  intros Hk Hn. rewrite minus_INR by exact Hk. apply lt_0_INR in Hn.
  field. lra.
Qed.

(** X5.  In the single-label evaluator on an object without recorded losses,
    when [k], the number of distinct confident digits, is below 10, the
    5th percentile of the label frequencies separates exactly the [10 - k]
    digits that were not seen: the coverage is [C = 1 - (10 - k) / 10] and
    the actual coverage is [C_actual = k / 10].  Read as exact reals the two
    are the same number; computed in binary64 they can differ by a
    rounding. *)
Theorem single_label_coverage_is_actual_coverage
    (classify : list R -> nat * R) (self : Metrics) (opts : Opts) (step : nat)
    (real_points fake_points : batch) (validation_fake_points : option batch)
    (prefix : string) :
  fake_points <> [] -> (0 < tf_run_batch_size opts)%nat ->
  (forall x, In x (classifier_input opts fake_points) ->
     (fst (classify x) < 10)%nat) ->
  In true (confident_flags classify opts fake_points) ->
  (Np.unique_count (confident_digits classify opts fake_points) < 10)%nat ->
  l2s self = None ->
  let k := Np.unique_count (confident_digits classify opts fake_points) in
  (exists JS conf plot,
     _evaluate_mnist classify self opts step real_points fake_points
       validation_fake_points prefix
     = Ok (JS, 1 - INR (10 - k) / 10, INR k / 10, conf, plot)) /\
  1 - INR (10 - k) / 10 = INR k / 10.
Proof.
  intros Hf Hbs Hlab Hconf Hu Hl k.
  assert (E : 1 - INR (10 - k) / 10 = INR k / 10).
  { replace 10 with (INR 10) by (simpl; lra).
    apply occupied_fraction; [unfold k; lia | lia]. }
  split; [|exact E].
  destruct (evaluate_mnist_returns classify self opts step real_points
              fake_points validation_fake_points prefix Hf Hbs (or_introl Hl))
    as (plot & Hrun & _).
  rewrite mode_statistics_coverage_is_actual in Hrun.
  - replace (INR 10) with 10 in Hrun by (simpl; lra).
    fold (confident_digits classify opts fake_points) in Hrun. fold k in Hrun.
    rewrite E. do 3 eexists. exact Hrun.
  - apply predicted_lengths.
  - exact Hconf.
  - now apply confident_digits_bound.
  - unfold confident_digits in Hu.
    change (5 * (10 - 1) / 100)%nat with 0%nat. lia.
Qed.

Lemma ten_digits_confident_digits :
  confident_digits pixel_classify mnist_opts ten_digits = [0%nat].
Proof.
  unfold confident_digits. rewrite ten_digits_predicted, ten_digits_flags.
  reflexivity.
Qed.

Lemma single_label_coverage_is_actual_coverage_witness :
  (exists JS conf plot,
     _evaluate_mnist pixel_classify no_aux mnist_opts 0 [] ten_digits None
       EmptyString
     = Ok (JS, 1 - INR (10 - 1) / 10, INR 1 / 10, conf, plot)) /\
  1 - INR (10 - 1) / 10 = INR 1 / 10.
Proof.
  pose proof (single_label_coverage_is_actual_coverage pixel_classify no_aux
                mnist_opts 0 [] ten_digits None EmptyString) as H.
  rewrite ten_digits_confident_digits in H.
  apply H.
  - discriminate.
  - simpl; lia.
  - intros x _. apply digit_of_lt_10.
  - exact ten_digits_confident.
  - apply Nat.ltb_lt. reflexivity.
  - reflexivity.
Defined.

(** X6.  On an object without recorded losses, with labels among the ten
    digits and a confident prediction, the single-label evaluator returns,
    and its actual coverage is the number of distinct confident digits over
    10, positive and at most 1. *)
Theorem single_label_actual_coverage_range
    (classify : list R -> nat * R) (self : Metrics) (opts : Opts) (step : nat)
    (real_points fake_points : batch) (validation_fake_points : option batch)
    (prefix : string) :
  fake_points <> [] -> (0 < tf_run_batch_size opts)%nat ->
  (forall x, In x (classifier_input opts fake_points) ->
     (fst (classify x) < 10)%nat) ->
  In true (confident_flags classify opts fake_points) ->
  l2s self = None ->
  exists JS C C_actual conf plot,
    _evaluate_mnist classify self opts step real_points fake_points
      validation_fake_points prefix
    = Ok (JS, C, C_actual, conf, plot) /\
    C_actual
    = INR (Np.unique_count (confident_digits classify opts fake_points)) / 10 /\
    0 < C_actual <= 1.
Proof.
  intros Hf Hbs Hlab Hconf Hl.
  destruct (evaluate_mnist_returns classify self opts step real_points
              fake_points validation_fake_points prefix Hf Hbs (or_introl Hl))
    as (plot & Hrun & _).
  rewrite (mode_statistics_some _ _ _ Hconf) in Hrun.
  fold (confident_digits classify opts fake_points) in Hrun.
  replace (INR 10) with 10 in Hrun by (simpl; lra).
  do 5 eexists. split; [exact Hrun|]. split; [reflexivity|].
  assert (Hne : confident_digits classify opts fake_points <> []).
  { apply select_nonempty; [apply predicted_lengths | exact Hconf]. }
  assert (H1 := unique_count_pos _ Hne).
  assert (H2 := unique_count_le_bins _ 10
                  (confident_digits_bound classify opts fake_points Hlab)).
  apply lt_0_INR in H1. apply le_INR in H2.
  replace (INR 10) with 10 in H2 by (simpl; lra). lra.
Qed.

Lemma single_label_actual_coverage_range_witness :
  exists JS C C_actual conf plot,
    _evaluate_mnist pixel_classify no_aux mnist_opts 0 [] ten_digits None
      EmptyString
    = Ok (JS, C, C_actual, conf, plot) /\
    C_actual = 1 / 10 /\ 0 < C_actual <= 1.
Proof.
  destruct (single_label_actual_coverage_range pixel_classify no_aux
              mnist_opts 0 [] ten_digits None EmptyString)
    as (JS & C & C_actual & conf & plot & Hrun & Hval & Hrange).
  - discriminate.
  - simpl; lia.
  - intros x _. apply digit_of_lt_10.
  - exact ten_digits_confident.
  - reflexivity.
  - rewrite ten_digits_confident_digits in Hval.
    change (INR (Np.unique_count [0%nat])) with 1 in Hval.
    exists JS, C, C_actual, conf, plot. auto.
Defined.

Lemma INR_1000 : INR 1000 = 1000.
Proof. rewrite INR_IZR_INZ. reflexivity. Qed.

Lemma composite_lengths (classify : list R -> nat * R)
    (split_channels split_width : list R -> list R * list R * list R)
    (opts : Opts) (fake_points : batch) :
  length (map (composite_label classify split_channels split_width opts)
            (classifier_input opts fake_points))
  = length (map (all_confident classify split_channels split_width opts)
              (classifier_input opts fake_points)).
Proof. now rewrite !length_map. Qed.

Lemma confident_composites_bound (classify : list R -> nat * R)
    (split_channels split_width : list R -> list R * list R * list R)
    (opts : Opts) (fake_points : batch) :
  (forall x, In x (classifier_input opts fake_points) ->
     (fst (classify (sub1 split_channels split_width opts x)) < 10)%nat /\
     (fst (classify (sub2 split_channels split_width opts x)) < 10)%nat /\
     (fst (classify (sub3 split_channels split_width opts x)) < 10)%nat) ->
  forall d,
    In d (confident_composites classify split_channels split_width opts
            fake_points) ->
    (d < 1000)%nat.
Proof.
  intros Hlab d Hd. unfold confident_composites in Hd. apply select_In in Hd.
  apply in_map_iff in Hd. destruct Hd as (x & <- & Hx).
  unfold composite_label. destruct (Hlab x Hx) as (H1 & H2 & H3). lia.
Qed.

(** X7.  In the composite evaluator on an object without recorded losses,
    when [k], the number of distinct confident composite labels, is at most
    950, the 5th percentile of the label frequencies separates exactly the
    [1000 - k] labels that were not seen: the coverage is
    [C = 1 - (1000 - k) / 1000] and the actual coverage is
    [C_actual = k / 1000].  Read as exact reals the two are the same number;
    computed in binary64 they can differ by a rounding. *)
Theorem composite_coverage_is_actual_coverage
    (classify : list R -> nat * R)
    (split_channels split_width : list R -> list R * list R * list R)
    (self : Metrics) (opts : Opts) (step : nat)
    (real_points fake_points : batch) (validation_fake_points : option batch)
    (prefix : string) :
  fake_points <> [] -> (0 < tf_run_batch_size opts)%nat ->
  (forall x, In x (classifier_input opts fake_points) ->
     (fst (classify (sub1 split_channels split_width opts x)) < 10)%nat /\
     (fst (classify (sub2 split_channels split_width opts x)) < 10)%nat /\
     (fst (classify (sub3 split_channels split_width opts x)) < 10)%nat) ->
  In true (map (all_confident classify split_channels split_width opts)
             (classifier_input opts fake_points)) ->
  (Np.unique_count
     (confident_composites classify split_channels split_width opts
        fake_points) <= 950)%nat ->
  l2s self = None ->
  let k :=
    Np.unique_count
      (confident_composites classify split_channels split_width opts
         fake_points) in
  (exists JS conf plot,
     _evaluate_mnist3 classify split_channels split_width self opts step
       real_points fake_points validation_fake_points prefix
     = Ok (JS, 1 - INR (1000 - k) / 1000, INR k / 1000, conf, plot)) /\
  1 - INR (1000 - k) / 1000 = INR k / 1000.
Proof.
  intros Hf Hbs Hlab Hconf Hu Hl k.
  assert (E : 1 - INR (1000 - k) / 1000 = INR k / 1000).
  { rewrite <- INR_1000.
    apply occupied_fraction; [unfold k; lia | lia]. }
  split; [|exact E].
  destruct (evaluate_mnist3_returns classify split_channels split_width self
              opts step real_points fake_points validation_fake_points prefix
              Hf Hbs (or_introl Hl))
    as (plot & Hrun & _).
  rewrite mode_statistics_coverage_is_actual in Hrun.
  - rewrite INR_1000 in Hrun.
    fold (confident_composites classify split_channels split_width opts
            fake_points) in Hrun.
    fold k in Hrun. rewrite E. do 3 eexists. exact Hrun.
  - apply composite_lengths.
  - exact Hconf.
  - now apply confident_composites_bound.
  - unfold confident_composites in Hu.
    change (5 * (1000 - 1) / 100)%nat with 49%nat. lia.
Qed.

Lemma triples_123_confident :
  In true (map (all_confident pixel_classify thirds thirds mnist3_opts)
             (classifier_input mnist3_opts triples_123)).
Proof.
  left. unfold all_confident, Rgtb. simpl. decide_Rcmp. reflexivity.
Qed.

Lemma triples_123_few_modes :
  (Np.unique_count
     (confident_composites pixel_classify thirds thirds mnist3_opts
        triples_123) <= 950)%nat.
Proof.
  eapply Nat.le_trans; [apply unique_count_le_length|].
  eapply Nat.le_trans; [apply select_length_le|].
  rewrite length_map. simpl. lia.
Qed.

Lemma composite_coverage_is_actual_coverage_witness :
  let k :=
    Np.unique_count
      (confident_composites pixel_classify thirds thirds mnist3_opts
         triples_123) in
  (exists JS conf plot,
     _evaluate_mnist3 pixel_classify thirds thirds no_aux mnist3_opts 0 []
       triples_123 None EmptyString
     = Ok (JS, 1 - INR (1000 - k) / 1000, INR k / 1000, conf, plot)) /\
  1 - INR (1000 - k) / 1000 = INR k / 1000.
Proof.
  apply (composite_coverage_is_actual_coverage pixel_classify thirds thirds
           no_aux mnist3_opts 0 [] triples_123 None EmptyString).
  - discriminate.
  - simpl; lia.
  - intros x _. repeat split; apply digit_of_lt_10.
  - exact triples_123_confident.
  - exact triples_123_few_modes.
  - reflexivity.
Defined.

Lemma mode_statistics_bounds (num_cat : nat) (digits : list nat)
    (flags : list bool) :
  length digits = length flags -> In true flags -> (0 < num_cat)%nat ->
  (forall d, In d (Np.select digits flags) -> (d < num_cat)%nat) ->
  exists JS C C_actual,
    mode_statistics num_cat digits flags = (JS, C, C_actual) /\
    C <= 1 - / INR num_cat /\ 0 < C_actual <= 1.
Proof.
  intros Hlen Hconf Hn Hlab.
  rewrite (mode_statistics_some _ _ _ Hconf).
  do 3 eexists. split; [reflexivity|].
  set (x := Np.select digits flags) in *.
  assert (Hne : x <> []) by now apply select_nonempty.
  set (phat := histogram x num_cat).
  assert (Hl : length phat = num_cat) by now apply histogram_length.
  assert (Hpne : phat <> []).
  { intros E. rewrite E in Hl. simpl in Hl. lia. }
  assert (Hlow := mean_bool_lower _ (percentile_covers_smallest phat Hpne)).
  rewrite length_map, Hl in Hlow.
  assert (H1 := unique_count_pos _ Hne).
  assert (H2 := unique_count_le_bins _ num_cat Hlab).
  apply lt_0_INR in H1, Hn. apply le_INR in H2.
  split; [lra|]. split.
  - apply Rmult_lt_0_compat; [exact H1 | now apply Rinv_0_lt_compat].
  - apply Rmult_le_reg_r with (INR num_cat); [exact Hn|].
    unfold Rdiv. rewrite Rmult_assoc, Rinv_l by lra. lra.
Qed.

(** X8.  In the composite evaluator on an object without recorded losses,
    with sub-labels among the ten digits and at least one confident point,
    the evaluator returns; with the floats read as exact reals the coverage
    is at most 0.999, and the actual coverage is positive and at most 1. *)
Theorem composite_coverage_bounds
    (classify : list R -> nat * R)
    (split_channels split_width : list R -> list R * list R * list R)
    (self : Metrics) (opts : Opts) (step : nat)
    (real_points fake_points : batch) (validation_fake_points : option batch)
    (prefix : string) :
  fake_points <> [] -> (0 < tf_run_batch_size opts)%nat ->
  (forall x, In x (classifier_input opts fake_points) ->
     (fst (classify (sub1 split_channels split_width opts x)) < 10)%nat /\
     (fst (classify (sub2 split_channels split_width opts x)) < 10)%nat /\
     (fst (classify (sub3 split_channels split_width opts x)) < 10)%nat) ->
  In true (map (all_confident classify split_channels split_width opts)
             (classifier_input opts fake_points)) ->
  l2s self = None ->
  exists JS C C_actual conf plot,
    _evaluate_mnist3 classify split_channels split_width self opts step
      real_points fake_points validation_fake_points prefix
    = Ok (JS, C, C_actual, conf, plot) /\
    C <= 999 / 1000 /\ 0 < C_actual <= 1.
Proof.
  intros Hf Hbs Hlab Hconf Hl.
  destruct (evaluate_mnist3_returns classify split_channels split_width self
              opts step real_points fake_points validation_fake_points prefix
              Hf Hbs (or_introl Hl))
    as (plot & Hrun & _).
  destruct (mode_statistics_bounds 1000 _ _
              (composite_lengths classify split_channels split_width opts
                 fake_points) Hconf ltac:(lia)
              (confident_composites_bound classify split_channels split_width
                 opts fake_points Hlab))
    as (JS & C & C_actual & Hms & HC & HCa).
  rewrite Hms in Hrun. rewrite INR_1000 in HC.
  exists JS, C, C_actual. do 2 eexists. split; [exact Hrun|]. split; lra.
Qed.

Lemma composite_coverage_bounds_witness :
  exists JS C C_actual conf plot,
    _evaluate_mnist3 pixel_classify thirds thirds no_aux mnist3_opts 0 []
      triples_123 None EmptyString
    = Ok (JS, C, C_actual, conf, plot) /\
    C <= 999 / 1000 /\ 0 < C_actual <= 1.
Proof.
  apply (composite_coverage_bounds pixel_classify thirds thirds no_aux
           mnist3_opts 0 [] triples_123 None EmptyString).
  - discriminate.
  - simpl; lia.
  - intros x _. repeat split; apply digit_of_lt_10.
  - exact triples_123_confident.
  - reflexivity.
Defined.

(** ** The gallery of detected modes *)

Lemma existsb_eqb_In (d : nat) (l : list nat) :
  existsb (Nat.eqb d) l = true <-> In d l.
Proof.
  rewrite existsb_exists. split.
  - intros (y & Hy & E). apply Nat.eqb_eq in E. now subst.
  - intros H. exists d. split; [exact H | apply Nat.eqb_refl].
Qed.

(** The loop over the predictions keeps [gathered] free of duplicates, adds
    to it exactly the confident labels, and collects one fake point for each
    label it adds. *)
Lemma gather_modes_spec (digits : list nat) (flags : list bool)
    (fake_points : batch) (gathered : list nat) (points_to_plot : batch) :
  length digits = length flags -> length digits = length fake_points ->
  NoDup gathered -> length gathered = length points_to_plot ->
  let r := gather_modes digits flags fake_points gathered points_to_plot in
  NoDup (fst r) /\ length (fst r) = length (snd r) /\
  (forall d, In d (fst r) <-> In d gathered \/ In d (Np.select digits flags)) /\
  (forall x, In x (snd r) -> In x points_to_plot \/ In x fake_points).
Proof.
  revert flags fake_points gathered points_to_plot.
  induction digits as [|d digits IH];
    intros [|c flags] [|x fake] g pts Hf Hp Hnd Hlen;
    simpl in *; try discriminate.
  - split; [exact Hnd|]. split; [exact Hlen|]. split; [tauto | tauto].
  - destruct (existsb (Nat.eqb d) g) eqn:Eex; simpl.
    + apply existsb_eqb_In in Eex.
      destruct (IH flags fake g pts) as (H1 & H2 & H3 & H4); try lia; auto.
      split; [exact H1|]. split; [exact H2|]. split.
      * intros d'. rewrite H3. destruct c; simpl; [|tauto].
        split; [tauto|]. intros [Hd|[<-|Hd]]; tauto.
      * intros y Hy. destruct (H4 y Hy); tauto.
    + assert (Hnin : ~ In d g).
      { intros Hin. apply existsb_eqb_In in Hin. congruence. }
      destruct c.
      * destruct (IH flags fake (g ++ [d]) (pts ++ [x])) as (H1 & H2 & H3 & H4);
          try lia.
        -- apply NoDup_app; [exact Hnd | constructor; [intros [] | constructor] |].
           intros y Hy [<-|[]]. contradiction.
        -- rewrite !length_app. simpl. lia.
        -- split; [exact H1|]. split; [exact H2|]. split.
           ++ intros d'. rewrite H3, in_app_iff. simpl. tauto.
           ++ intros y Hy. destruct (H4 y Hy) as [Hy'|Hy']; [|tauto].
              apply in_app_or in Hy'. simpl in Hy'. tauto.
      * destruct (IH flags fake g pts) as (H1 & H2 & H3 & H4); try lia; auto.
        split; [exact H1|]. split; [exact H2|]. split; [exact H3|].
        intros y Hy. destruct (H4 y Hy); tauto.
Qed.

Lemma gallery_size (digits : list nat) (flags : list bool) (fake_points : batch) :
  length digits = length flags -> length digits = length fake_points ->
  length (snd (gather_modes digits flags fake_points [] []))
  = Np.unique_count (Np.select digits flags) /\
  incl (snd (gather_modes digits flags fake_points [] [])) fake_points.
Proof.
  intros Hf Hp.
  destruct (gather_modes_spec digits flags fake_points [] [] Hf Hp
              (NoDup_nil nat) eq_refl) as (H1 & H2 & H3 & H4).
  split.
  - rewrite <- H2. unfold Np.unique_count. apply Permutation_length.
    apply NoDup_Permutation; [exact H1 | apply NoDup_nodup|].
    intros d. rewrite nodup_In, H3. simpl. tauto.
  - intros x Hx. destruct (H4 x Hx) as [[]|H]; exact H.
Qed.

Lemma sorted_map_S (l : list nat) :
  StronglySorted lt l -> StronglySorted lt (map S l).
Proof.
  induction 1 as [|a l Hs IH Ha]; simpl; constructor; [exact IH|].
  rewrite Forall_map. eapply Forall_impl; [|exact Ha].
  intros b Hb. simpl. lia.
Qed.

(** The loop seen through the positions it picks: in increasing order, the
    positions of the confident predictions whose label is neither in
    [gathered] already nor the label of an earlier confident prediction; the
    label and the fake point of each picked position are appended. *)
Lemma gather_modes_indices (digits : list nat) (flags : list bool)
    (fake_points : batch) (gathered : list nat) (points_to_plot : batch) :
  length digits = length flags -> length digits = length fake_points ->
  exists idxs,
    gather_modes digits flags fake_points gathered points_to_plot
    = (gathered ++ map (fun i => nth i digits 0%nat) idxs,
       points_to_plot ++ map (fun i => nth i fake_points []) idxs) /\
    StronglySorted lt idxs /\
    (forall i,
       In i idxs <->
       (i < length digits)%nat /\ nth i flags false = true /\
       ~ In (nth i digits 0%nat) gathered /\
       (forall j, (j < i)%nat -> nth j flags false = true ->
                  nth j digits 0%nat <> nth i digits 0%nat)).
Proof.
  revert flags fake_points gathered points_to_plot.
  induction digits as [|d digits IH];
    intros [|c flags] [|x fake] g pts Hf Hp; simpl in Hf, Hp;
    try discriminate.
  - exists []. simpl. rewrite !app_nil_r. split; [reflexivity|].
    split; [constructor|]. intros i. split; [intros [] | intros [H _]; lia].
  - destruct (negb (existsb (Nat.eqb d) g) && c) eqn:Etake.
    + apply andb_prop in Etake. destruct Etake as [Hnew ->].
      apply negb_true_iff in Hnew.
      assert (Hnin : ~ In d g).
      { intros Hin. apply existsb_eqb_In in Hin. congruence. }
      destruct (IH flags fake (g ++ [d]) (pts ++ [x])) as (idxs & E & Hs & Hi);
        [lia | lia |].
      exists (0%nat :: map S idxs). split; [|split].
      * simpl gather_modes. rewrite Hnew. simpl negb. simpl andb. cbv iota.
        rewrite E. simpl map. rewrite !map_map, <- !app_assoc. reflexivity.
      * constructor; [now apply sorted_map_S|].
        rewrite Forall_map. apply Forall_forall. intros; lia.
      * intros [|i].
        -- split; [|intros _; now left].
           intros _. simpl. split; [lia|]. split; [reflexivity|].
           split; [exact Hnin|]. intros j Hj. lia.
        -- simpl In. split.
           ++ intros [H|H]; [discriminate|].
              apply in_map_iff in H. destruct H as (i' & Ei & H).
              injection Ei as ->. apply Hi in H.
              destruct H as (H1 & H2 & H3 & H4). simpl.
              split; [lia|]. split; [exact H2|]. split.
              ** intros Hin. apply H3, in_or_app. now left.
              ** intros [|j] Hj Hc.
                 --- intros Ed. apply H3, in_or_app. right. now left.
                 --- apply H4; [lia | exact Hc].
           ++ intros (H1 & H2 & H3 & H4). right. apply in_map. apply Hi.
              simpl in H1, H2, H3. split; [lia|]. split; [exact H2|]. split.
              ** intros Hin. apply in_app_or in Hin.
                 destruct Hin as [Hin|[Ed|[]]]; [now apply H3|].
                 apply (H4 0%nat); [lia | reflexivity | exact Ed].
              ** intros j Hj Hc. apply (H4 (S j)); [lia | exact Hc].
    + destruct (IH flags fake g pts) as (idxs & E & Hs & Hi); [lia | lia |].
      exists (map S idxs). split; [|split].
      * simpl gather_modes. rewrite Etake, E, !map_map. reflexivity.
      * now apply sorted_map_S.
      * intros [|i].
        -- split.
           ++ intros H. apply in_map_iff in H. destruct H as (i' & Ei & _).
              discriminate.
           ++ intros (_ & H2 & H3 & _). simpl in H2, H3. subst c.
              rewrite andb_true_r in Etake. apply negb_false_iff in Etake.
              apply existsb_eqb_In in Etake. contradiction.
        -- split.
           ++ intros H. apply in_map_iff in H. destruct H as (i' & Ei & H).
              injection Ei as ->. apply Hi in H.
              destruct H as (H1 & H2 & H3 & H4). simpl.
              split; [lia|]. split; [exact H2|]. split; [exact H3|].
              intros [|j] Hj Hc.
              ** simpl in Hc. subst c. rewrite andb_true_r in Etake.
                 apply negb_false_iff in Etake.
                 apply existsb_eqb_In in Etake.
                 intros Ed. apply H3. now rewrite <- Ed.
              ** apply H4; [lia | exact Hc].
           ++ intros (H1 & H2 & H3 & H4). apply in_map. apply Hi.
              simpl in H1, H2, H3. split; [lia|]. split; [exact H2|].
              split; [exact H3|].
              intros j Hj Hc. apply (H4 (S j)); [lia | exact Hc].
Qed.

Lemma nth_map_in_range {A B : Type} (f : A -> B) (l : list A) (i : nat)
    (d : B) (d' : A) :
  (i < length l)%nat -> nth i (map f l) d = f (nth i l d').
Proof.
  intros H. rewrite (nth_indep (map f l) d (f d'))
    by (now rewrite length_map).
  apply map_nth.
Qed.

Lemma make_plots_pics_points (self : Metrics) (opts : Opts) (step : nat)
    (points : batch) (prefix : string) :
  points <> [] -> l2s self = None ->
  exists p,
    _make_plots_pics self opts step points prefix = Ok p /\
    plot_prefix p = prefix /\ plot_step p = step /\
    plot_points p
    = (if string_in (dataset opts) ["mnist"; "mnist3"; "guitars"; "cifar10"]%string
          && input_normalize_sym opts
       then rescale_to_unit points else points).
Proof.
  intros Hne Hl. unfold _make_plots_pics.
  rewrite (plot_auxiliary_none self Hl).
  destruct points as [|x pts]; [congruence|].
  destruct (string_in (dataset opts) _ && input_normalize_sym opts);
    simpl; eexists; repeat split; reflexivity.
Qed.

(** X9.  On an object without recorded losses and with a confident
    prediction, the single-label evaluator asks for one picture, prefixed
    [modes_], of the fake points at the positions [idxs]: in increasing
    order, exactly the positions whose prediction is confident and whose
    digit is not the digit of an earlier confident prediction.  Each
    pictured point is the point that was fed to the classifier at that
    position, scaled back as the evaluator does (l.215-221) and scaled
    again as the plotting routine does (l.478-483).  There is one position
    for each distinct confident digit, so that [C_actual] is the number of
    pictured points over 10. *)
Theorem single_label_gallery_shows_each_mode_once
    (classify : list R -> nat * R) (self : Metrics) (opts : Opts) (step : nat)
    (real_points fake_points : batch) (validation_fake_points : option batch)
    (prefix : string) :
  fake_points <> [] -> (0 < tf_run_batch_size opts)%nat ->
  In true (confident_flags classify opts fake_points) ->
  l2s self = None ->
  let fed := classifier_input opts fake_points in
  let digit := fun i => fst (classify (nth i fed [])) in
  let confident := fun i =>
    Rgtb (snd (classify (nth i fed []))) (digit_classification_threshold opts)
    = true in
  let back := if input_normalize_sym opts then rescale_to_sym fed else fed in
  let drawn :=
    if string_in (dataset opts) ["mnist"; "mnist3"; "guitars"; "cifar10"]%string
       && input_normalize_sym opts
    then rescale_to_unit back else back in
  exists JS C C_actual conf p idxs,
    _evaluate_mnist classify self opts step real_points fake_points
      validation_fake_points prefix
    = Ok (JS, C, C_actual, conf, Some p) /\
    plot_prefix p = "modes_"%string /\ plot_step p = step /\
    plot_points p = map (fun i => nth i drawn []) idxs /\
    StronglySorted lt idxs /\
    (forall i,
       In i idxs <->
       (i < length fake_points)%nat /\ confident i /\
       (forall j, (j < i)%nat -> confident j -> digit j <> digit i)) /\
    length idxs
    = Np.unique_count (confident_digits classify opts fake_points) /\
    C_actual = INR (length idxs) / 10.
Proof.
  intros Hf Hbs Hconf Hl fed digit confident back drawn.
  rewrite evaluate_mnist_unfold by assumption. cbv zeta.
  fold fed. fold back.
  assert (Hfed : length fed = length fake_points).
  { unfold fed, classifier_input, rescale_to_unit.
    destruct (input_normalize_sym opts); [apply length_map | reflexivity]. }
  assert (Hback : length back = length fed).
  { unfold back, rescale_to_sym.
    destruct (input_normalize_sym opts); [apply length_map | reflexivity]. }
  assert (Hd : length (predicted_digits classify opts fake_points)
               = length (confident_flags classify opts fake_points))
    by apply predicted_lengths.
  assert (Hp : length (predicted_digits classify opts fake_points)
               = length back).
  { rewrite Hback. unfold predicted_digits. fold fed. apply length_map. }
  destruct (gallery_size _ _ back Hd Hp) as [Hsize _].
  destruct (gather_modes_indices _ _ back [] [] Hd Hp)
    as (idxs & Eg & Hsorted & Hidx).
  rewrite Eg in Hsize |- *. simpl app in Hsize |- *. simpl snd in Hsize.
  rewrite length_map in Hsize.
  assert (Hpos : (0 < length idxs)%nat).
  { rewrite Hsize. apply unique_count_pos, select_nonempty;
      [exact Hd | exact Hconf]. }
  assert (Hne : map (fun i => nth i back []) idxs <> []).
  { destruct idxs; [simpl in Hpos; lia | discriminate]. }
  destruct (make_plots_pics_points self opts step _ "modes_" Hne Hl)
    as (p & Hrun & Hprefix & Hstep & Hpoints).
  destruct (map (fun i => nth i back []) idxs) as [|y pts] eqn:Epts;
    [congruence|].
  rewrite <- Epts in *. rewrite Hrun. simpl bind.
  rewrite (mode_statistics_some _ _ _ Hconf).
  exists (js_div_uniform (predicted_digits classify opts fake_points) 10).
  do 3 eexists. exists p, idxs. split; [reflexivity|].
  split; [exact Hprefix|]. split; [exact Hstep|].
  assert (Hlen : length (predicted_digits classify opts fake_points)
                 = length fake_points).
  { rewrite Hp, Hback. exact Hfed. }
  assert (Hdigit : forall i, (i < length fake_points)%nat ->
            nth i (predicted_digits classify opts fake_points) 0%nat = digit i).
  { intros i Hi. unfold predicted_digits, digit. fold fed.
    apply (nth_map_in_range (fun x => fst (classify x))).
    now rewrite Hfed. }
  assert (Hflag : forall i, (i < length fake_points)%nat ->
            nth i (confident_flags classify opts fake_points) false
            = Rgtb (snd (classify (nth i fed [])))
                (digit_classification_threshold opts)).
  { intros i Hi. unfold confident_flags. fold fed.
    apply (nth_map_in_range
             (fun x => Rgtb (snd (classify x))
                         (digit_classification_threshold opts))).
    now rewrite Hfed. }
  split; [|split; [exact Hsorted|split; [|split]]].
  - rewrite Hpoints. unfold drawn.
    destruct (string_in (dataset opts) _ && input_normalize_sym opts);
      [|reflexivity].
    unfold rescale_to_unit. rewrite map_map. apply map_ext_in.
    intros i Hi. apply Hidx in Hi. destruct Hi as (Hi & _).
    symmetry. apply (nth_map_in_range _ back i [] []).
    rewrite Hback, Hfed, <- Hlen. exact Hi.
  - intros i. rewrite Hidx, Hlen. split.
    + intros (H1 & H2 & _ & H4). split; [exact H1|]. split.
      * unfold confident. rewrite <- Hflag by exact H1. exact H2.
      * intros j Hj Hc. rewrite <- !Hdigit by lia. apply H4; [exact Hj|].
        rewrite Hflag by lia. exact Hc.
    + intros (H1 & H2 & H4). split; [exact H1|]. split.
      * rewrite Hflag by exact H1. exact H2.
      * split; [intros []|]. intros j Hj Hc. rewrite !Hdigit by lia.
        apply H4; [exact Hj|]. unfold confident. rewrite <- Hflag by lia.
        exact Hc.
  - exact Hsize.
  - rewrite Hsize. replace (INR 10) with 10 by (simpl; lra). reflexivity.
Qed.

Lemma single_label_gallery_shows_each_mode_once_witness :
  exists JS C C_actual conf p idxs,
    _evaluate_mnist pixel_classify no_aux mnist_opts 7 [] ten_digits None
      EmptyString
    = Ok (JS, C, C_actual, conf, Some p) /\
    plot_prefix p = "modes_"%string /\ plot_step p = 7%nat /\
    plot_points p = map (fun i => nth i ten_digits []) idxs /\
    length idxs = 1%nat /\
    C_actual = INR (length idxs) / 10.
Proof.
  destruct (single_label_gallery_shows_each_mode_once pixel_classify no_aux
              mnist_opts 7 [] ten_digits None EmptyString)
    as (JS & C & C_actual & conf & p & idxs & Hrun & H1 & H2 & H3 & _ & _
        & H6 & H7).
  - discriminate.
  - simpl; lia.
  - exact ten_digits_confident.
  - reflexivity.
  - rewrite ten_digits_confident_digits in H6.
    exists JS, C, C_actual, conf, p, idxs. repeat split; auto.
Defined.

(** ** Translation of all points *)

Lemma map2_plus_length (x t : list R) :
  length x = length t -> length (map2 Rplus x t) = length t.
Proof. intros H. rewrite map2_length. lia. Qed.

Lemma map2_minus_translated (x y t : list R) :
  length x = length t -> length y = length t ->
  map2 Rminus (map2 Rplus x t) (map2 Rplus y t) = map2 Rminus x y.
Proof.
  revert x y. induction t as [|c t IH]; intros [|a x] [|b y] Hx Hy;
    simpl in *; try discriminate; try reflexivity.
  f_equal; [ring | apply IH; lia].
Qed.

Lemma sqdist_translated (x y t : list R) :
  length x = length t -> length y = length t ->
  KDE.sqdist (map2 Rplus x t) (map2 Rplus y t) = KDE.sqdist x y.
Proof.
  unfold KDE.sqdist.
  revert x y. induction t as [|c t IH]; intros [|a x] [|b y] Hx Hy;
    simpl in *; try discriminate; try reflexivity.
  rewrite IH by lia. ring.
Qed.

Lemma map2_map_ext {A B C : Type} (g : B -> B -> C) (f : A -> B)
    (h : A -> A -> C) (l1 l2 : list A) :
  (forall a b, In a l1 -> In b l2 -> g (f a) (f b) = h a b) ->
  map2 g (map f l1) (map f l2) = map2 h l1 l2.
Proof.
  revert l2. induction l1 as [|a l1 IH]; intros [|b l2] H; simpl;
    try reflexivity.
  f_equal; [apply H; now left | apply IH; intros; apply H; now right].
Qed.

Lemma removelast_map {A B : Type} (f : A -> B) (l : list A) :
  removelast (map f l) = map f (removelast l).
Proof.
  induction l as [|a l IH]; [reflexivity|].
  destruct l as [|b l]; [reflexivity|].
  change (map f (a :: b :: l)) with (f a :: map f (b :: l)).
  change (removelast (f a :: map f (b :: l)))
    with (match map f (b :: l) with
          | [] => []
          | _ => f a :: removelast (map f (b :: l))
          end).
  simpl map at 1. rewrite IH. reflexivity.
Qed.

Lemma In_removelast {A : Type} (l : list A) (x : A) :
  In x (removelast l) -> In x l.
Proof.
  induction l as [|a l IH]; [auto|].
  destruct l as [|b l]; [intros []|].
  change (removelast (a :: b :: l)) with (a :: removelast (b :: l)).
  intros [<-|H]; [now left | right; now apply IH].
Qed.

Lemma tl_map {A B : Type} (f : A -> B) (l : list A) :
  tl (map f l) = map f (tl l).
Proof. destruct l; reflexivity. Qed.

Lemma In_tl {A : Type} (l : list A) (x : A) : In x (tl l) -> In x l.
Proof. destruct l; simpl; auto. Qed.

Section Translation.

Variable t : list R.

Lemma consecutive_dist_translated (X : batch) :
  rows_of_dim (length t) X ->
  consecutive_dist (translate t X) = consecutive_dist X.
Proof.
  intros HX. unfold consecutive_dist, translate.
  rewrite removelast_map, tl_map. apply map2_map_ext.
  intros a b Ha Hb. rewrite map2_minus_translated; [reflexivity | |].
  - apply HX. now apply In_removelast.
  - apply HX. now apply In_tl.
Qed.

Lemma dim_translated (X : batch) :
  rows_of_dim (length t) X -> KDE.dim (translate t X) = KDE.dim X.
Proof.
  intros HX. destruct X as [|x X]; [reflexivity|]. simpl.
  rewrite map2_length, (HX x (or_introl eq_refl)). lia.
Qed.

Lemma log_density_translated (h : R) (X : batch) (x : list R) :
  rows_of_dim (length t) X -> length x = length t ->
  KDE.log_density h (translate t X) (map2 Rplus x t) = KDE.log_density h X x.
Proof.
  intros HX Hx. unfold KDE.log_density.
  rewrite (dim_translated X HX). unfold translate at 1 2.
  rewrite length_map, map_map. do 3 f_equal.
  apply map_ext_in. intros xi Hxi.
  rewrite sqdist_translated; [reflexivity | exact Hx | now apply HX].
Qed.

Lemma score_samples_translated (h : R) (X P : batch) :
  rows_of_dim (length t) X -> rows_of_dim (length t) P ->
  KDE.score_samples h (translate t X) (translate t P)
  = KDE.score_samples h X P.
Proof.
  intros HX HP. unfold KDE.score_samples, translate at 2.
  rewrite map_map. apply map_ext_in. intros x Hx.
  apply log_density_translated; [exact HX | now apply HP].
Qed.

Lemma reshape_rows_translated (X : batch) :
  reshape_rows (translate t X)
  = (Y <- reshape_rows X ;; Ok (translate t Y)).
Proof. destruct X; reflexivity. Qed.

Lemma grid_search_translated (F V : batch) (grid : list R) (st : R * R) :
  rows_of_dim (length t) F -> rows_of_dim (length t) V ->
  grid_search (translate t F) (translate t V) grid st
  = grid_search F V grid st.
Proof.
  intros HF HV. revert st. induction grid as [|g grid IH]; intros st;
    [reflexivity|].
  simpl grid_search. destruct (KDE.init g) as [h| |]; simpl bind; try reflexivity.
  rewrite !reshape_rows_translated.
  destruct (reshape_rows F) as [F'| |] eqn:EF; simpl bind; try reflexivity.
  destruct (reshape_rows V) as [V'| |] eqn:EV; simpl bind; try reflexivity.
  assert (F' = F) by (destruct F; [discriminate | now injection EF]).
  assert (V' = V) by (destruct V; [discriminate | now injection EV]).
  subst F' V'. rewrite score_samples_translated by assumption. apply IH.
Qed.

Lemma select_bandwidth_translated (F : batch) (V : option batch) :
  rows_of_dim (length t) F ->
  (forall v, V = Some v -> rows_of_dim (length t) v) ->
  select_bandwidth (translate t F) (option_map (translate t) V)
  = select_bandwidth F V.
Proof.
  intros HF HV. unfold select_bandwidth.
  rewrite consecutive_dist_translated by exact HF.
  destruct (Np.median (consecutive_dist F)) as [b|]; destruct V as [v|];
    unfold option_map; cbv iota.
  - rewrite grid_search_translated; [reflexivity | exact HF | now apply HV].
  - reflexivity.
  - rewrite !reshape_rows_translated.
    destruct F; [reflexivity|]. destruct v; reflexivity.
  - reflexivity.
Qed.

End Translation.

(** X10.  The result of the continuous evaluator, be it a pair or an error, is the
    same when the real, the fake and the validation points are all moved by
    one vector: the metrics depend on the relative positions only. *)
Theorem evaluate_vec_translation_invariant (t : list R) (self : Metrics)
    (opts : Opts) (step : nat) (real_points fake_points : batch)
    (validation_fake_points : option batch) (prefix : string) :
  rows_of_dim (length t) real_points ->
  rows_of_dim (length t) fake_points ->
  (forall v, validation_fake_points = Some v -> rows_of_dim (length t) v) ->
  _evaluate_vec self opts step (translate t real_points)
    (translate t fake_points) (option_map (translate t) validation_fake_points)
    prefix
  = _evaluate_vec self opts step real_points fake_points
      validation_fake_points prefix.
Proof.
  intros HR HF HV. unfold _evaluate_vec, _evaluate_vec_core.
  rewrite select_bandwidth_translated by assumption.
  destruct (select_bandwidth fake_points validation_fake_points)
    as [[b|]| |]; simpl bind; try reflexivity.
  - destruct (KDE.init b) as [h| |]; simpl bind; try reflexivity.
    rewrite !reshape_rows_translated.
    destruct (reshape_rows fake_points) as [F'| |] eqn:EF; simpl bind;
      try reflexivity.
    destruct (reshape_rows real_points) as [R'| |] eqn:ER; simpl bind;
      try reflexivity.
    assert (F' = fake_points)
      by (destruct fake_points; [discriminate | now injection EF]).
    assert (R' = real_points)
      by (destruct real_points; [discriminate | now injection ER]).
    subst F' R'. rewrite !score_samples_translated by assumption. reflexivity.
  - rewrite !reshape_rows_translated.
    destruct fake_points; [reflexivity|]. destruct real_points; reflexivity.
Qed.

Lemma evaluate_vec_translation_invariant_witness :
  _evaluate_vec no_aux gmm_opts 0 (translate [5] [[0]; [3]])
    (translate [5] unit_fake) (option_map (translate [5]) (Some [[2]]))
    EmptyString
  = _evaluate_vec no_aux gmm_opts 0 [[0]; [3]] unit_fake (Some [[2]])
      EmptyString.
Proof.
  apply (evaluate_vec_translation_invariant [5] no_aux gmm_opts 0 [[0]; [3]]
           unit_fake (Some [[2]]) EmptyString).
  - intros x [<-|[<-|[]]]; reflexivity.
  - intros x [<-|[<-|[]]]; reflexivity.
  - intros v E. injection E as <-. intros x [<-|[]]. reflexivity.
Defined.

(** * Properties of the plotting methods *)

(** ** File names *)

Lemma append_inv_head (s a b : string) :
  (s ++ a)%string = (s ++ b)%string -> a = b.
Proof.
  induction s as [|c s IH]; simpl; intros H; [exact H|].
  injection H as H. now apply IH.
Qed.

Lemma string_length_append (a b : string) :
  String.length (a ++ b) = (String.length a + String.length b)%nat.
Proof. induction a as [|c a IH]; simpl; [reflexivity | now rewrite IH]. Qed.

Lemma append_inv_tail (a b t : string) :
  (a ++ t)%string = (b ++ t)%string -> a = b.
Proof.
  revert b. induction a as [|c a IH]; intros [|c' b] H; simpl in H.
  - reflexivity.
  - apply (f_equal String.length) in H. simpl in H.
    rewrite string_length_append in H. lia.
  - apply (f_equal String.length) in H. simpl in H.
    rewrite string_length_append in H. lia.
  - injection H as -> H. f_equal. now apply IH.
Qed.

Lemma read_d_zero_pad (k : nat) (s : string) :
  read_d (zero_pad k s) = read_d s.
Proof.
  induction k as [|k IH]; [reflexivity|].
  rewrite <- IH. unfold read_d. simpl.
  destruct (NilEmpty.uint_of_string (zero_pad k s)); reflexivity.
Qed.

(** The number can be read back from its padded digits. *)
Lemma read_d_format_d (width n : nat) : read_d (format_d width n) = Some n.
Proof.
  unfold format_d. rewrite read_d_zero_pad. unfold read_d.
  rewrite NilEmpty.usu. simpl. now rewrite DecimalNat.Unsigned.of_to.
Qed.

(** X11.  The plots of different steps go to different files, whatever the
    width of the step number in the name; and the file of the mixture is
    never the file of the weights, whatever the two steps, equal or not. *)
Theorem plot_file_names_distinct (prefix stem : string) (width step step' : nat) :
  (step <> step' ->
   plot_file_name prefix stem width step
   <> plot_file_name prefix stem width step') /\
  plot_file_name prefix "mixture" width step
  <> plot_file_name prefix "weights" width step'.
Proof.
  unfold plot_file_name. split; [intros Hne H | intros H].
  - apply append_inv_head, append_inv_head, append_inv_tail in H.
    apply (f_equal read_d) in H. rewrite !read_d_format_d in H. congruence.
  - apply append_inv_head in H. discriminate H.
Qed.

Lemma plot_file_names_distinct_witness :
  plot_file_name "run_" "mixture" 2 7 <> plot_file_name "run_" "mixture" 2 123
  /\ plot_file_name "run_" "mixture" 2 7 <> plot_file_name "run_" "weights" 2 7.
Proof.
  split.
  - apply (plot_file_names_distinct "run_" "mixture" 2 7 123). lia.
  - apply (plot_file_names_distinct "run_" "mixture" 2 7 7).
Defined.

(** ** The two-dimensional and the one-dimensional plot *)

Lemma reshape_cols_ok (k : nat) (points : batch) :
  rows_of_dim k points -> reshape_cols k points = Ok points.
Proof.
  intros H. unfold reshape_cols.
  replace (forallb (fun x => (length x =? k)%nat) points) with true;
    [reflexivity|].
  symmetry. apply forallb_forall. intros x Hx. apply Nat.eqb_eq. now apply H.
Qed.

Lemma reshape_cols_bad (k : nat) (points : batch) (x : list R) :
  In x points -> length x <> k -> reshape_cols k points = Raise ValueError.
Proof.
  intros Hx Hk. unfold reshape_cols.
  destruct (forallb (fun x => (length x =? k)%nat) points) eqn:E;
    [|reflexivity].
  rewrite forallb_forall in E. specialize (E x Hx). apply Nat.eqb_eq in E.
  contradiction.
Qed.

(** X12.  On points with two coordinates, the two-dimensional plot saves the file
    of the mixture first; weights of the length of the real batch add the
    file of the weights, weights of another length make the assertion fail
    after the first file has been saved. *)
Theorem make_plots_2d_saves_before_assertion (opts : Opts) (popts : PlotOpts)
    (step : nat) (real_points fake_points : batch)
    (weights : option (list R)) (prefix : string) :
  rows_of_dim 2 real_points -> rows_of_dim 2 fake_points ->
  _make_plots_2d opts popts step (Some real_points) (Some fake_points) weights
    prefix
  = match weights with
    | None =>
        ([{| file_dir := work_dir popts;
             file_name := plot_file_name prefix "mixture" 2 step |}], Ok tt)
    | Some w =>
        if (length w =? length real_points)%nat
        then ([{| file_dir := work_dir popts;
                  file_name := plot_file_name prefix "mixture" 2 step |};
               {| file_dir := work_dir popts;
                  file_name := plot_file_name prefix "weights" 2 step |}],
              Ok tt)
        else ([{| file_dir := work_dir popts;
                  file_name := plot_file_name prefix "mixture" 2 step |}],
              Raise (AssertionError EmptyString))
    end.
Proof.
  intros Hr Hf. unfold _make_plots_2d.
  rewrite (reshape_cols_ok 2 real_points Hr), (reshape_cols_ok 2 fake_points Hf).
  destruct weights as [w|]; [|reflexivity].
  destruct (length w =? length real_points)%nat; reflexivity.
Qed.

Lemma make_plots_2d_saves_before_assertion_witness :
  _make_plots_2d gmm_opts toy_plot_opts 3 (Some [[0; 1]; [2; 3]])
    (Some [[1; 1]]) (Some [5]) EmptyString
  = ([{| file_dir := "results_gmm"; file_name := "mixture03.png" |}],
     Raise (AssertionError EmptyString)).
Proof.
  rewrite (make_plots_2d_saves_before_assertion gmm_opts toy_plot_opts 3
             [[0; 1]; [2; 3]] [[1; 1]] (Some [5]) EmptyString).
  - reflexivity.
  - intros x [<-|[<-|[]]]; reflexivity.
  - intros x [<-|[]]; reflexivity.
Defined.

(** X13.  Points that do not have two coordinates make the reshape fail, and no
    file is saved. *)
Theorem make_plots_2d_rejects_other_dimensions (opts : Opts) (popts : PlotOpts)
    (step : nat) (real_points fake_points : batch)
    (weights : option (list R)) (prefix : string) (x : list R) :
  In x real_points \/ In x fake_points -> length x <> 2%nat ->
  _make_plots_2d opts popts step (Some real_points) (Some fake_points) weights
    prefix
  = ([], Raise ValueError).
Proof.
  intros Hx Hlen. unfold _make_plots_2d.
  destruct Hx as [Hx|Hx].
  - now rewrite (reshape_cols_bad 2 real_points x Hx Hlen).
  - rewrite (reshape_cols_bad 2 fake_points x Hx Hlen).
    unfold reshape_cols.
    destruct (forallb (fun x0 => (length x0 =? 2)%nat) real_points); reflexivity.
Qed.

Lemma make_plots_2d_rejects_other_dimensions_witness :
  _make_plots_2d gmm_opts toy_plot_opts 3 (Some [[0; 1]]) (Some unit_fake)
    None EmptyString
  = ([], Raise ValueError).
Proof.
  apply (make_plots_2d_rejects_other_dimensions gmm_opts toy_plot_opts 3
           [[0; 1]] unit_fake None EmptyString [0]).
  - right. left. reflexivity.
  - simpl. lia.
Defined.

(** ** The choice of the plotting routine *)

(** X14.  Picture datasets that the evaluator does not know are still plotted:
    for guitars and cifar10 [make_plots] draws the mosaic while [evaluate]
    returns [None]. Among the kinds the evaluator knows, only the toy
    datasets of another dimension than 1 or 2 (gmm) or 2 (circle_gmm) are
    not plotted. *)
Theorem plotted_and_evaluated_kinds
    (classify : list R -> nat * R)
    (split_channels split_width : list R -> list R * list R * list R)
    (self : Metrics) (opts : Opts) (popts : PlotOpts) (step : nat)
    (real_points fake_points : batch) (validation_fake_points : option batch)
    (prefix : string) :
  (dataset opts = "guitars"%string \/ dataset opts = "cifar10"%string ->
   make_plots_route opts popts = PlotPics /\
   evaluate classify split_channels split_width self opts step real_points
     fake_points validation_fake_points prefix = Ok (None, None)) /\
  (In (dataset opts) supported_kinds ->
   (make_plots_route opts popts = NoPlot <->
    (dataset opts = "gmm"%string /\ toy_dataset_dim popts <> 1%nat
     /\ toy_dataset_dim popts <> 2%nat)
    \/ (dataset opts = "circle_gmm"%string /\ toy_dataset_dim popts <> 2%nat))).
Proof.
  split.
  - intros [E|E]; unfold make_plots_route, evaluate; rewrite E; split;
      reflexivity.
  - unfold supported_kinds. simpl.
    intros [E|[E|[E|[E|[]]]]]; unfold make_plots_route; rewrite <- E; simpl.
    + destruct (Nat.eqb_spec (toy_dataset_dim popts) 1);
        destruct (Nat.eqb_spec (toy_dataset_dim popts) 2); split;
        try discriminate; try tauto; try lia;
        intros [(_ & H1 & H2)|(H & _)]; try tauto; try discriminate.
    + destruct (Nat.eqb_spec (toy_dataset_dim popts) 2); split;
        try discriminate; try tauto;
        intros [(H & _)|(_ & H)]; try tauto; try discriminate.
    + split; [discriminate|]. intros [(H & _)|(H & _)]; discriminate.
    + split; [discriminate|]. intros [(H & _)|(H & _)]; discriminate.
Qed.

Lemma plotted_and_evaluated_kinds_witness :
  make_plots_route guitars_opts toy_plot_opts = PlotPics /\
  evaluate pixel_classify thirds thirds no_aux guitars_opts 0 [[0]] unit_fake
    None EmptyString = Ok (None, None).
Proof.
  destruct (plotted_and_evaluated_kinds pixel_classify thirds thirds no_aux
              guitars_opts toy_plot_opts 0 [[0]] unit_fake None EmptyString)
    as [H _].
  apply H. left. reflexivity.
Defined.

(** ** The curve of the losses *)

Lemma fold_left_Rmin_le_init (l : list R) (x : R) : fold_left Rmin l x <= x.
Proof.
  revert x. induction l as [|y l IH]; intros x; simpl; [lra|].
  eapply Rle_trans; [apply IH | apply Rmin_l].
Qed.

Lemma fold_left_Rmin_le (l : list R) (x y : R) :
  In y l -> fold_left Rmin l x <= y.
Proof.
  revert x. induction l as [|z l IH]; intros x Hy; [destruct Hy|].
  simpl. destruct Hy as [->|Hy].
  - eapply Rle_trans; [apply fold_left_Rmin_le_init | apply Rmin_r].
  - now apply IH.
Qed.

Lemma py_min_lower_bound (l : list R) (m : R) :
  py_min l = Ok m -> forall v, In v l -> m <= v.
Proof.
  destruct l as [|x l]; [discriminate|]. simpl. intros H. injection H as <-.
  intros v [<-|Hv]; [apply fold_left_Rmin_le_init | now apply fold_left_Rmin_le].
Qed.

(** X15.  The curve of the losses is drawn on a logarithmic scale after a shift
    that keeps every argument of the logarithm at or above [1e-07], whatever
    the sign of the losses; without any recorded loss the minimum does not
    exist and the call raises. *)
Theorem loss_curve_log_arguments_positive (l2s : list R) (popts : PlotOpts) :
  l2s <> [] ->
  exists m,
    py_min l2s = Ok m /\
    loss_curve l2s popts
    = Ok (map (fun i => INR i * INR (plot_every popts)) (seq 1 (length l2s)),
          map (fun v => ln (1 / 10000000 + loss_curve_shift m + v)) l2s) /\
    (forall v, In v l2s -> 1 / 10000000 <= 1 / 10000000 + loss_curve_shift m + v) /\
    loss_curve [] popts = Raise ValueError.
Proof.
  intros Hne. destruct l2s as [|x l] eqn:E; [congruence|]. rewrite <- E.
  assert (Hm : exists m, py_min l2s = Ok m) by (subst; simpl; eauto).
  destruct Hm as (m & Hm). exists m. split; [exact Hm|]. split; [|split].
  - unfold loss_curve. rewrite Hm. reflexivity.
  - intros v Hv. assert (Hle := py_min_lower_bound l2s m Hm v Hv).
    unfold loss_curve_shift. destruct (Rleb 0 m) eqn:Em.
    + apply Rleb_true_iff in Em. lra.
    + apply Rleb_false_iff in Em. rewrite Rabs_left by exact Em. lra.
  - reflexivity.
Qed.

Lemma loss_curve_log_arguments_positive_witness :
  exists m,
    py_min [2; -3; 1] = Ok m /\
    loss_curve [2; -3; 1] toy_plot_opts
    = Ok (map (fun i => INR i * INR (plot_every toy_plot_opts)) (seq 1 3),
          map (fun v => ln (1 / 10000000 + loss_curve_shift m + v)) [2; -3; 1]) /\
    (forall v, In v [2; -3; 1] ->
       1 / 10000000 <= 1 / 10000000 + loss_curve_shift m + v) /\
    loss_curve [] toy_plot_opts = Raise ValueError.
Proof.
  apply (loss_curve_log_arguments_positive [2; -3; 1] toy_plot_opts).
  discriminate.
Defined.

(** ** The picture of a triple of digits *)

Lemma three_slices_of_28 {A : Type} (row : list A) :
  slice row 0 28 ++ slice row 28 56 ++ slice row 56 84 = firstn 84 row.
Proof.
  unfold slice. change (28 - 0)%nat with 28%nat.
  change (56 - 28)%nat with 28%nat. change (84 - 56)%nat with 28%nat.
  change (skipn 0 row) with row.
  replace (skipn 56 row) with (skipn 28 (skipn 28 row))
    by (rewrite skipn_skipn; reflexivity).
  rewrite (firstn_skipn_add (skipn 28 row) 28 28).
  rewrite (firstn_skipn_add row 28 (28 + 28)). reflexivity.
Qed.

(** X16.  The picture of a triple of digits laid out side by side is the
    inverted point itself, cut after 84 columns: slicing it in three digits
    of 28 columns and putting them together again changes nothing. *)
Theorem pic_mnist3_width_is_inverted_crop (x : list (list (list R))) :
  pic_mnist3_width x
  = map (fun row => map (map (fun v => 1 - v)) (firstn 84 row)) x.
Proof.
  unfold pic_mnist3_width. rewrite map3_map, map_map.
  apply map_ext. intros row. now rewrite three_slices_of_28.
Qed.

(** ** The curve of the weights in the one-dimensional plot *)

Lemma pair_leb_true (p q : R * R) : pair_leb p q = true -> fst p <= fst q.
Proof.
  unfold pair_leb. intros H. apply orb_true_iff in H. destruct H as [H|H].
  - apply Rltb_true_iff in H. lra.
  - apply andb_true_iff in H. destruct H as [H _].
    destruct (Req_dec_T (fst p) (fst q)); [lra | discriminate].
Qed.

Lemma pair_leb_false (p q : R * R) : pair_leb p q = false -> fst q <= fst p.
Proof.
  unfold pair_leb. intros H. apply orb_false_iff in H. destruct H as [H _].
  apply Rltb_false_iff in H. lra.
Qed.

Lemma insert_pair_perm (p : R * R) (l : list (R * R)) :
  Permutation (p :: l) (insert_pair p l).
Proof.
  induction l as [|q l IH]; simpl.
  - apply Permutation_refl.
  - destruct (pair_leb p q).
    + apply Permutation_refl.
    + apply perm_trans with (q :: p :: l); [apply perm_swap|].
      now apply perm_skip.
Qed.

Lemma sorted_pairs_perm (l : list (R * R)) : Permutation l (sorted_pairs l).
Proof.
  induction l as [|p l IH]; simpl.
  - apply perm_nil.
  - apply perm_trans with (p :: sorted_pairs l).
    + now apply perm_skip.
    + apply insert_pair_perm.
Qed.

Lemma insert_pair_ascending (p : R * R) (l : list (R * R)) :
  ascending (map fst l) -> ascending (map fst (insert_pair p l)).
Proof.
  induction l as [|q l IH]; simpl; intros Hl.
  - constructor; [intros y [] | constructor].
  - inversion Hl as [|x l' Hq Hl' E]; subst.
    destruct (pair_leb p q) eqn:Hpq; simpl.
    + apply pair_leb_true in Hpq.
      constructor; [|exact Hl].
      intros y [<-|Hy]; [exact Hpq|].
      apply Rle_trans with (fst q); [exact Hpq | now apply Hq].
    + apply pair_leb_false in Hpq.
      constructor; [|now apply IH].
      intros y Hy.
      assert (Hy' : In y (map fst (p :: l))).
      { eapply Permutation_in; [|exact Hy].
        apply Permutation_sym, Permutation_map, insert_pair_perm. }
      destruct Hy' as [<-|Hy']; [exact Hpq | now apply Hq].
Qed.

Lemma sorted_pairs_ascending (l : list (R * R)) :
  ascending (map fst (sorted_pairs l)).
Proof.
  induction l as [|p l IH]; simpl; [constructor | now apply insert_pair_ascending].
Qed.

(** An array has one ascending arrangement. *)
Lemma ascending_perm_eq (l1 l2 : list R) :
  ascending l1 -> ascending l2 -> Permutation l1 l2 -> l1 = l2.
Proof.
  intros H1. revert l2. induction H1 as [|x l1 Hx Hl1 IH]; intros l2 H2 HP.
  - apply Permutation_nil in HP. now subst.
  - destruct H2 as [|y l2 Hy Hl2].
    + apply Permutation_sym, Permutation_nil in HP. discriminate.
    + assert (Exy : x = y).
      { assert (Hx2 : In x (y :: l2))
          by (eapply Permutation_in; [exact HP | now left]).
        assert (Hy1 : In y (x :: l1))
          by (eapply Permutation_in; [apply Permutation_sym, HP | now left]).
        destruct Hx2 as [E|Hx2]; [now symmetry|].
        destruct Hy1 as [E|Hy1]; [exact E|].
        apply Rle_antisym; [now apply Hx | now apply Hy]. }
      subst y. f_equal. apply IH; [exact Hl2|].
      now apply Permutation_cons_inv with x.
Qed.

Lemma map_fst_combine_same_length (a b : list R) :
  length a = length b -> map fst (combine a b) = a.
Proof.
  revert b. induction a as [|x a IH]; intros [|y b] H; simpl in *;
    try discriminate; auto.
  f_equal. apply IH. lia.
Qed.

Lemma map_snd_combine_same_length (a b : list R) :
  length a = length b -> map snd (combine a b) = b.
Proof.
  revert b. induction a as [|x a IH]; intros [|y b] H; simpl in *;
    try discriminate; auto.
  f_equal. apply IH. lia.
Qed.

Lemma combine_fst_snd (l : list (R * R)) : combine (map fst l) (map snd l) = l.
Proof.
  induction l as [|[x y] l IH]; simpl; [reflexivity | now rewrite IH].
Qed.

(** The first components of the sorted pairs are the sorted points. *)
Lemma sorted_pairs_abscissas (real w : list R) :
  length real = length w ->
  map fst (sorted_pairs (combine real w)) = Np.sort real.
Proof.
  intros H. apply ascending_perm_eq.
  - apply sorted_pairs_ascending.
  - apply sort_ascending.
  - apply perm_trans with real; [|apply sort_perm].
    apply perm_trans with (map fst (combine real w)).
    + apply Permutation_sym, Permutation_map, sorted_pairs_perm.
    + rewrite (map_fst_combine_same_length real w H). apply Permutation_refl.
Qed.

Lemma fold_left_Rmax_ge_init (l : list R) (a : R) : a <= fold_left Rmax l a.
Proof.
  revert a. induction l as [|x l IH]; intros a; simpl; [lra|].
  apply Rle_trans with (Rmax a x); [apply Rmax_l | apply IH].
Qed.

Lemma fold_left_Rmax_ge (l : list R) (a y : R) :
  In y l -> y <= fold_left Rmax l a.
Proof.
  revert a. induction l as [|x l IH]; intros a; simpl; [intros []|].
  intros [<-|Hy].
  - apply Rle_trans with (Rmax a x); [apply Rmax_r | apply fold_left_Rmax_ge_init].
  - now apply IH.
Qed.

Lemma fold_left_Rmax_In (l : list R) (a : R) :
  fold_left Rmax l a = a \/ In (fold_left Rmax l a) l.
Proof.
  revert a. induction l as [|x l IH]; intros a; simpl; [now left|].
  destruct (IH (Rmax a x)) as [E|HI]; [|now right; right].
  rewrite E. unfold Rmax. destruct (Rle_dec a x); [right; now left | now left].
Qed.

Lemma np_max_spec (l : list R) (m : R) :
  np_max l = Ok m -> In m l /\ forall y, In y l -> y <= m.
Proof.
  destruct l as [|x l]; simpl; [discriminate|].
  intros H. injection H as <-. split.
  - destruct (fold_left_Rmax_In l x) as [E|HI]; [left; now symmetry | now right].
  - intros y [<-|Hy]; [apply fold_left_Rmax_ge_init | now apply fold_left_Rmax_ge].
Qed.

Lemma np_max_nonempty (l : list R) : l <> [] -> exists m, np_max l = Ok m.
Proof. destruct l as [|x l]; [congruence | intros _; simpl; eauto]. Qed.

Lemma concat_rows_of_dim_1 (X : batch) :
  rows_of_dim 1 X -> length (concat X) = length X.
Proof.
  induction X as [|x X IH]; intros H; simpl; [reflexivity|].
  rewrite length_app, IH.
  - rewrite (H x); [reflexivity | now left].
  - intros y Hy. apply H. now right.
Qed.

(** What the one-dimensional plot does on points with one coordinate and
    weights of the length of the real batch. *)
Lemma make_plots_1d_run (hist : list R -> R -> list R) (opts : Opts)
    (popts : PlotOpts) (step : nat) (real_points fake_points : batch)
    (w : list R) (prefix : string) (max_pdf top : R) :
  rows_of_dim 1 real_points -> rows_of_dim 1 fake_points ->
  length w = length real_points ->
  np_max (hist (concat real_points) (gmm_max_val popts * (12 / 10))) = Ok max_pdf ->
  np_max (map snd (sorted_pairs (combine (concat real_points) w))) = Ok top ->
  _make_plots_1d hist opts popts step (Some real_points) (Some fake_points)
    (Some w) prefix
  = ([{| file_dir := work_dir popts;
         file_name := plot_file_name prefix "mixture" 2 step |}],
     Ok (Some (Np.sort (concat real_points),
               map (fun y => y / top * max_pdf * (8 / 10))
                 (map snd (sorted_pairs (combine (concat real_points) w)))))).
Proof.
  intros Hr Hf Hw Hpdf Htop. unfold _make_plots_1d.
  rewrite (reshape_cols_ok 1 real_points Hr), (reshape_cols_ok 1 fake_points Hf).
  cbn [bind].
  rewrite (concat_rows_of_dim_1 real_points Hr), <- Hw, Nat.eqb_refl.
  cbn [negb]. rewrite Hpdf. cbn [bind]. rewrite Htop. reflexivity.
Qed.

(** X17.  The green curve of the one-dimensional plot: the abscissas are the real
    points in ascending order, and every point is drawn against its own
    weight, the weights being divided by the largest one and multiplied by
    eight tenths of the highest bar of the histogram; one file is saved. *)
Theorem make_plots_1d_pairs_points_with_their_weights
    (hist : list R -> R -> list R) (opts : Opts)
    (popts : PlotOpts) (step : nat) (real_points fake_points : batch)
    (w : list R) (prefix : string) (max_pdf : R) :
  rows_of_dim 1 real_points -> rows_of_dim 1 fake_points ->
  real_points <> [] -> length w = length real_points ->
  np_max (hist (concat real_points) (gmm_max_val popts * (12 / 10))) = Ok max_pdf ->
  exists (xs ws : list R) (top : R),
    _make_plots_1d hist opts popts step (Some real_points) (Some fake_points)
      (Some w) prefix
    = ([{| file_dir := work_dir popts;
           file_name := plot_file_name prefix "mixture" 2 step |}],
       Ok (Some (xs, map (fun y => y / top * max_pdf * (8 / 10)) ws)))
    /\ ascending xs
    /\ Permutation (combine xs ws) (combine (concat real_points) w)
    /\ In top w /\ (forall y, In y w -> y <= top).
Proof.
  intros Hr Hf Hne Hw Hpdf.
  pose proof (concat_rows_of_dim_1 real_points Hr) as Hlen.
  assert (Hcw : length (concat real_points) = length w) by lia.
  set (sp := sorted_pairs (combine (concat real_points) w)).
  assert (HP : Permutation (map snd sp) w).
  { apply perm_trans with (map snd (combine (concat real_points) w)).
    - apply Permutation_sym, Permutation_map, sorted_pairs_perm.
    - rewrite (map_snd_combine_same_length _ w Hcw). apply Permutation_refl. }
  destruct (np_max_nonempty (map snd sp)) as [top Htop].
  { intros E. apply Permutation_length in HP. rewrite E in HP. simpl in HP.
    destruct real_points; [now apply Hne | simpl in Hw; lia]. }
  exists (Np.sort (concat real_points)), (map snd sp), top.
  split; [|split; [|split; [|split]]].
  - now apply make_plots_1d_run.
  - apply sort_ascending.
  - rewrite <- (sorted_pairs_abscissas _ _ Hcw). fold sp.
    rewrite combine_fst_snd. apply Permutation_sym, sorted_pairs_perm.
  - apply np_max_spec in Htop. destruct Htop as [Hin _].
    eapply Permutation_in; [exact HP | exact Hin].
  - intros y Hy. apply np_max_spec in Htop. destruct Htop as [_ Hmax].
    apply Hmax. eapply Permutation_in; [apply Permutation_sym, HP | exact Hy].
Qed.

Lemma make_plots_1d_pairs_points_with_their_weights_witness :
  exists (xs ws : list R) (top : R),
    _make_plots_1d (fun _ _ => [1 / 2]) gmm_opts toy_plot_opts 3
      (Some [[2]; [1]]) (Some [[0]]) (Some [5; 7]) EmptyString
    = ([{| file_dir := work_dir toy_plot_opts;
           file_name := plot_file_name EmptyString "mixture" 2 3 |}],
       Ok (Some (xs, map (fun y => y / top * (1 / 2) * (8 / 10)) ws)))
    /\ ascending xs
    /\ Permutation (combine xs ws) (combine (concat [[2]; [1]]) [5; 7])
    /\ In top [5; 7] /\ (forall y, In y [5; 7] -> y <= top).
Proof.
  apply (make_plots_1d_pairs_points_with_their_weights (fun _ _ => [1 / 2])
           gmm_opts toy_plot_opts 3 [[2]; [1]] [[0]] [5; 7] EmptyString (1 / 2)).
  - intros x [<-|[<-|[]]]; reflexivity.
  - intros x [<-|[]]; reflexivity.
  - discriminate.
  - reflexivity.
  - reflexivity.
Defined.

(** X18.  When some weight is positive and the histogram has a highest bar that is
    not negative, the curve of the weights never rises above eight tenths of
    that bar and touches this height. *)
Theorem make_plots_1d_curve_height
    (hist : list R -> R -> list R) (opts : Opts)
    (popts : PlotOpts) (step : nat) (real_points fake_points : batch)
    (w : list R) (prefix : string) (max_pdf y0 : R) :
  rows_of_dim 1 real_points -> rows_of_dim 1 fake_points ->
  length w = length real_points ->
  np_max (hist (concat real_points) (gmm_max_val popts * (12 / 10))) = Ok max_pdf ->
  0 <= max_pdf -> In y0 w -> 0 < y0 ->
  exists (xs ys : list R),
    snd (_make_plots_1d hist opts popts step (Some real_points)
           (Some fake_points) (Some w) prefix)
    = Ok (Some (xs, ys))
    /\ length ys = length xs
    /\ In (max_pdf * (8 / 10)) ys
    /\ forall y, In y ys -> y <= max_pdf * (8 / 10).
Proof.
  intros Hr Hf Hw Hpdf Hpos Hy0 Hy0pos.
  pose proof (concat_rows_of_dim_1 real_points Hr) as Hlen.
  assert (Hcw : length (concat real_points) = length w) by lia.
  set (sp := sorted_pairs (combine (concat real_points) w)).
  assert (HP : Permutation (map snd sp) w).
  { apply perm_trans with (map snd (combine (concat real_points) w)).
    - apply Permutation_sym, Permutation_map, sorted_pairs_perm.
    - rewrite (map_snd_combine_same_length _ w Hcw). apply Permutation_refl. }
  destruct (np_max_nonempty (map snd sp)) as [top Htop].
  { intros E. apply Permutation_length in HP. rewrite E in HP. simpl in HP.
    destruct w; [destruct Hy0 | discriminate]. }
  pose proof (np_max_spec _ _ Htop) as [Hin Hmax].
  assert (Htoppos : 0 < top).
  { apply Rlt_le_trans with y0; [exact Hy0pos|]. apply Hmax.
    eapply Permutation_in; [apply Permutation_sym, HP | exact Hy0]. }
  exists (Np.sort (concat real_points)),
    (map (fun y => y / top * max_pdf * (8 / 10)) (map snd sp)).
  split; [|split; [|split]].
  - rewrite (make_plots_1d_run hist opts popts step real_points fake_points w
               prefix max_pdf top Hr Hf Hw Hpdf Htop). reflexivity.
  - rewrite !length_map, sort_length. unfold sp.
    rewrite <- (Permutation_length (sorted_pairs_perm _)), length_combine. lia.
  - apply in_map_iff. exists top. split; [|exact Hin]. field. lra.
  - intros y Hy. apply in_map_iff in Hy. destruct Hy as [v [<- Hv]].
    apply Hmax in Hv.
    assert (Hq : v / top <= 1).
    { apply Rmult_le_reg_r with top; [exact Htoppos|].
      unfold Rdiv. rewrite Rmult_assoc, Rinv_l by lra. lra. }
    replace (v / top * max_pdf * (8 / 10)) with (v / top * (max_pdf * (8 / 10)))
      by ring.
    rewrite <- (Rmult_1_l (max_pdf * (8 / 10))) at 2.
    apply Rmult_le_compat_r; lra.
Qed.

Lemma make_plots_1d_curve_height_witness :
  exists (xs ys : list R),
    snd (_make_plots_1d (fun _ _ => [1 / 2]) gmm_opts toy_plot_opts 3
           (Some [[2]; [1]]) (Some [[0]]) (Some [5; 7]) EmptyString)
    = Ok (Some (xs, ys))
    /\ length ys = length xs
    /\ In (1 / 2 * (8 / 10)) ys
    /\ forall y, In y ys -> y <= 1 / 2 * (8 / 10).
Proof.
  apply (make_plots_1d_curve_height (fun _ _ => [1 / 2])
           gmm_opts toy_plot_opts 3 [[2]; [1]] [[0]] [5; 7] EmptyString
           (1 / 2) 5).
  - intros x [<-|[<-|[]]]; reflexivity.
  - intros x [<-|[]]; reflexivity.
  - reflexivity.
  - reflexivity.
  - lra.
  - now left.
  - lra.
Defined.

(** X19.  Weights of another length than the real batch stop the one-dimensional
    plot at its assertion before anything is saved, while the
    two-dimensional plot has saved the file of the mixture by then. *)
Theorem plots_differ_on_mismatched_weights
    (hist : list R -> R -> list R) (opts : Opts)
    (popts : PlotOpts) (step : nat) (real1 fake1 real2 fake2 : batch)
    (w : list R) (prefix : string) :
  rows_of_dim 1 real1 -> rows_of_dim 1 fake1 ->
  rows_of_dim 2 real2 -> rows_of_dim 2 fake2 ->
  length w <> length real1 -> length w <> length real2 ->
  _make_plots_1d hist opts popts step (Some real1) (Some fake1) (Some w) prefix
  = ([], Raise (AssertionError EmptyString))
  /\ _make_plots_2d opts popts step (Some real2) (Some fake2) (Some w) prefix
     = ([{| file_dir := work_dir popts;
            file_name := plot_file_name prefix "mixture" 2 step |}],
        Raise (AssertionError EmptyString)).
Proof.
  intros Hr1 Hf1 Hr2 Hf2 Hw1 Hw2. split.
  - unfold _make_plots_1d.
    rewrite (reshape_cols_ok 1 real1 Hr1), (reshape_cols_ok 1 fake1 Hf1).
    cbn [bind]. rewrite (concat_rows_of_dim_1 real1 Hr1).
    destruct (Nat.eqb_spec (length real1) (length w)) as [E|_];
      [symmetry in E; contradiction | reflexivity].
  - unfold _make_plots_2d.
    rewrite (reshape_cols_ok 2 real2 Hr2), (reshape_cols_ok 2 fake2 Hf2).
    destruct (Nat.eqb_spec (length w) (length real2)) as [E|_];
      [contradiction | reflexivity].
Qed.

Lemma plots_differ_on_mismatched_weights_witness :
  _make_plots_1d (fun _ _ => [1 / 2]) gmm_opts toy_plot_opts 3
    (Some [[2]; [1]]) (Some [[0]]) (Some [5]) EmptyString
  = ([], Raise (AssertionError EmptyString))
  /\ _make_plots_2d gmm_opts toy_plot_opts 3 (Some [[0; 1]; [2; 3]])
       (Some [[1; 1]]) (Some [5]) EmptyString
     = ([{| file_dir := work_dir toy_plot_opts;
            file_name := plot_file_name EmptyString "mixture" 2 3 |}],
        Raise (AssertionError EmptyString)).
Proof.
  apply (plots_differ_on_mismatched_weights (fun _ _ => [1 / 2]) gmm_opts
           toy_plot_opts 3 [[2]; [1]] [[0]] [[0; 1]; [2; 3]] [[1; 1]] [5]
           EmptyString).
  - intros x [<-|[<-|[]]]; reflexivity.
  - intros x [<-|[]]; reflexivity.
  - intros x [<-|[<-|[]]]; reflexivity.
  - intros x [<-|[]]; reflexivity.
  - simpl; lia.
  - simpl; lia.
Defined.

(** ** The mosaic of pictures *)

Lemma nth_map_seq {B : Type} (f : nat -> B) (m n : nat) (d : B) :
  (n < m)%nat -> nth n (map f (seq 0 m)) d = f n.
Proof.
  intros H.
  rewrite (nth_indep _ d (f 0%nat)) by (rewrite length_map, length_seq; exact H).
  rewrite map_nth, seq_nth by exact H. reflexivity.
Qed.

Lemma list_as_map_nth {B : Type} (l : list B) (d : B) :
  l = map (fun r => nth r l d) (seq 0 (length l)).
Proof.
  apply (nth_ext _ _ d d).
  - rewrite length_map, length_seq. reflexivity.
  - intros n Hn. now rewrite nth_map_seq.
Qed.

Lemma nth_map2 {B C D : Type} (f : B -> C -> D) (l1 : list B) (l2 : list C)
    (n : nat) (d1 : B) (d2 : C) (d : D) :
  (n < length l1)%nat -> (n < length l2)%nat ->
  nth n (map2 f l1 l2) d = f (nth n l1 d1) (nth n l2 d2).
Proof.
  revert l2 n. induction l1 as [|x l1 IH]; intros [|y l2] [|n] H1 H2;
    simpl in *; try lia; auto.
  apply IH; lia.
Qed.

Lemma slice_block_length {B : Type} (l : list B) (c m : nat) :
  ((c + 1) * m <= length l)%nat -> length (slice l (c * m) ((c + 1) * m)) = m.
Proof.
  intros H. unfold slice. rewrite length_firstn, length_skipn. nia.
Qed.

Lemma slice_block_nth {B : Type} (l : list B) (c m r : nat) (d : B) :
  (r < m)%nat -> nth r (slice l (c * m) ((c + 1) * m)) d = nth (c * m + r) l d.
Proof.
  intros H. unfold slice. rewrite nth_firstn, nth_skipn.
  replace ((c + 1) * m - c * m)%nat with m by nia.
  destruct (Nat.ltb_spec r m); [reflexivity | lia].
Qed.

(** [np.split] of an array of [k * m] entries into [k] groups. *)
Lemma np_split_blocks {B : Type} (l : list B) (k m : nat) :
  (0 < k)%nat -> length l = (k * m)%nat ->
  np_split l k
  = Ok (map (fun c => slice l (c * m) ((c + 1) * m)) (seq 0 k)).
Proof.
  intros Hk Hl. unfold np_split. destruct k as [|k']; [lia|].
  rewrite Hl, Nat.mul_comm, Nat.Div0.mod_mul, Nat.div_mul by lia.
  reflexivity.
Qed.

(** The number of columns times the number of rows is the number of
    pictures after the blank ones have been added. *)
Lemma mosaic_padded_length (n m : nat) :
  (0 < m)%nat ->
  ((n + m - 1) / m * m
   = if (0 <? n mod m)%nat then n + (m - n mod m) else n)%nat.
Proof.
  intros Hm.
  pose proof (Nat.div_mod_eq n m) as E.
  pose proof (Nat.mod_upper_bound n m ltac:(lia)) as Hlt.
  destruct (Nat.ltb_spec 0 (n mod m)) as [Hr|Hr].
  - rewrite <- (Nat.div_unique (n + m - 1) m (n / m + 1) (n mod m - 1)); nia.
  - rewrite <- (Nat.div_unique (n + m - 1) m (n / m) (m - 1)); nia.
Qed.

Lemma mosaic_num_cols_ge_2 (n m : nat) :
  (0 < m)%nat -> (m < n)%nat -> (2 <= (n + m - 1) / m)%nat.
Proof.
  intros Hm Hn.
  pose proof (mosaic_padded_length n m Hm) as E.
  pose proof (Nat.mod_upper_bound n m ltac:(lia)) as Hlt.
  destruct (Nat.ltb_spec 0 (n mod m)); nia.
Qed.

Lemma mosaic_num_cols_1 (n m : nat) :
  (0 < n)%nat -> (n <= m)%nat -> ((n + m - 1) / m = 1)%nat.
Proof.
  intros Hn Hm. symmetry. apply (Nat.div_unique _ _ _ (n - 1)); lia.
Qed.

Section MosaicProperties.

Variable A : Type.
Variable one : A -> A.

Lemma hcat_all_cons (p q : list (list A)) (rest : list (list (list A))) :
  hcat_all A (p :: q :: rest) = hcat A p (hcat_all A (q :: rest)).
Proof. reflexivity. Qed.

(** [np.concatenate(groups, axis=2)] puts, for every row of the mosaic, the
    pictures of that row side by side. *)
Lemma concatenate_axis2_rows (groups : list (list (list (list A)))) (m : nat)
    (d : list (list A)) :
  groups <> [] -> (forall g, In g groups -> length g = m) ->
  concatenate_axis2 A groups
  = Ok (map (fun r => hcat_all A (map (fun g => nth r g d) groups)) (seq 0 m)).
Proof.
  induction groups as [|g rest IH]; intros Hne Hlen; [congruence|].
  destruct rest as [|g' rest'].
  - cbn [concatenate_axis2 map hcat_all]. f_equal.
    rewrite <- (Hlen g (or_introl eq_refl)). apply list_as_map_nth.
  - change (concatenate_axis2 A (g :: g' :: rest'))
      with (r <- concatenate_axis2 A (g' :: rest') ;; Ok (map2 (hcat A) g r)).
    rewrite IH; [|discriminate | intros h Hh; apply Hlen; now right].
    cbn [bind]. f_equal.
    assert (Hg : length g = m) by (apply Hlen; now left).
    apply (nth_ext _ _ [] []).
    + rewrite map2_length, !length_map, !length_seq. lia.
    + intros n Hn. rewrite map2_length, length_map, length_seq in Hn.
      rewrite (nth_map2 _ _ _ _ d []) by (rewrite ?length_map, ?length_seq; lia).
      rewrite !nth_map_seq by lia. reflexivity.
Qed.

Lemma nth_padded (pics : list (list (list A))) (k p : nat) :
  nth k (pics ++ repeat (ones_like A one (hd [] pics)) p)
    (ones_like A one (hd [] pics))
  = tile A one pics k.
Proof.
  unfold tile. destruct (Nat.lt_ge_cases k (length pics)) as [H|H].
  - now rewrite app_nth1.
  - rewrite app_nth2 by exact H. rewrite nth_repeat.
    symmetry. now apply nth_overflow.
Qed.

(** The layout of more pictures than one column holds. *)
Lemma mosaic_is_grid (pics : list (list (list A))) (max_rows : nat) :
  (0 < max_rows)%nat -> (max_rows < length pics)%nat ->
  mosaic A one pics max_rows
  = Ok (mosaic_grid A one pics max_rows
          ((length pics + max_rows - 1) / max_rows)).
Proof.
  intros Hm Hn. unfold mosaic. destruct max_rows as [|m']; [lia|].
  set (m := S m') in *. set (n := length pics) in *.
  set (K := ((n + m - 1) / m)%nat).
  pose proof (mosaic_num_cols_ge_2 n m Hm Hn) as HK. fold K in HK.
  destruct (Nat.eqb_spec K 1) as [E|_]; [lia|].
  set (blank := ones_like A one (hd [] pics)).
  set (P := if (0 <? n mod m)%nat then pics ++ repeat blank (m - n mod m)
            else pics).
  assert (HP : length P = (K * m)%nat).
  { unfold K. rewrite mosaic_padded_length by exact Hm. unfold P.
    destruct (0 <? n mod m)%nat; [|reflexivity].
    rewrite length_app, repeat_length. reflexivity. }
  assert (Hnth : forall k, nth k P blank = tile A one pics k).
  { intros k. unfold P. destruct (0 <? n mod m)%nat.
    - apply nth_padded.
    - reflexivity. }
  rewrite (np_split_blocks P K m) by (lia || exact HP). cbn [bind].
  rewrite (concatenate_axis2_rows _ m blank).
  - cbn [bind]. unfold mosaic_grid. f_equal. f_equal.
    apply map_ext_in. intros r Hr. apply in_seq in Hr. f_equal.
    rewrite map_map. apply map_ext. intros c.
    rewrite slice_block_nth by lia. apply Hnth.
  - destruct K as [|K']; [lia | discriminate].
  - intros g Hg. apply in_map_iff in Hg. destruct Hg as [c [<- Hc]].
    apply in_seq in Hc. apply slice_block_length. nia.
Qed.

Lemma length_concat_uniform {B : Type} (ls : list (list B)) (n : nat) :
  (forall l, In l ls -> length l = n) ->
  length (concat ls) = (length ls * n)%nat.
Proof.
  induction ls as [|l ls IH]; intros H; simpl; [reflexivity|].
  rewrite length_app, IH by (intros; apply H; now right).
  rewrite (H l) by now left. reflexivity.
Qed.

Lemma nth_concat_uniform {B : Type} (ls : list (list B)) (n c j : nat)
    (d : B) (d' : list B) :
  (forall l, In l ls -> length l = n) -> (c < length ls)%nat -> (j < n)%nat ->
  nth (c * n + j) (concat ls) d = nth j (nth c ls d') d.
Proof.
  revert c. induction ls as [|l ls IH]; intros c H Hc Hj; simpl in *; [lia|].
  assert (Hl : length l = n) by (apply H; now left).
  destruct c as [|c].
  - simpl. apply app_nth1. lia.
  - rewrite app_nth2 by nia.
    replace (S c * n + j - length l)%nat with (c * n + j)%nat by nia.
    apply IH; [intros; apply H; now right | lia | exact Hj].
Qed.

(** Pictures of [H] rows side by side: the rows are put end to end. *)
Lemma hcat_all_rows (ts : list (list (list A))) (H : nat) :
  ts <> [] -> (forall t, In t ts -> length t = H) ->
  hcat_all A ts
  = map (fun i => concat (map (fun t => nth i t []) ts)) (seq 0 H).
Proof.
  induction ts as [|t rest IH]; intros Hne Hlen; [congruence|].
  assert (Ht : length t = H) by (apply Hlen; now left).
  destruct rest as [|t' rest'].
  - cbn [hcat_all map concat]. rewrite <- Ht.
    rewrite (list_as_map_nth t []) at 1.
    apply map_ext. intros i. now rewrite app_nil_r.
  - rewrite hcat_all_cons.
    rewrite IH; [|discriminate | intros u Hu; apply Hlen; now right].
    unfold hcat. apply (nth_ext _ _ [] []).
    + rewrite map2_length, !length_map, !length_seq. lia.
    + intros n Hn. rewrite map2_length, length_map, length_seq in Hn.
      rewrite (nth_map2 _ _ _ _ [] []) by (rewrite ?length_map, ?length_seq; lia).
      rewrite !nth_map_seq by lia. reflexivity.
Qed.

Lemma tile_uniform (pics : list (list (list A))) (H W k : nat) :
  pics <> [] -> uniform A H W pics ->
  length (tile A one pics k) = H /\
  forall i, (i < H)%nat -> length (nth i (tile A one pics k) []) = W.
Proof.
  intros Hne Hu. unfold tile.
  assert (Hshape : forall p : list (list A),
            length p = H /\ (forall row, In row p -> length row = W) ->
            length p = H /\ forall i, (i < H)%nat -> length (nth i p []) = W).
  { intros p [Hp Hrows]. split; [exact Hp|].
    intros i Hi. apply Hrows. apply nth_In. lia. }
  destruct (Nat.lt_ge_cases k (length pics)) as [Hk|Hk].
  - apply Hshape, Hu. now apply nth_In.
  - rewrite nth_overflow by exact Hk. apply Hshape.
    destruct pics as [|p0 pics']; [congruence|]. simpl.
    destruct (Hu p0 (or_introl eq_refl)) as [Hp Hrows].
    unfold ones_like. rewrite length_map. split; [exact Hp|].
    intros row Hrow. apply in_map_iff in Hrow. destruct Hrow as [row0 [<- Hrow0]].
    rewrite length_map. now apply Hrows.
Qed.

(** The grid: its shape, and the place of every entry of every tile. *)
Lemma mosaic_grid_entries (pics : list (list (list A))) (H W m K : nat) (d : A) :
  pics <> [] -> uniform A H W pics -> (0 < K)%nat ->
  let image := mosaic_grid A one pics m K in
  length image = (m * H)%nat /\
  (forall row, In row image -> length row = (K * W)%nat) /\
  forall c r i j, (c < K)%nat -> (r < m)%nat -> (i < H)%nat -> (j < W)%nat ->
    nth (c * W + j) (nth (r * H + i) image []) d
    = nth j (nth i (tile A one pics (c * m + r)) []) d.
Proof.
  intros Hne Hu HK image.
  set (tiles := fun r : nat => map (fun c => tile A one pics (c * m + r)) (seq 0 K)).
  assert (Htiles_ne : forall r, tiles r <> []).
  { intros r. unfold tiles. destruct K; [lia | discriminate]. }
  assert (Htiles_H : forall r t, In t (tiles r) -> length t = H).
  { intros r t Ht. apply in_map_iff in Ht. destruct Ht as [c [<- _]].
    apply (tile_uniform pics H W _ Hne Hu). }
  assert (Hrow : forall r,
            hcat_all A (tiles r)
            = map (fun i => concat (map (fun t => nth i t []) (tiles r))) (seq 0 H)).
  { intros r. apply hcat_all_rows; [apply Htiles_ne | apply Htiles_H]. }
  assert (Hwidth : forall r i l, (i < H)%nat ->
            In l (map (fun t => nth i t []) (tiles r)) -> length l = W).
  { intros r i l Hi Hl. apply in_map_iff in Hl. destruct Hl as [t [<- Ht]].
    apply in_map_iff in Ht. destruct Ht as [c [<- _]].
    now apply (tile_uniform pics H W _ Hne Hu). }
  assert (Hblocks : forall b, In b (map (fun r => hcat_all A (tiles r)) (seq 0 m)) ->
            length b = H).
  { intros b Hb. apply in_map_iff in Hb. destruct Hb as [r [<- _]].
    rewrite Hrow, length_map, length_seq. reflexivity. }
  change image with (concat (map (fun r => hcat_all A (tiles r)) (seq 0 m))).
  split; [|split].
  - rewrite (length_concat_uniform _ H Hblocks), length_map, length_seq.
    reflexivity.
  - intros row Hin. apply in_concat in Hin. destruct Hin as [b [Hb Hin]].
    apply in_map_iff in Hb. destruct Hb as [r [<- _]].
    rewrite Hrow in Hin. apply in_map_iff in Hin. destruct Hin as [i [<- Hi]].
    apply in_seq in Hi.
    rewrite (length_concat_uniform _ W)
      by (intros l Hl; apply (Hwidth r i l); [lia | exact Hl]).
    unfold tiles. rewrite !length_map, length_seq. reflexivity.
  - intros c r i j Hc Hr Hi Hj.
    rewrite (nth_concat_uniform _ H r i [] []);
      [|exact Hblocks | rewrite length_map, length_seq; exact Hr | exact Hi].
    rewrite nth_map_seq by exact Hr. rewrite Hrow.
    rewrite nth_map_seq by exact Hi.
    rewrite (nth_concat_uniform _ W c j d []);
      [|intros l Hl; apply (Hwidth r i l Hi Hl)
       |unfold tiles; rewrite !length_map, length_seq; exact Hc | exact Hj].
    unfold tiles. rewrite map_map. rewrite nth_map_seq by exact Hc.
    reflexivity.
Qed.

End MosaicProperties.

(** X20.  With more pictures than one column holds, the mosaic is a grid of
    [max_rows] rows and [ceil(num_pics / max_rows)] columns of tiles that is
    filled column by column: the entry [(i, j)] of the picture number
    [c * max_rows + r] is the entry [(r * H + i, c * W + j)] of the image,
    and the places after the last picture show blank tiles of ones. *)
Theorem mosaic_places_pictures_column_by_column (A : Type) (one : A -> A)
    (pics : list (list (list A))) (max_rows H W : nat) (d : A) :
  uniform A H W pics -> (0 < max_rows)%nat -> (max_rows < length pics)%nat ->
  let num_cols := ((length pics + max_rows - 1) / max_rows)%nat in
  exists image,
    mosaic A one pics max_rows = Ok image /\
    length image = (max_rows * H)%nat /\
    (forall row, In row image -> length row = (num_cols * W)%nat) /\
    (forall c r i j,
       (c < num_cols)%nat -> (r < max_rows)%nat -> (i < H)%nat -> (j < W)%nat ->
       nth (c * W + j) (nth (r * H + i) image []) d
       = if (c * max_rows + r <? length pics)%nat
         then nth j (nth i (nth (c * max_rows + r) pics []) []) d
         else one (nth j (nth i (hd [] pics) []) d)).
Proof.
  intros Hu Hm Hn num_cols.
  assert (Hne : pics <> []) by (destruct pics; [simpl in Hn; lia | discriminate]).
  pose proof (mosaic_num_cols_ge_2 (length pics) max_rows Hm Hn) as HK.
  fold num_cols in HK.
  exists (mosaic_grid A one pics max_rows num_cols).
  destruct (mosaic_grid_entries A one pics H W max_rows num_cols d Hne Hu
              ltac:(lia)) as [Hlen [Hrows Hent]].
  split; [now apply mosaic_is_grid|].
  split; [exact Hlen|]. split; [exact Hrows|].
  intros c r i j Hc Hr Hi Hj. rewrite (Hent c r i j Hc Hr Hi Hj).
  unfold tile. destruct (Nat.ltb_spec (c * max_rows + r) (length pics)) as [Hk|Hk].
  - f_equal. f_equal. apply nth_indep. exact Hk.
  - rewrite (@nth_overflow _ pics _ _ Hk).
    destruct pics as [|p0 pics']; [congruence|]. simpl hd.
    destruct (Hu p0 (or_introl eq_refl)) as [Hp Hrows0].
    unfold ones_like.
    rewrite (nth_indep _ [] (map one [])) by (rewrite length_map; lia).
    rewrite map_nth.
    assert (Hw : length (nth i p0 []) = W) by (apply Hrows0, nth_In; lia).
    rewrite (nth_indep _ d (one d)) by (rewrite length_map; lia).
    rewrite map_nth. reflexivity.
Qed.

Lemma mosaic_places_pictures_column_by_column_witness :
  exists image,
    mosaic R (fun _ => 1) [[[2]]; [[3]]; [[4]]] 2 = Ok image /\
    length image = (2 * 1)%nat /\
    (forall row, In row image -> length row = ((3 + 2 - 1) / 2 * 1)%nat) /\
    (forall c r i j,
       (c < (3 + 2 - 1) / 2)%nat -> (r < 2)%nat -> (i < 1)%nat -> (j < 1)%nat ->
       nth (c * 1 + j) (nth (r * 1 + i) image []) 0
       = if (c * 2 + r <? 3)%nat
         then nth j (nth i (nth (c * 2 + r) [[[2]]; [[3]]; [[4]]] []) []) 0
         else (fun _ => 1) (nth j (nth i (hd [] [[[2]]; [[3]]; [[4]]]) []) 0)).
Proof.
  apply (mosaic_places_pictures_column_by_column R (fun _ => 1)
           [[[2]]; [[3]]; [[4]]] 2 1 1 0).
  - intros p [<-|[<-|[<-|[]]]]; (split; [reflexivity|]);
      intros row [<-|[]]; reflexivity.
  - lia.
  - simpl; lia.
Defined.

(** X21.  Up to [max_rows] pictures make one column, from top to bottom, without
    blank tiles; no rows at all ([max_rows = 0]) make the computation of the
    number of columns divide by zero. *)
Theorem mosaic_single_column (A : Type) (one : A -> A)
    (pics : list (list (list A))) (max_rows H W : nat) :
  uniform A H W pics -> (0 < length pics)%nat ->
  mosaic A one pics 0 = Raise ZeroDivisionError /\
  ((length pics <= max_rows)%nat ->
   mosaic A one pics max_rows = Ok (concat pics) /\
   length (concat pics) = (length pics * H)%nat /\
   forall row, In row (concat pics) -> length row = W).
Proof.
  intros Hu Hn. split; [reflexivity|]. intros Hle.
  split; [|split].
  - unfold mosaic. destruct max_rows as [|m']; [lia|].
    rewrite (mosaic_num_cols_1 (length pics) (S m')) by lia. reflexivity.
  - apply length_concat_uniform. intros p Hp. now apply Hu.
  - intros row Hrow. apply in_concat in Hrow. destruct Hrow as [p [Hp Hrow]].
    now apply (Hu p Hp).
Qed.

Lemma mosaic_single_column_witness :
  mosaic R (fun _ => 1) [[[2]]; [[3]]] 0 = Raise ZeroDivisionError /\
  ((length [[[2]]; [[3]]] <= 16)%nat ->
   mosaic R (fun _ => 1) [[[2]]; [[3]]] 16 = Ok (concat [[[2]]; [[3]]]) /\
   length (concat [[[2]]; [[3]]]) = (length [[[2]]; [[3]]] * 1)%nat /\
   forall row, In row (concat [[[2]]; [[3]]]) -> length row = 1%nat).
Proof.
  apply (mosaic_single_column R (fun _ => 1) [[[2]]; [[3]]] 16 1 1).
  - intros p [<-|[<-|[]]]; (split; [reflexivity|]);
      intros row [<-|[]]; reflexivity.
  - simpl; lia.
Defined.
